(** * cp_sampler: the sweep script and its helpers, embedded in Rocq

    The development follows [cp_sampler.py] (the sweep driver) and the
    CSV helpers of [summary/sum_phi.py] (the harvester).  Python lists are
    Rocq lists, a [dict] is an association list in insertion order,
    exceptions are the [Err] results of a small error monad, and a Python
    [float] is an IEEE-754 binary64 value of the standard library's
    [SpecFloat].  The files are a map from paths to the text they hold;
    whether a path can be opened for writing is a fact of the machine,
    which the functions that write take as an argument, and a file that
    is read is read in text mode, with its line ends translated. *)

From Stdlib Require Import Ascii String DecimalString.
From Stdlib Require Import List ZArith Lia Bool Arith Sorted Permutation SpecFloat.
From Stdlib Require DecimalZ.
Import ListNotations.

Local Open Scope Z_scope.

(** ** Exceptions

    The scripts never catch an exception themselves, except for the bare
    [except] of [run_cp] and of the [float] coercion in [csv_to_dict]; a
    raised exception is the [Err] result of the function that raised it. *)

Inductive exn : Type :=
| IndexError
| KeyError
| TypeError
| ValueError
| OverflowError
| FileNotFoundError.

Inductive result (A : Type) : Type :=
| Ok (a : A)
| Err (e : exn).

Arguments Ok {A} a.
Arguments Err {A} e.

Definition bind {A B : Type} (r : result A) (k : A -> result B) : result B :=
  match r with
  | Ok a => k a
  | Err e => Err e
  end.

Notation "x <- r ;; k" := (bind r (fun x => k))
  (at level 61, r at next level, right associativity).

Notation "' p <- r ;; k" := (bind r (fun x => let 'p := x in k))
  (at level 61, p pattern, r at next level, right associativity).

Definition of_option {A : Type} (e : exn) (o : option A) : result A :=
  match o with
  | Some a => Ok a
  | None => Err e
  end.

(** ** Python list primitives used by the scripts *)

Module PyList.

(** [l.insert(j, x)] for [0 <= j <= len(l)]. *)
Definition insert {A : Type} (j : nat) (x : A) (l : list A) : list A :=
  firstn j l ++ x :: skipn j l.

(** [l.pop(-1)] on a non-empty list, the popped value dropped. *)
Definition pop_last {A : Type} (l : list A) : list A := removelast l.

(** [l.append(x)]. *)
Definition append {A : Type} (l : list A) (x : A) : list A := l ++ [x].

End PyList.

(** ** [get_top] (cp_sampler.py, lines 190-218) *)

Module GetTop.

Section Generic.

(** The element type and Python's [<] and [>] on it. *)
Context {V : Type}.
Variable lt : V -> V -> bool.
Variable gt : V -> V -> bool.

(** The two result lists, kept side by side as in the source. *)
Definition tops : Type := (list V * list nat)%type.

(** [for j in range(len(top_value_list)): if value > top_value_list[j]]:
    the first such [j], if any. *)
Fixpoint first_smaller (value : V) (top_value_list : list V) : option nat :=
  match top_value_list with
  | [] => None
  | x :: rest =>
      if gt value x then Some O
      else option_map S (first_smaller value rest)
  end.

(** The inner [for] loop with its [break]: insert value and index at the
    first position holding a smaller value, or leave both lists alone. *)
Definition insert_sorted (value : V) (i : nat) (t : tops) : tops :=
  match first_smaller value (fst t) with
  | Some j => (PyList.insert j value (fst t), PyList.insert j i (snd t))
  | None => t
  end.

(** The final [if len(top_value_list) > num_values: pop(-1)]. *)
Definition trim (num_values : Z) (t : tops) : tops :=
  if Z.of_nat (length (fst t)) >? num_values
  then (PyList.pop_last (fst t), PyList.pop_last (snd t))
  else t.

(** One pass of the outer loop body for index [i] and [value]. *)
Definition step (num_values : Z) (t : tops) (i : nat) (value : V) : tops :=
  match rev (fst t) with
  | [] => (PyList.append (fst t) value, PyList.append (snd t) i)
  | last :: _ =>
      if lt value last && (Z.of_nat (length (fst t)) =? num_values)
      then t
      else trim num_values (insert_sorted value i t)
  end.

(** [for i in range(len(value_list))], started at index [i]. *)
Fixpoint loop (num_values : Z) (value_list : list V) (i : nat) (t : tops) : tops :=
  match value_list with
  | [] => t
  | value :: rest => loop num_values rest (S i) (step num_values t i value)
  end.

Definition get_top (value_list : list V) (num_values : Z) : tops :=
  loop num_values value_list O ([], []).

End Generic.

End GetTop.

(** [get_top] on Python integers. *)
Definition get_top_int : list Z -> Z -> list Z * list nat :=
  GetTop.get_top Z.ltb Z.gtb.

(** ** Python string primitives used by the scripts

    A Rocq [string] stands for a Python [str] whose characters are code
    points below 256, one [ascii] per character. *)

Module PyStr.

Local Open Scope string_scope.

Definition newline : ascii := "010"%char.
Definition comma : ascii := ","%char.

(** [s.split(sep)] for a one-character separator. *)
Fixpoint split (sep : ascii) (s : string) : list string :=
  match s with
  | EmptyString => [EmptyString]
  | String c rest =>
      if Ascii.eqb c sep then EmptyString :: split sep rest
      else match split sep rest with
           | field :: fields => String c field :: fields
           | [] => [String c EmptyString]
           end
  end.

(** [sep.join(parts)]. *)
Definition join (sep : string) (parts : list string) : string :=
  String.concat sep parts.

(** [s.replace(c, "")] for a one-character [c]. *)
Fixpoint remove (c : ascii) (s : string) : string :=
  match s with
  | EmptyString => EmptyString
  | String a rest => if Ascii.eqb a c then remove c rest else String a (remove c rest)
  end.

(** The carriage return, ["\r"]. *)
Definition carriage_return : ascii := "013"%char.

(** What a file opened in text mode delivers of the text it holds
    ([open(path, "r")], universal newlines): a carriage return followed
    by a line feed, and a carriage return alone, are read as one line
    feed. *)
Fixpoint translate_newlines (raw : string) : string :=
  match raw with
  | EmptyString => EmptyString
  | String c rest =>
      if Ascii.eqb c carriage_return then
        match rest with
        | String c' rest' =>
            if Ascii.eqb c' newline then String newline (translate_newlines rest')
            else String newline (translate_newlines rest)
        | EmptyString => String newline EmptyString
        end
      else String c (translate_newlines rest)
  end.

(** The lines of a text that was read: every line keeps its line feed, a
    last line without one is kept as it is. *)
Fixpoint lines_of (text : string) : list string :=
  match text with
  | EmptyString => []
  | String c rest =>
      if Ascii.eqb c newline then String c EmptyString :: lines_of rest
      else match lines_of rest with
           | line :: lines => String c line :: lines
           | [] => [String c EmptyString]
           end
  end.

(** [fh.readlines()] on a file opened in text mode that holds [raw]
    (sum_phi.py lines 23-24). *)
Definition readlines (raw : string) : list string :=
  lines_of (translate_newlines raw).

(** [str(z)] for an [int]. *)
Definition of_int (z : Z) : string := NilZero.string_of_int (Z.to_int z).

(** ["".join(parts)]. *)
Definition concat_all (parts : list string) : string :=
  fold_right String.append EmptyString parts.

(** [n] copies of the character [c]. *)
Fixpoint replicate (n : nat) (c : ascii) : string :=
  match n with
  | O => EmptyString
  | S n' => String c (replicate n' c)
  end.

(** [s.zfill(width)]: zeros go after a leading sign. *)
Definition zfill (width : nat) (s : string) : string :=
  let pad := replicate (width - String.length s) "0"%char in
  match s with
  | String c rest =>
      if Ascii.eqb c "+"%char || Ascii.eqb c "-"%char
      then String c (pad ++ rest)
      else pad ++ s
  | EmptyString => pad
  end.

End PyStr.

(** ** Python floats

    A [float] is an IEEE-754 binary64 value.  The three built-ins the
    scripts use on floats are modelled here: the conversion of an [int],
    [float(s)] on a string, and the ["{:.<p>g}"] format. *)

Module PyFloat.

Local Open Scope string_scope.
Local Open Scope Z_scope.

Definition prec : Z := 53.
Definition emax : Z := 1024.

Definition float : Type := spec_float.

(** The binary64 value nearest to [n / d] (ties to even), for [0 <= n] and
    [0 < d]; an infinity when the quotient is out of range. *)
Definition round_ratio (neg : bool) (n d : Z) : float :=
  match n with
  | Z0 => S754_zero neg
  | _ =>
      let '(q, e, loc) := SFdiv_core_binary prec emax n 0 d 0 in
      binary_round_aux prec emax neg q e loc
  end.

(** The binary64 value nearest to [m * 10^e10], for [0 <= m]. *)
Definition of_decimal (neg : bool) (m e10 : Z) : float :=
  if 0 <=? e10 then round_ratio neg (m * 10 ^ e10) 1
  else round_ratio neg m (10 ^ (- e10)).

(** [float(z)] for an [int]: an [OverflowError] when [z] is too large. *)
Definition of_int (z : Z) : result float :=
  match round_ratio (z <? 0) (Z.abs z) 1 with
  | S754_infinity _ => Err OverflowError
  | x => Ok x
  end.

(** Python's [==] and [<] on floats. *)
Definition eqb (x y : float) : bool := SFeqb x y.
Definition ltb (x y : float) : bool := SFltb x y.
Definition gtb (x y : float) : bool := SFltb y x.

(** [math.isnan(x)]. *)
Definition is_nan (x : float) : bool :=
  match x with
  | S754_nan => true
  | _ => false
  end.

(** *** [float(s)] *)

Definition is_digit (c : ascii) : bool :=
  let n := nat_of_ascii c in (48 <=? n)%nat && (n <=? 57)%nat.

Definition digit_value (c : ascii) : Z := Z.of_nat (nat_of_ascii c - 48).

(** The characters [float] strips from both ends. *)
Definition is_space (c : ascii) : bool :=
  let n := nat_of_ascii c in
  ((9 <=? n)%nat && (n <=? 13)%nat) || (n =? 32)%nat || (n =? 133)%nat || (n =? 160)%nat.

Fixpoint drop_spaces (l : list ascii) : list ascii :=
  match l with
  | c :: rest => if is_space c then drop_spaces rest else l
  | [] => []
  end.

Definition strip (l : list ascii) : list ascii :=
  rev (drop_spaces (rev (drop_spaces l))).

(** ASCII lower case, for the case-insensitive words [inf] and [nan]. *)
Definition lower (c : ascii) : ascii :=
  let n := nat_of_ascii c in
  if (65 <=? n)%nat && (n <=? 90)%nat then ascii_of_nat (n + 32) else c.

(** The digits of a number read so far, most significant first. *)
Definition digits_value (ds : list ascii) : Z :=
  fold_left (fun acc c => 10 * acc + digit_value c) ds 0.

(** [digit (["_"] digit)*] after its first digit: the digits read, in
    reverse, and the rest of the input. *)
Fixpoint more_digits (l : list ascii) (acc : list ascii) : list ascii * list ascii :=
  match l with
  | c :: rest =>
      if is_digit c then more_digits rest (c :: acc)
      else if Ascii.eqb c "_"%char then
        match rest with
        | d :: rest' => if is_digit d then more_digits rest' (d :: acc) else (acc, l)
        | [] => (acc, l)
        end
      else (acc, l)
  | [] => (acc, l)
  end.

(** [digitpart]: its digits and the rest of the input. *)
Definition digitpart (l : list ascii) : option (list ascii * list ascii) :=
  match l with
  | c :: rest =>
      if is_digit c
      then let '(acc, rest') := more_digits rest [c] in Some (rev acc, rest')
      else None
  | [] => None
  end.

(** [number ::= [digitpart] "." digitpart | digitpart ["."]]: the digits
    before and after the point and the rest of the input. *)
Definition number (l : list ascii) : option (list ascii * list ascii * list ascii) :=
  match digitpart l with
  | Some (ip, rest) =>
      match rest with
      | c :: rest' =>
          if Ascii.eqb c "."%char then
            match digitpart rest' with
            | Some (fp, rest'') => Some (ip, fp, rest'')
            | None => Some (ip, [], rest')
            end
          else Some (ip, [], rest)
      | [] => Some (ip, [], [])
      end
  | None =>
      match l with
      | c :: rest =>
          if Ascii.eqb c "."%char then
            match digitpart rest with
            | Some (fp, rest') => Some ([], fp, rest')
            | None => None
            end
          else None
      | [] => None
      end
  end.

(** An optional sign: whether it is a minus, and the rest. *)
Definition sign (l : list ascii) : bool * list ascii :=
  match l with
  | c :: rest =>
      if Ascii.eqb c "-"%char then (true, rest)
      else if Ascii.eqb c "+"%char then (false, rest)
      else (false, l)
  | [] => (false, l)
  end.

(** [exponent ::= ("e" | "E") [sign] digitpart], which must end the input:
    its value, 0 when the input is already at its end. *)
Definition exponent (l : list ascii) : option Z :=
  match l with
  | [] => Some 0
  | c :: rest =>
      if Ascii.eqb (lower c) "e"%char then
        let '(neg, rest') := sign rest in
        match digitpart rest' with
        | Some (ds, []) => Some (if neg then - digits_value ds else digits_value ds)
        | _ => None
        end
      else None
  end.

(** [float(s)]: [None] stands for the [ValueError] of a string that is not
    a number. *)
Definition of_string (s : string) : option float :=
  let '(neg, body) := sign (strip (list_ascii_of_string s)) in
  let word := string_of_list_ascii (map lower body) in
  if String.eqb word "inf" || String.eqb word "infinity" then Some (S754_infinity neg)
  else if String.eqb word "nan" then Some S754_nan
  else
    match number body with
    | Some (ip, fp, rest) =>
        match exponent rest with
        | Some e => Some (of_decimal neg (digits_value (ip ++ fp)%list) (e - Z.of_nat (length fp)))
        | None => None
        end
    | None => None
    end.

(** A float literal of the Python source; a malformed one reads as NaN. *)
Definition lit (s : string) : float :=
  match of_string s with
  | Some x => x
  | None => S754_nan
  end.

(** *** The ["g"] format *)

(** The number of decimal digits of [n > 0]. *)
Definition ndigits (n : Z) : Z := Z.of_nat (String.length (PyStr.of_int n)).

(** Whether [10^k <= n / d]. *)
Definition at_least_pow10 (n d k : Z) : bool :=
  if 0 <=? k then d * 10 ^ k <=? n else d <=? n * 10 ^ (- k).

(** The decimal exponent of [n / d]: the [X] with [10^X <= n/d < 10^(X+1)]. *)
Definition decimal_exponent (n d : Z) : Z :=
  let k := ndigits n - ndigits d in
  if at_least_pow10 n d k then k else k - 1.

(** [n / d] rounded to the nearest integer, ties to even. *)
Definition round_half_even (n d : Z) : Z :=
  let q := n / d in
  match 2 * (n mod d) ?= d with
  | Lt => q
  | Gt => q + 1
  | Eq => if Z.even q then q else q + 1
  end.

(** [n / d] rounded to [p] significant digits: the [p]-digit integer [D]
    and the decimal exponent [X] of the rounded value [D * 10^(X-p+1)]. *)
Definition significant (p n d : Z) : Z * Z :=
  let X := decimal_exponent n d in
  let s := X - p + 1 in
  let D := if 0 <=? s then round_half_even n (d * 10 ^ s)
           else round_half_even (n * 10 ^ (- s)) d in
  if D =? 10 ^ p then (10 ^ (p - 1), X + 1) else (D, X).

(** The exact value [m * 2^e] of a finite float as a fraction. *)
Definition fraction (m : positive) (e : Z) : Z * Z :=
  if 0 <=? e then (Zpos m * 2 ^ e, 1) else (Zpos m, 2 ^ (- e)).

(** Trailing zeros removed. *)
Definition strip_zeros (s : string) : string :=
  let fix drop (l : list ascii) : list ascii :=
    match l with
    | c :: rest => if Ascii.eqb c "0"%char then drop rest else l
    | [] => []
    end in
  string_of_list_ascii (rev (drop (rev (list_ascii_of_string s)))).

(** A fraction part with its point, or nothing when it is all zeros. *)
Definition point_fraction (digits : string) : string :=
  match strip_zeros digits with
  | EmptyString => EmptyString
  | fp => "." ++ fp
  end.

(** Fixed notation of the digits [ds] with decimal exponent [X]. *)
Definition fixed (ds : string) (X : Z) : string :=
  if 0 <=? X then
    let k := Z.to_nat (X + 1) in
    substring 0 k ds ++ point_fraction (substring k (String.length ds - k) ds)
  else
    "0" ++ point_fraction (PyStr.replicate (Z.to_nat (- X - 1)) "0"%char ++ ds).

(** Scientific notation: one digit, the fraction, and an exponent of at
    least two digits with its sign. *)
Definition scientific (ds : string) (X : Z) : string :=
  substring 0 1 ds ++ point_fraction (substring 1 (String.length ds - 1) ds)
  ++ "e" ++ (if X <? 0 then "-" else "+") ++ PyStr.zfill 2 (PyStr.of_int (Z.abs X)).

(** ["{:.<p>g}".format(x)] for a precision [0 <= p]; precision 0 counts
    as 1. *)
Definition format_g (p : Z) (x : float) : string :=
  let p := Z.max p 1 in
  match x with
  | S754_nan => "nan"
  | S754_infinity neg => (if neg then "-" else "") ++ "inf"
  | S754_zero neg => (if neg then "-" else "") ++ "0"
  | S754_finite neg m e =>
      let '(n, d) := fraction m e in
      let '(D, X) := significant p n d in
      let ds := PyStr.of_int D in
      (if neg then "-" else "")
      ++ (if (-4 <=? X) && (X <? p) then fixed ds X else scientific ds X)
  end.

(** *** [repr(x)], which is also [str(x)]

    The shortest digit string that reads back as [x], the nearest to [x]
    when there are two; fixed notation for decimal exponents from -4 to
    15, scientific notation outside. *)

(** [n / d] cut to [p] significant digits: the integer part of
    [n / d / 10^(X-p+1)] and the decimal exponent [X]. *)
Definition truncated (p n d : Z) : Z * Z :=
  let X := decimal_exponent n d in
  let s := X - p + 1 in
  (if 0 <=? s then n / (d * 10 ^ s) else (n * 10 ^ (- s)) / d, X).

(** Whether the digits [D] at decimal exponent [X], [p] of them, read back
    as the positive float [x]. *)
Definition reads_back (x : float) (p D X : Z) : bool :=
  match of_decimal false D (X - p + 1), x with
  | S754_finite _ m e, S754_finite _ m' e' => Pos.eqb m m' && (e =? e')
  | _, _ => false
  end.

(** The [p]-digit candidates below and above [n / d], the nearer one
    first (the even one on a tie). *)
Definition candidates (p n d : Z) : list (Z * Z) :=
  let '(lo, X) := truncated p n d in
  let '(near, X') := significant p n d in
  let hi := if lo + 1 =? 10 ^ p then (10 ^ (p - 1), X + 1) else (lo + 1, X) in
  if (near =? lo) && (X' =? X) then [(lo, X); hi] else [hi; (lo, X)].

(** The first candidate that reads back as [x], trying 1, 2, ... digits. *)
Fixpoint shortest (x : float) (n d : Z) (fuel : nat) (p : Z) : Z * Z :=
  match fuel with
  | O => significant 17 n d
  | S fuel' =>
      match filter (fun c => reads_back x p (fst c) (snd c)) (candidates p n d) with
      | c :: _ => c
      | [] => shortest x n d fuel' (p + 1)
      end
  end.

(** Fixed notation always shows a fraction: [".0"] when there is none. *)
Definition fixed_repr (ds : string) (X : Z) : string :=
  if 0 <=? X then
    let k := Z.to_nat (X + 1) in
    let len := String.length ds in
    if (len <=? k)%nat then ds ++ PyStr.replicate (k - len) "0"%char ++ ".0"
    else substring 0 k ds ++ "." ++ substring k (len - k) ds
  else
    "0." ++ PyStr.replicate (Z.to_nat (- X - 1)) "0"%char ++ ds.

Definition repr (x : float) : string :=
  match x with
  | S754_nan => "nan"
  | S754_infinity neg => (if neg then "-" else "") ++ "inf"
  | S754_zero neg => (if neg then "-" else "") ++ "0.0"
  | S754_finite neg m e =>
      let '(n, d) := fraction m e in
      let '(D, X) := shortest (S754_finite false m e) n d 16 1 in
      let ds := strip_zeros (PyStr.of_int D) in
      (if neg then "-" else "")
      ++ (if (-4 <=? X) && (X <? 16) then fixed_repr ds X else scientific ds X)
  end.

End PyFloat.

(** ** Python numbers: [int] or [float] *)

Inductive number : Type :=
| PyInt (z : Z)
| PyFloat (x : PyFloat.float).

(** ** Python's comparisons on numbers

    Two [int]s compare as integers, two floats as IEEE-754 values, and an
    [int] and a float by their exact values.  Every comparison with NaN
    is false, [nan == nan] included. *)

Module PyNumber.

(** How an [int] stands to a float; NaN stands in no order. *)
Definition compare_int_float (z : Z) (x : PyFloat.float) : option comparison :=
  match x with
  | S754_nan => None
  | S754_infinity neg => Some (if neg then Gt else Lt)
  | S754_zero _ => Some (z ?= 0)
  | S754_finite neg m e =>
      let v := if neg then Z.neg m else Z.pos m in
      Some (if 0 <=? e then z ?= v * 2 ^ e else z * 2 ^ (- e) ?= v)
  end.

Definition compare (a b : number) : option comparison :=
  match a, b with
  | PyInt x, PyInt y => Some (x ?= y)
  | PyFloat x, PyFloat y => SFcompare x y
  | PyInt z, PyFloat x => compare_int_float z x
  | PyFloat x, PyInt z => option_map CompOpp (compare_int_float z x)
  end.

(** [a == b], [a < b], [a > b] and [a >= b]. *)
Definition eqb (a b : number) : bool :=
  match compare a b with Some Eq => true | _ => false end.

Definition ltb (a b : number) : bool :=
  match compare a b with Some Lt => true | _ => false end.

Definition gtb (a b : number) : bool := ltb b a.

Definition geb (a b : number) : bool :=
  match compare a b with Some Eq | Some Gt => true | _ => false end.

(** [math.isnan(a)]. *)
Definition is_nan (a : number) : bool :=
  match a with
  | PyInt _ => false
  | PyFloat x => PyFloat.is_nan x
  end.

End PyNumber.

(** [get_top] on a list of Python numbers. *)
Definition get_top_number : list number -> Z -> list number * list nat :=
  GetTop.get_top PyNumber.ltb PyNumber.gtb.

(** ** [round_sf] (cp_sampler.py lines 110-122, sum_phi.py lines 84-96) *)

(** The largest precision a format string may carry. *)
Definition max_precision : Z := 2147483647.

(** [("{:." + str(sf) + "g}").format(value)]: a negative [sf] writes a
    sign where the precision is expected, and an [int] is converted to a
    float before it is formatted. *)
Definition format_sf (value : number) (sf : Z) : result string :=
  if (sf <? 0) || (max_precision <? sf) then Err ValueError
  else
    x <- match value with
         | PyInt z => PyFloat.of_int z
         | PyFloat x => Ok x
         end ;;
    Ok (PyFloat.format_g sf x).

Definition round_sf (value : number) (sf : Z) : result PyFloat.float :=
  formatted <- format_sf value sf ;;
  of_option ValueError (PyFloat.of_string formatted).

(** ** Python dicts with string keys

    An association list in insertion order, looked up and updated at the
    first entry of a key: [set] keeps the position of a key that is
    present and appends one that is not, as assignment to [d[k]] does. *)

Module Dict.

Definition t (V : Type) : Type := list (string * V).

Fixpoint get {V : Type} (d : t V) (k : string) : option V :=
  match d with
  | [] => None
  | (k', v) :: rest => if String.eqb k' k then Some v else get rest k
  end.

Fixpoint set {V : Type} (d : t V) (k : string) (v : V) : t V :=
  match d with
  | [] => [(k, v)]
  | (k', v') :: rest =>
      if String.eqb k' k then (k', v) :: rest else (k', v') :: set rest k v
  end.

(** [d.keys()], in iteration order. *)
Definition keys {V : Type} (d : t V) : list string := map fst d.

(** [d.values()], in iteration order. *)
Definition values {V : Type} (d : t V) : list V := map snd d.

(** [d.update(pairs)], which is also how [dict(pairs)] and [{**a, **b}]
    fill a dict. *)
Definition update {V : Type} (d : t V) (pairs : list (string * V)) : t V :=
  fold_left (fun acc kv => set acc (fst kv) (snd kv)) pairs d.

(** [dict(pairs)]. *)
Definition of_pairs {V : Type} (pairs : list (string * V)) : t V := update [] pairs.

(** [d[k]], a [KeyError] when [k] is absent. *)
Definition item {V : Type} (d : t V) (k : string) : result V :=
  of_option KeyError (get d k).

End Dict.

(** The files that exist: path to text, as it is stored. *)
Definition filesystem : Type := Dict.t string.

(** [f] applied to each element in turn, stopping at the first exception. *)
Fixpoint mapM {A B : Type} (f : A -> result B) (l : list A) : result (list B) :=
  match l with
  | [] => Ok []
  | a :: rest => b <- f a ;; bs <- mapM f rest ;; Ok (b :: bs)
  end.

(** A loop that threads a state through [body], stopping at the first
    exception. *)
Fixpoint foldM {A S : Type} (body : S -> A -> result S) (l : list A) (s : S) : result S :=
  match l with
  | [] => Ok s
  | a :: rest => s' <- body s a ;; foldM body rest s'
  end.

(** ** The CSV codec *)

(** A dict value of the codec: a bare item or a list of items. *)
Inductive value (A : Type) : Type :=
| Scalar (a : A)
| ListOf (l : list A).

Arguments Scalar {A} a.
Arguments ListOf {A} l.

(** What [dict_to_csv] leaves behind: the caller's dict, the files, and
    whether the call returned or raised. *)
Record written (A : Type) : Type := {
  dict_after : Dict.t (value A);
  files_after : filesystem;
  outcome : result unit
}.

Arguments dict_after {A} w.
Arguments files_after {A} w.
Arguments outcome {A} w.

Module Csv.

Local Open Scope string_scope.

Section Writer.

(** The items of the dict and Python's [str] on them: the text of an
    item, or the exception its [__str__] raises. *)
Context {A : Type}.
Variable str : A -> result string.

(** How [open(path, "w+")] ends on the machine of the run: it returns, or
    it raises ([FileNotFoundError] for an empty path and for a path in a
    directory that does not exist).  The scripts create no directory and
    remove nothing, so a path that can be opened once can be opened again. *)
Variable opens : string -> result unit.

(** [lines 135-137]: [if not isinstance(data_dict[header], list):
    data_dict[header] = [data_dict[header]]]. *)
Definition listify (data_dict : Dict.t (value A)) (header : string)
  : result (Dict.t (value A)) :=
  v <- Dict.item data_dict header ;;
  match v with
  | ListOf _ => Ok data_dict
  | Scalar a => Ok (Dict.set data_dict header (ListOf [a]))
  end.

(** [len(data_dict[header])]; every value is a list by the time it runs. *)
Definition column_length (data_dict : Dict.t (value A)) (header : string) : result nat :=
  v <- Dict.item data_dict header ;;
  match v with
  | ListOf l => Ok (length l)
  | Scalar _ => Err TypeError
  end.

(** [max(sizes)], a [ValueError] on an empty list. *)
Definition py_max (sizes : list nat) : result nat :=
  match sizes with
  | [] => Err ValueError
  | n :: rest => Ok (fold_left Nat.max rest n)
  end.

(** [str(data_dict[header][i]) if i < len(data_dict[header]) else ""]. *)
Definition field (data_dict : Dict.t (value A)) (i : nat) (header : string) : result string :=
  v <- Dict.item data_dict header ;;
  match v with
  | ListOf l =>
      match nth_error l i with
      | Some a => str a
      | None => Ok ""
      end
  | Scalar _ => Err TypeError
  end.

(** One pass of the writing loop: the text of row [i] with its newline. *)
Definition row_text (data_dict : Dict.t (value A)) (headers : list string) (i : nat)
  : result string :=
  row_list <- mapM (field data_dict i) headers ;;
  Ok (PyStr.join "," row_list ++ String PyStr.newline "").

(** [fh.write(text)] on the file opened at [path]. *)
Definition append_text (files : filesystem) (path text : string) : filesystem :=
  match Dict.get files path with
  | Some old => Dict.set files path (old ++ text)
  | None => Dict.set files path text
  end.

(** The rows are written one by one; an exception leaves the rows written
    before it in the file. *)
Fixpoint write_rows (data_dict : Dict.t (value A)) (headers : list string)
  (path : string) (indices : list nat) (files : filesystem) : filesystem * result unit :=
  match indices with
  | [] => (files, Ok tt)
  | i :: rest =>
      match row_text data_dict headers i with
      | Ok text => write_rows data_dict headers path rest (append_text files path text)
      | Err e => (files, Err e)
      end
  end.

(** [dict_to_csv(data_dict, csv_path)] (cp_sampler.py lines 124-149,
    sum_phi.py lines 57-82), run on the files [files]. *)
Definition dict_to_csv (data_dict : Dict.t (value A)) (csv_path : string)
  (files : filesystem) : written A :=
  let headers := Dict.keys data_dict in
  match foldM listify headers data_dict with
  | Err e => {| dict_after := data_dict; files_after := files; outcome := Err e |}
  | Ok data_dict =>
      match opens csv_path with
      | Err e => {| dict_after := data_dict; files_after := files; outcome := Err e |}
      | Ok _ =>
          (* open(csv_path, "w+") has emptied the file, then the header is written *)
          let files := Dict.set files csv_path (PyStr.join "," headers ++ String PyStr.newline "") in
          match sizes <- mapM (column_length data_dict) headers ;; py_max sizes with
          | Err e => {| dict_after := data_dict; files_after := files; outcome := Err e |}
          | Ok max_list_size =>
              let '(files, r) := write_rows data_dict headers csv_path (seq 0 max_list_size) files in
              {| dict_after := data_dict; files_after := files; outcome := r |}
          end
      end
  end.

End Writer.

(** A cell read back from a file: a float, or the raw text. *)
Inductive cell : Type :=
| CFloat (x : PyFloat.float)
| CStr (s : string).

(** [try: value = float(value) / except: pass]. *)
Definition coerce (field : string) : cell :=
  match PyFloat.of_string field with
  | Some x => CFloat x
  | None => CStr field
  end.

(** [csv_dict[header].append(value)]. *)
Definition append_cell (csv_dict : Dict.t (value cell)) (header : string) (c : cell)
  : result (Dict.t (value cell)) :=
  v <- Dict.item csv_dict header ;;
  match v with
  | ListOf l => Ok (Dict.set csv_dict header (ListOf (l ++ [c])))
  | Scalar _ => Err TypeError
  end.

(** The body of the inner loop of lines 37-45 for column [i]. *)
Definition read_field (headers csv_line_list : list string)
  (csv_dict : Dict.t (value cell)) (i : nat) : result (Dict.t (value cell)) :=
  value <- of_option IndexError (nth_error csv_line_list i) ;;
  if String.eqb value "" then Ok csv_dict
  else
    header <- of_option IndexError (nth_error headers i) ;;
    append_cell csv_dict header (coerce value).

(** The body of the outer loop of lines 35-45 for one line. *)
Definition read_line (delimeter : ascii) (headers : list string)
  (csv_dict : Dict.t (value cell)) (csv_line : string) : result (Dict.t (value cell)) :=
  let csv_line_list := PyStr.split delimeter (PyStr.remove PyStr.newline csv_line) in
  foldM (read_field headers csv_line_list) (seq 0 (length headers)) csv_dict.

(** Lines 48-52: a list of one item is replaced by the item.  A header
    that occurs twice is visited twice, and finds the item the second
    time: [len] of a float raises, [len] of a one-character text is 1 and
    its [[0]] is the text itself. *)
Definition unwrap (csv_dict : Dict.t (value cell)) (header : string)
  : result (Dict.t (value cell)) :=
  v <- Dict.item csv_dict header ;;
  match v with
  | ListOf [c] => Ok (Dict.set csv_dict header (Scalar c))
  | ListOf _ => Ok csv_dict
  | Scalar (CFloat _) => Err TypeError
  | Scalar (CStr s) =>
      if (String.length s =? 1)%nat
      then Ok (Dict.set csv_dict header (Scalar (CStr (substring 0 1 s))))
      else Ok csv_dict
  end.

(** Lines 27-55 of [csv_to_dict], on the lines read from the file. *)
Definition convert (csv_lines : list string) (delimeter : ascii)
  : result (Dict.t (value cell)) :=
  match csv_lines with
  | [] => Err IndexError
  | first :: csv_lines =>
      let headers := PyStr.split delimeter (PyStr.remove PyStr.newline first) in
      let csv_dict := fold_left (fun d header => Dict.set d header (ListOf [])) headers [] in
      csv_dict <- foldM (read_line delimeter headers) csv_lines csv_dict ;;
      foldM unwrap headers csv_dict
  end.

(** [csv_to_dict(csv_path, delimeter)] (sum_phi.py lines 11-55), for a
    one-character [delimeter], on the files [files]. *)
Definition csv_to_dict (files : filesystem) (csv_path : string) (delimeter : ascii)
  : result (Dict.t (value cell)) :=
  text <- of_option FileNotFoundError (Dict.get files csv_path) ;;
  convert (PyStr.readlines text) delimeter.

End Csv.

(** ** The written table, as the specification words it

    One header line of the comma-joined keys, then one line per index up
    to the longest column, a short column giving an empty field. *)

Module CsvSpec.

Local Open Scope string_scope.

Section Table.

Context {A : Type}.
Variable str : A -> string.

(** The column of a dict value: a bare item counts as a column of one. *)
Definition items (v : value A) : list A :=
  match v with
  | Scalar a => [a]
  | ListOf l => l
  end.

(** The length of the longest column. *)
Definition longest (d : Dict.t (value A)) : nat :=
  list_max (map (fun kv => length (items (snd kv))) d).

(** The field of one column in row [i]. *)
Definition cell_text (i : nat) (v : value A) : string :=
  match nth_error (items v) i with
  | Some a => str a
  | None => ""
  end.

Definition header_line (d : Dict.t (value A)) : string :=
  PyStr.join "," (Dict.keys d) ++ String PyStr.newline "".

Definition data_line (d : Dict.t (value A)) (i : nat) : string :=
  PyStr.join "," (map (fun kv => cell_text i (snd kv)) d) ++ String PyStr.newline "".

Definition table_text (d : Dict.t (value A)) : string :=
  header_line d ++ PyStr.concat_all (map (data_line d) (seq 0 (longest d))).

End Table.

(** *** The dict read back, as the specification words it

    Column [j] collects, line after line, the non-empty [j]-th fields,
    each coerced to a float when it reads as one; a column that collected
    exactly one cell is unwrapped to that cell. *)

Section Read.

Variable delimeter : ascii.

Definition fields_of (line : string) : list string :=
  PyStr.split delimeter (PyStr.remove PyStr.newline line).

Definition line_cells (fields : list string) (j : nat) : list Csv.cell :=
  match nth_error fields j with
  | Some f => if String.eqb f "" then [] else [Csv.coerce f]
  | None => []
  end.

Definition collected (lines : list string) (j : nat) : list Csv.cell :=
  flat_map (fun line => line_cells (fields_of line) j) lines.

Definition packed (cells : list Csv.cell) : value Csv.cell :=
  match cells with
  | [c] => Scalar c
  | _ => ListOf cells
  end.

Definition read_table (headers lines : list string) : Dict.t (value Csv.cell) :=
  map (fun jh => (snd jh, packed (collected lines (fst jh))))
      (combine (seq 0 (length headers)) headers).

End Read.

End CsvSpec.

(** The text of [str(v)] for a number. *)
Definition number_str (v : number) : string :=
  match v with
  | PyInt z => PyStr.of_int z
  | PyFloat x => PyFloat.repr x
  end.

(** [str(v)] for a number: the call returns. *)
Definition str_number (v : number) : result string := Ok (number_str v).

(** [str(z)] for an [int]. *)
Definition str_int (z : Z) : result string := Ok (PyStr.of_int z).

(** ** Machines

    Whether [open(path, "w+")] returns is a fact of the machine a script
    runs on.  [anywhere] is a machine on which every path can be opened;
    [fresh_checkout] is the repository as it is shipped, which holds no
    directory [results]: a path into it cannot be opened, nor can the
    empty path. *)
Definition anywhere : string -> result unit := fun _ => Ok tt.

Definition fresh_checkout : string -> result unit :=
  fun path =>
    if String.eqb path "" || String.prefix "results/" path
    then Err FileNotFoundError
    else Ok tt.

(** [l[i]] for an [int] index, negative ones counting from the end. *)
Definition py_index {A : Type} (l : list A) (i : Z) : result A :=
  let len := Z.of_nat (length l) in
  if (0 <=? i) && (i <? len) then of_option IndexError (nth_error l (Z.to_nat i))
  else if (- len <=? i) && (i <? 0) then of_option IndexError (nth_error l (Z.to_nat (len + i)))
  else Err IndexError.

(** ** The model object and one simulation run (cp_sampler.py lines 19-108) *)

(** The three Euler-Bunge angles of one grain. *)
Definition euler : Type := (PyFloat.float * PyFloat.float * PyFloat.float)%type.

(** What the driver returns, as far as the script reads it: the first
    component of every strain and stress sample, and for every state of
    the history the orientation of every grain. *)
Record run_output : Type := {
  strain : list PyFloat.float;
  stress : list PyFloat.float;
  history : list (list euler)
}.

(** The five fields that [define_params] sets. *)
Record params : Type := {
  tau_sat : number;
  b : number;
  tau_0 : number;
  gamma_0 : number;
  n : number
}.

Module Model.

Local Open Scope string_scope.

(** The names of the arguments of [define_params]. *)
Definition param_names : list string := ["tau_sat"; "b"; "tau_0"; "gamma_0"; "n"].

(** [model.define_params], called with the entries of [param_dict] as
    keyword arguments (lines 65-80 and 254): a [TypeError] for a keyword
    that is not an argument and for a missing argument. *)
Definition define_params (param_dict : Dict.t number) : result params :=
  if forallb (fun k => existsb (String.eqb k) param_names) (Dict.keys param_dict)
  then
    tau_sat <- of_option TypeError (Dict.get param_dict "tau_sat") ;;
    b <- of_option TypeError (Dict.get param_dict "b") ;;
    tau_0 <- of_option TypeError (Dict.get param_dict "tau_0") ;;
    gamma_0 <- of_option TypeError (Dict.get param_dict "gamma_0") ;;
    n <- of_option TypeError (Dict.get param_dict "n") ;;
    Ok {| tau_sat := tau_sat; b := b; tau_0 := tau_0; gamma_0 := gamma_0; n := n |}
  else Err TypeError.

(** [run_cp] (lines 82-101): the value left in [self.model_output] when
    the body of the [try] ends as [physics] says; any exception is caught
    and leaves [None]. *)
Definition run_cp (physics : result run_output) : option run_output :=
  match physics with
  | Ok results => Some results
  | Err _ => None
  end.

End Model.

(** ** [get_grain_dict] (cp_sampler.py lines 151-188) *)

Module Grains.

Local Open Scope string_scope.

(** [d[key].append(x)]. *)
Definition append_to (d : Dict.t (list PyFloat.float)) (key : string) (x : PyFloat.float)
  : result (Dict.t (list PyFloat.float)) :=
  l <- Dict.item d key ;;
  Ok (Dict.set d key (l ++ [x])%list).

(** [l[0]] and [l[-1]]. *)
Definition first {A : Type} (l : list A) : result A := of_option IndexError (hd_error l).
Definition final {A : Type} (l : list A) : result A := of_option IndexError (hd_error (rev l)).

(** Lines 173-177: the three angle lists of grain [i] over the history. *)
Definition trajectory (history : list (list euler)) (i : nat)
  : result (list PyFloat.float * list PyFloat.float * list PyFloat.float) :=
  eulers <- mapM (fun state => of_option IndexError (nth_error state i)) history ;;
  Ok (map (fun e => fst (fst e)) eulers, map (fun e => snd (fst e)) eulers, map snd eulers).

(** The body of the loop of lines 169-185 for grain [i]. *)
Definition add_grain (history : list (list euler)) (grain_dict : Dict.t (list PyFloat.float))
  (i : nat) : result (Dict.t (list PyFloat.float)) :=
  '(phi_1, Phi, phi_2) <- trajectory history i ;;
  x <- first phi_1 ;; grain_dict <- append_to grain_dict "phi_1_start" x ;;
  x <- final phi_1 ;; grain_dict <- append_to grain_dict "phi_1_end" x ;;
  x <- first Phi ;; grain_dict <- append_to grain_dict "Phi_start" x ;;
  x <- final Phi ;; grain_dict <- append_to grain_dict "Phi_end" x ;;
  x <- first phi_2 ;; grain_dict <- append_to grain_dict "phi_2_start" x ;;
  x <- final phi_2 ;; append_to grain_dict "phi_2_end" x.

Definition empty_grain_dict : Dict.t (list PyFloat.float) :=
  [("phi_1_start", []); ("phi_1_end", []); ("Phi_start", []);
   ("Phi_end", []); ("phi_2_start", []); ("phi_2_end", [])].

Definition get_grain_dict (history : list (list euler)) (indexes : list nat)
  : result (Dict.t (list PyFloat.float)) :=
  foldM (add_grain history) indexes empty_grain_dict.

End Grains.

(** ** The sweep (cp_sampler.py lines 220-283) *)

(** [itertools.product] of the domains of [param_list]: the last domain
    varies fastest. *)
Fixpoint product {A : Type} (param_list : list (list A)) : list (list A) :=
  match param_list with
  | [] => [[]]
  | domain :: rest => flat_map (fun x => map (cons x) (product rest)) domain
  end.

(** What the controlling thread finds after [thread.join(timeout=MAX_TIME)]:
    the worker still alive, or else whatever [model.get_results()] returns. *)
Inductive seen : Type :=
| Alive
| Dead (model_output : option run_output).

Module Sweep.

Local Open Scope string_scope.

Section Script.

(** The two command line arguments and the weights of the grain file. *)
Variable index_1 index_2 : Z.
Variable weights : list PyFloat.float.

(** How [open(path, "w+")] ends on the machine of the run; the script
    creates no directory, [results/] least of all. *)
Variable opens : string -> result unit.

(** Line 242: the indexes of the grains [get_top] returns. *)
Definition top_indexes : list nat :=
  snd (GetTop.get_top PyFloat.ltb PyFloat.gtb weights 10).

(** Lines 249 and 251. *)
Definition index_str (i : nat) : string := PyStr.zfill 3 (PyStr.of_int (Z.of_nat i + 1)).

Definition results_path (i : nat) : string :=
  "results/" ++ PyStr.of_int index_1 ++ "_" ++ PyStr.of_int index_2 ++ "_" ++ index_str i.

(** Line 250: [dict(zip(param_names, combinations[i]))]. *)
Definition make_param_dict (param_names : list string) (combination : list number)
  : Dict.t number :=
  Dict.of_pairs (combine param_names combination).

(** A dict of numbers as [dict_to_csv] takes it: no value is a list. *)
Definition scalars (d : Dict.t number) : list (string * value number) :=
  map (fun kv => (fst kv, Scalar (snd kv))) d.

Definition lists (d : Dict.t (list PyFloat.float)) : list (string * value number) :=
  map (fun kv => (fst kv, ListOf (map PyFloat (snd kv)))) d.

(** Lines 270-271: [[round_sf(s[0], 5) for s in results[...]]]. *)
Definition rounded (samples : list PyFloat.float) : result (list PyFloat.float) :=
  mapM (fun s => round_sf (PyFloat s) 5) samples.

(** Lines 267-282: the dict of a run that returned. *)
Definition combined_dict (param_dict : Dict.t number) (results : run_output)
  : result (Dict.t (value number)) :=
  strain_list <- rounded (strain results) ;;
  stress_list <- rounded (stress results) ;;
  let data_dict := [("strain", strain_list); ("stress", stress_list)] in
  grain_dict <- Grains.get_grain_dict (history results) top_indexes ;;
  Ok (Dict.update (Dict.update (Dict.update [] (scalars param_dict)) (lists data_dict))
        (lists grain_dict)).

(** The file a trial is recorded in. *)
Definition path_seen (i : nat) (s : seen) : string :=
  match s with
  | Alive => results_path i ++ "_timeout.csv"
  | Dead None => results_path i ++ "_failed.csv"
  | Dead (Some _) => results_path i ++ ".csv"
  end.

(** Lines 260-283: what is written once the join has returned. *)
Definition record_trial (i : nat) (param_dict : Dict.t number) (s : seen)
  (files : filesystem) : filesystem * result unit :=
  match s with
  | Alive | Dead None =>
      let w := Csv.dict_to_csv str_number opens (scalars param_dict) (path_seen i s) files in
      (files_after w, outcome w)
  | Dead (Some results) =>
      match combined_dict param_dict results with
      | Err e => (files, Err e)
      | Ok combined =>
          let w := Csv.dict_to_csv str_number opens combined (path_seen i s) files in
          (files_after w, outcome w)
      end
  end.

(** The loop of lines 246-283 from iteration [i] on, where [observe i] is
    what iteration [i] finds after its join; an exception ends the loop. *)
Fixpoint loop (param_names : list string) (combinations : list (list number))
  (observe : nat -> seen) (i : nat) (files : filesystem) : filesystem * result unit :=
  match combinations with
  | [] => (files, Ok tt)
  | combination :: rest =>
      let param_dict := make_param_dict param_names combination in
      match Model.define_params param_dict with
      | Err e => (files, Err e)
      | Ok _ =>
          match record_trial i param_dict (observe i) files with
          | (files, Ok _) => loop param_names rest observe (S i) files
          | (files, Err e) => (files, Err e)
          end
      end
  end.

(** Lines 236-283 for the parameter domains [all_params_dict]. *)
Definition sweep (all_params_dict : Dict.t (list number)) (observe : nat -> seen)
  (files : filesystem) : filesystem * result unit :=
  let combinations := product (Dict.values all_params_dict) in
  loop (Dict.keys all_params_dict) combinations observe 0 files.

(** The dict that iteration [i] hands to [dict_to_csv]: the parameters
    alone for a trial that timed out or failed, the combined dict for one
    that returned. *)
Definition trial_dict (param_names : list string) (combination : list number) (s : seen)
  : result (Dict.t (value number)) :=
  let param_dict := make_param_dict param_names combination in
  match s with
  | Alive | Dead None => Ok (scalars param_dict)
  | Dead (Some results) => combined_dict param_dict results
  end.

(** A run output from which [get_grain_dict] can take the first and last
    orientation of every grain: the history has a state, and every state
    has one orientation per grain of the file. *)
Definition harvestable (results : run_output) : Prop :=
  history results <> [] /\
  Forall (fun state => length state = length weights) (history results).

End Script.

(** Lines 13 and 228-234: the domains of the script. *)
Definition STRAIN_RATE : PyFloat.float := PyFloat.lit "1.0e-4".

Definition all_params_dict (index_1 index_2 : Z) : result (Dict.t (list number)) :=
  tau_sat <- py_index (map PyInt [50; 100; 200; 400; 800; 1600]) index_2 ;;
  gamma_0 <- round_sf (PyFloat (SFdiv PyFloat.prec PyFloat.emax STRAIN_RATE (PyFloat.lit "3"))) 4 ;;
  n <- py_index (map PyInt [2; 4; 8; 16]) index_1 ;;
  Ok [("tau_sat", [tau_sat]);
      ("b", map (fun s => PyFloat (PyFloat.lit s))
              ["0.1"; "0.2"; "0.4"; "0.8"; "1.6"; "3.2"; "6.4"; "12.8"; "25.6"; "51.2"]);
      ("tau_0", map PyInt [50; 100; 200; 400; 800]);
      ("gamma_0", [PyFloat gamma_0]);
      ("n", [n])].

End Sweep.

(** ** The sweep with its worker threads

    The controlling thread and the workers share the model object.  The
    controlling thread takes two kinds of steps: it launches a trial
    (lines 249-256: [define_params], then the thread is started and the
    join begins), and it wakes from the join and records the trial (lines
    257-283), either because the worker has returned or because
    [MAX_TIME] has passed.  A worker takes one step: [run_cp] returns and
    leaves its result in [model_output].  A schedule is any interleaving
    of these steps; nothing stops a worker whose join timed out. *)

Module Threads.

Section Run.

Variable index_1 index_2 : Z.
Variable weights : list PyFloat.float.
Variable opens : string -> result unit.
Variable param_names : list string.
Variable combinations : list (list number).

(** How the body of the [try] of [run_cp] ends in the worker of trial [k],
    whichever values of the fields it read. *)
Variable physics : nat -> result run_output.

Record state : Type := {
  (** the index [i] of the loop *)
  next : nat;
  (** whether the controlling thread is inside [thread.join] *)
  waiting : bool;
  (** the parameter fields of the model object, unset before the first trial *)
  fields : option params;
  (** [model.model_output] *)
  model_output : option run_output;
  (** the workers started whose [run_cp] has not returned *)
  in_flight : list nat;
  files : filesystem;
  (** history: what each recorded trial found after its join *)
  observed : list seen;
  (** history: per [define_params] call, its trial and the workers then in flight *)
  overlapped : list (nat * list nat)
}.

Definition initial : state :=
  {| next := 0; waiting := false; fields := None; model_output := None;
     in_flight := []; files := []; observed := []; overlapped := [] |}.

Inductive event : Type :=
| Main
| Finish (k : nat).

Definition running (k : nat) (st : state) : bool := existsb (Nat.eqb k) (in_flight st).

(** Lines 249-256: the next trial is prepared and its worker started. *)
Definition launch (st : state) : result state :=
  match nth_error combinations (next st) with
  | None => Ok st
  | Some combination =>
      p <- Model.define_params (Sweep.make_param_dict param_names combination) ;;
      Ok {| next := next st; waiting := true; fields := Some p;
            model_output := model_output st;
            in_flight := next st :: in_flight st;
            files := files st; observed := observed st;
            overlapped := (next st, in_flight st) :: overlapped st |}
  end.

(** Lines 260-263: [thread.is_alive()], and [model.get_results()] when
    the worker is not alive.  A worker that returns between the two calls
    leaves what it would leave by returning just before the first. *)
Definition look (st : state) : seen :=
  if running (next st) st then Alive else Dead (model_output st).

(** Lines 257-283: the join returns and the trial is recorded. *)
Definition wake (st : state) : result state :=
  match nth_error combinations (next st) with
  | None => Ok st
  | Some combination =>
      let param_dict := Sweep.make_param_dict param_names combination in
      match Sweep.record_trial index_1 index_2 weights opens (next st) param_dict (look st) (files st) with
      | (files', Ok _) =>
          Ok {| next := S (next st); waiting := false; fields := fields st;
                model_output := model_output st; in_flight := in_flight st;
                files := files'; observed := observed st ++ [look st];
                overlapped := overlapped st |}
      | (_, Err e) => Err e
      end
  end.

(** [run_cp] returns in the worker of trial [k]. *)
Definition finish (k : nat) (st : state) : state :=
  if running k st then
    {| next := next st; waiting := waiting st; fields := fields st;
       model_output := Model.run_cp (physics k);
       in_flight := filter (fun j => negb (Nat.eqb k j)) (in_flight st);
       files := files st; observed := observed st; overlapped := overlapped st |}
  else st.

Definition step (st : state) (e : event) : result state :=
  match e with
  | Main => if waiting st then wake st else launch st
  | Finish k => Ok (finish k st)
  end.

Definition run (schedule : list event) (st : state) : result state :=
  foldM step schedule st.

End Run.

End Threads.

(** ** The harvester (sum_phi.py lines 98-147)

    The script reads every CSV file of a results directory, skips the
    files of trials that failed or timed out, and collects from the
    others the parameters and ten points on each of three orientation
    trajectories. *)

Module Harvest.

Local Open Scope string_scope.

(** What the script can raise: a built-in exception of the helpers, the
    [AttributeError] of a method that a value does not have, or an
    exception of the numerical library. *)
Inductive raised : Type :=
| Python (e : exn)
| AttributeError
| Library (name : string).

Inductive outcome (A : Type) : Type :=
| Done (a : A)
| Raise (r : raised).

Arguments Done {A} a.
Arguments Raise {A} r.

Definition and_then {A B : Type} (o : outcome A) (k : A -> outcome B) : outcome B :=
  match o with
  | Done a => k a
  | Raise r => Raise r
  end.

Notation "x <~ o ;; k" := (and_then o (fun x => k))
  (at level 61, o at next level, right associativity).

(** A call of one of the helpers. *)
Definition call {A : Type} (r : result A) : outcome A :=
  match r with
  | Ok a => Done a
  | Err e => Raise (Python e)
  end.

Fixpoint for_each {A B : Type} (f : A -> outcome B) (l : list A) : outcome (list B) :=
  match l with
  | [] => Done []
  | a :: rest => b <~ f a ;; bs <~ for_each f rest ;; Done (b :: bs)
  end.

Fixpoint loop {A S : Type} (body : S -> A -> outcome S) (l : list A) (s : S) : outcome S :=
  match l with
  | [] => Done s
  | a :: rest => s' <~ body s a ;; loop body rest s'
  end.

(** Lines 4-9. *)
Definition X_HEADER : string := "strain".
Definition PHI_HEADERS : list string := ["phi_1"; "Phi"; "phi_2"].
Definition GRAIN_INDEX : nat := 0.
Definition NUM_POINTS : nat := 10.
Definition PARAM_NAME_LIST : list string := ["tau_sat"; "b"; "tau_0"; "gamma_0"; "n"].

(** Line 99: [[f"{label}_{i+1}" for i in range(NUM_POINTS)]]. *)
Definition point_key (label : string) (i : nat) : string :=
  label ++ "_" ++ PyStr.of_int (Z.of_nat i + 1).

Definition get_names (label : string) : list string :=
  map (point_key label) (seq 0 NUM_POINTS).

(** Lines 100-103. *)
Definition success_keys : list string :=
  PARAM_NAME_LIST ++ get_names "phi_1" ++ get_names "Phi" ++ get_names "phi_2".

(** A column of the success dict: what was appended to it, a value read
    from a file or a rounded float. *)
Definition column : Type := list (value Csv.cell).

Definition empty_success_dict : Dict.t column :=
  fold_left (fun d key => Dict.set d key []) success_keys [].

(** [keyword in csv_file]. *)
Fixpoint contains (keyword s : string) : bool :=
  String.prefix keyword s ||
  match s with
  | EmptyString => false
  | String _ rest => contains keyword rest
  end.

(** [file.endswith(suffix)]. *)
Definition ends_with (suffix s : string) : bool :=
  (String.length suffix <=? String.length s)%nat &&
  String.eqb (substring (String.length s - String.length suffix) (String.length suffix) s) suffix.

(** Lines 126-130. *)
Definition failed (csv_file : string) : bool :=
  fold_left (fun failed keyword => if contains keyword csv_file then true else failed)
    ["failed"; "timeout"] false.

(** [v[i]] on a value read from a file: an item of a list, a character
    of a text; a float has no items. *)
Definition subscript (v : value Csv.cell) (i : nat) : outcome Csv.cell :=
  match v with
  | ListOf l => call (of_option IndexError (nth_error l i))
  | Scalar (Csv.CStr s) =>
      match String.get i s with
      | Some c => Done (Csv.CStr (String c EmptyString))
      | None => Raise (Python IndexError)
      end
  | Scalar (Csv.CFloat _) => Raise (Python TypeError)
  end.

(** [[float(coef) for coef in poly_str.split(" ")]]: only a text can be
    split. *)
Definition coefficients (poly_str : Csv.cell) : outcome (list PyFloat.float) :=
  match poly_str with
  | Csv.CStr s =>
      for_each (fun coef => call (of_option ValueError (PyFloat.of_string coef)))
        (PyStr.split " "%char s)
  | Csv.CFloat _ => Raise AttributeError
  end.

(** [success_dict[key].append(x)], where [x] is computed after
    [success_dict[key]] has been looked up. *)
Definition append_to (success_dict : Dict.t column) (key : string)
  (x : outcome (value Csv.cell)) : outcome (Dict.t column) :=
  l <~ call (Dict.item success_dict key) ;;
  v <~ x ;;
  Done (Dict.set success_dict key (l ++ [v])%list).

Section Script.

(** The files of the results directory, and [np.polyval] on a list of
    coefficients and the strain column: an array of one dimension (a
    list) or of none (a bare float). *)
Variable files : filesystem.
Variable results_dir : string.
Variable polyval : list PyFloat.float -> value Csv.cell -> outcome (value PyFloat.float).

(** [y_list[j]]. *)
Definition point (y_list : value PyFloat.float) (j : nat) : outcome PyFloat.float :=
  match y_list with
  | ListOf ys => call (of_option IndexError (nth_error ys j))
  | Scalar _ => Raise (Python IndexError)
  end.

(** Lines 145-147: one point of a trajectory. *)
Definition add_point (label : string) (y_list : value PyFloat.float)
  (success_dict : Dict.t column) (j : nat) : outcome (Dict.t column) :=
  append_to success_dict (point_key label j)
    (y <~ point y_list j ;;
     rounded <~ call (round_sf (PyFloat y) 5) ;;
     Done (Scalar (Csv.CFloat rounded))).

(** Lines 142-147: one trajectory, with its label and its polynomial. *)
Definition add_trajectory (data_dict : Dict.t (value Csv.cell))
  (success_dict : Dict.t column) (labelled : string * list PyFloat.float)
  : outcome (Dict.t column) :=
  x_list <~ call (Dict.item data_dict X_HEADER) ;;
  y_list <~ polyval (snd labelled) x_list ;;
  loop (add_point (fst labelled) y_list) (seq 0 NUM_POINTS) success_dict.

(** Lines 114-147: the body of the loop for one file of the listing. *)
Definition harvest_file (success_dict : Dict.t column) (csv_file : string)
  : outcome (Dict.t column) :=
  data_dict <~ call (Csv.csv_to_dict files (results_dir ++ "/" ++ csv_file) PyStr.comma) ;;
  values <~ for_each (fun param_name => call (Dict.item data_dict param_name))
              PARAM_NAME_LIST ;;
  let param_dict := Dict.of_pairs (combine PARAM_NAME_LIST values) in
  if failed csv_file then Done success_dict
  else
    success_dict <~ loop (fun success_dict key =>
                            append_to success_dict key (call (Dict.item param_dict key)))
                      (Dict.keys param_dict) success_dict ;;
    poly_str_list <~ for_each (fun header => v <~ call (Dict.item data_dict header) ;;
                                             subscript v GRAIN_INDEX) PHI_HEADERS ;;
    poly_list <~ for_each coefficients poly_str_list ;;
    loop (add_trajectory data_dict) (combine ["phi_1"; "Phi"; "phi_2"] poly_list) success_dict.

(** Lines 107-147 for the names [os.listdir] returns. *)
Definition harvest (listing : list string) : outcome (Dict.t column) :=
  let csv_file_list := filter (ends_with ".csv") listing in
  loop harvest_file csv_file_list empty_success_dict.

End Script.

End Harvest.
(** * Part II: properties *)

(** ** Facts about the list primitives *)

Module PyListFacts.

Lemma insert_split {A : Type} (x : A) (l1 l2 : list A) :
  PyList.insert (length l1) x (l1 ++ l2) = l1 ++ x :: l2.
Proof.
  unfold PyList.insert.
  rewrite firstn_app, skipn_app, Nat.sub_diag, firstn_all, skipn_all.
  cbn. rewrite app_nil_r. reflexivity.
Qed.

Lemma Forall2_insert {A B : Type} (P : A -> B -> Prop) (j : nat) (x : A) (y : B) :
  forall (l : list A) (k : list B),
    Forall2 P l k -> P x y ->
    Forall2 P (PyList.insert j x l) (PyList.insert j y k).
Proof.
  unfold PyList.insert.
  induction j as [|j IH]; intros l k Hlk Hxy.
  - cbn. now constructor.
  - destruct Hlk as [|a b l k Hab Hlk]; cbn.
    + now constructor.
    + constructor; [exact Hab|]. now apply IH.
Qed.

Lemma Forall2_pop_last {A B : Type} (P : A -> B -> Prop) :
  forall (l : list A) (k : list B),
    Forall2 P l k -> Forall2 P (PyList.pop_last l) (PyList.pop_last k).
Proof.
  unfold PyList.pop_last.
  induction 1 as [|a b l k Hab Hlk IH]; cbn; [constructor|].
  destruct Hlk; [constructor|].
  constructor; [exact Hab | exact IH].
Qed.

Lemma Sorted_pop_last {A : Type} (R : A -> A -> Prop) (l : list A) :
  Sorted R l -> Sorted R (PyList.pop_last l).
Proof.
  unfold PyList.pop_last.
  induction 1 as [|a l Hl IH Hhd]; cbn; [constructor|].
  destruct l as [|b l]; [constructor|].
  constructor; [exact IH|].
  destruct l; [constructor|].
  inversion Hhd; subst. now constructor.
Qed.

(** Inserting [x] in front of the first element it dominates keeps a list
    sorted, as long as every earlier element is already in relation with it. *)
Lemma Sorted_insert_middle {A : Type} (R : A -> A -> Prop) (x y : A) :
  forall l1 l2 : list A,
    Sorted R (l1 ++ y :: l2) ->
    Forall (fun a => R a x) l1 ->
    R x y ->
    Sorted R (l1 ++ x :: y :: l2).
Proof.
  induction l1 as [|a l1 IH]; intros l2 Hs Hall Hxy; cbn in *.
  - constructor; [exact Hs | now constructor].
  - inversion Hs as [|? ? Hs' Hhd]; subst.
    inversion Hall as [|? ? Hax Hall']; subst.
    constructor; [now apply IH|].
    destruct l1 as [|b l1]; cbn in *.
    + now constructor.
    + inversion Hhd; subst. now constructor.
Qed.

End PyListFacts.

(** ** [get_top]: what the loop maintains *)

Module GetTopFacts.

Import GetTop.

Section Generic.

Context {V : Type}.
Variable lt : V -> V -> bool.
Variable gt : V -> V -> bool.

(** [>] is never true both ways (true of Python's numbers, NaN included). *)
Hypothesis gt_asym : forall a b, gt a b = true -> gt b a = false.

(** No element is followed by a greater one. *)
Definition descending : list V -> Prop := Sorted (fun a b => gt b a = false).

(** Every kept value sits at its kept index in the input. *)
Definition indexed (value_list : list V) (t : tops) : Prop :=
  Forall2 (fun v k => nth_error value_list k = Some v) (fst t) (snd t).

Lemma first_smaller_split (value : V) :
  forall (l : list V) (j : nat),
    first_smaller gt value l = Some j ->
    exists l1 x l2,
      l = l1 ++ x :: l2 /\ length l1 = j /\ gt value x = true /\
      Forall (fun a => gt value a = false) l1.
Proof.
  induction l as [|a l IH]; intros j Hj; cbn in Hj; [discriminate|].
  destruct (gt value a) eqn:Hga.
  - injection Hj as <-. exists [], a, l. repeat split; auto.
  - destruct (first_smaller gt value l) as [j'|] eqn:Hfs; [|discriminate].
    injection Hj as <-.
    destruct (IH j' eq_refl) as (l1 & x & l2 & -> & <- & Hx & Hall).
    exists (a :: l1), x, l2. repeat split; auto.
Qed.

Lemma insert_sorted_keeps (value_list : list V) (value : V) (i : nat) (t : tops) :
  nth_error value_list i = Some value ->
  indexed value_list t -> descending (fst t) ->
  indexed value_list (insert_sorted gt value i t) /\
  descending (fst (insert_sorted gt value i t)).
Proof.
  intros Hi Hidx Hdesc. unfold insert_sorted.
  destruct (first_smaller gt value (fst t)) as [j|] eqn:Hfs; [|now split].
  split.
  - now apply PyListFacts.Forall2_insert.
  - destruct (first_smaller_split _ _ _ Hfs) as (l1 & x & l2 & Hl & <- & Hx & Hall).
    cbn [fst]. rewrite Hl, PyListFacts.insert_split.
    apply PyListFacts.Sorted_insert_middle.
    + unfold descending in Hdesc. now rewrite Hl in Hdesc.
    + exact Hall.
    + now apply gt_asym.
Qed.

Lemma trim_keeps (value_list : list V) (num_values : Z) (t : tops) :
  indexed value_list t -> descending (fst t) ->
  indexed value_list (trim num_values t) /\ descending (fst (trim num_values t)).
Proof.
  intros Hidx Hdesc. unfold trim.
  destruct (Z.of_nat (length (fst t)) >? num_values); [|now split].
  split.
  - now apply PyListFacts.Forall2_pop_last.
  - now apply PyListFacts.Sorted_pop_last.
Qed.

Lemma step_keeps (value_list : list V) (num_values : Z) (t : tops) (i : nat) (value : V) :
  nth_error value_list i = Some value ->
  indexed value_list t -> descending (fst t) ->
  indexed value_list (step lt gt num_values t i value) /\
  descending (fst (step lt gt num_values t i value)).
Proof.
  intros Hi Hidx Hdesc. unfold step.
  destruct (rev (fst t)) as [|last rest] eqn:Hrev.
  - destruct t as [tv ti]. cbn [fst snd] in *.
    assert (Hnil : tv = []).
    { apply (f_equal (@rev V)) in Hrev. now rewrite rev_involutive in Hrev. }
    subst tv. unfold indexed in Hidx. cbn in Hidx. inversion Hidx; subst.
    unfold PyList.append, indexed, descending. cbn.
    split; repeat constructor. exact Hi.
  - destruct (lt value last && (Z.of_nat (length (fst t)) =? num_values)).
    + now split.
    + destruct (insert_sorted_keeps value_list value i t Hi Hidx Hdesc).
      now apply trim_keeps.
Qed.

Lemma loop_keeps (num_values : Z) (value_list : list V) :
  forall (rest : list V) (i : nat) (t : tops),
    skipn i value_list = rest ->
    indexed value_list t -> descending (fst t) ->
    indexed value_list (loop lt gt num_values rest i t) /\
    descending (fst (loop lt gt num_values rest i t)).
Proof.
  induction rest as [|value rest IH]; intros i t Hskip Hidx Hdesc; cbn.
  - now split.
  - assert (Hi : nth_error value_list i = Some value).
    { rewrite <- (firstn_skipn i value_list) at 1. rewrite Hskip.
      assert (Hlen : (i <= length value_list)%nat).
      { destruct (Nat.le_gt_cases i (length value_list)) as [|Hgt]; [assumption|].
        rewrite skipn_all2 in Hskip by lia. discriminate. }
      rewrite nth_error_app2; rewrite length_firstn, Nat.min_l by lia; [|lia].
      now rewrite Nat.sub_diag. }
    destruct (step_keeps value_list num_values t i value Hi Hidx Hdesc) as [Hidx' Hdesc'].
    apply IH; try assumption.
    rewrite <- (Nat.add_1_l i), <- skipn_skipn, Hskip. reflexivity.
Qed.

Lemma get_top_keeps (value_list : list V) (num_values : Z) :
  indexed value_list (get_top lt gt value_list num_values) /\
  descending (fst (get_top lt gt value_list num_values)).
Proof.
  unfold get_top. apply loop_keeps; [reflexivity | constructor | constructor].
Qed.

(** *** How many values are kept *)

Lemma length_insert {A : Type} (j : nat) (x : A) (l : list A) :
  length (PyList.insert j x l) = S (length l).
Proof.
  unfold PyList.insert. rewrite length_app. cbn [length].
  rewrite <- (firstn_skipn j l) at 3. rewrite length_app. lia.
Qed.

Lemma length_pop_last {A : Type} (l : list A) :
  length (PyList.pop_last l) = Nat.pred (length l).
Proof.
  unfold PyList.pop_last. induction l as [|a [|b l] IH]; cbn in *; [reflexivity..|].
  now rewrite IH.
Qed.

(** With [num_values] at least 1, a pass of the loop keeps the result
    within [num_values], adds at most one value, and leaves at least one. *)
Lemma step_length (num_values : Z) (t : tops) (i : nat) (value : V) :
  1 <= num_values ->
  Z.of_nat (length (fst t)) <= num_values ->
  let t' := step lt gt num_values t i value in
  Z.of_nat (length (fst t')) <= num_values /\
  (length (fst t') <= S (length (fst t)))%nat /\
  (1 <= length (fst t'))%nat.
Proof.
  intros Hn Hlen. cbv zeta. unfold step.
  destruct (rev (fst t)) as [|last rest] eqn:Hrev.
  - apply (f_equal (@length V)) in Hrev. rewrite length_rev in Hrev.
    unfold PyList.append. cbn [fst]. rewrite length_app. cbn [length] in *. lia.
  - assert (Hpos : (1 <= length (fst t))%nat).
    { apply (f_equal (@length V)) in Hrev. rewrite length_rev in Hrev.
      cbn [length] in Hrev. lia. }
    destruct (lt value last && (Z.of_nat (length (fst t)) =? num_values)); [lia|].
    assert (Hins : length (fst (insert_sorted gt value i t)) = length (fst t) \/
                   length (fst (insert_sorted gt value i t)) = S (length (fst t))).
    { unfold insert_sorted. destruct (first_smaller gt value (fst t)); [right | now left].
      cbn [fst]. apply length_insert. }
    unfold trim.
    destruct (Z.of_nat (length (fst (insert_sorted gt value i t))) >? num_values) eqn:Hgt.
    + apply Z.gtb_lt in Hgt. cbn [fst]. rewrite length_pop_last. lia.
    + rewrite Z.gtb_ltb in Hgt. apply Z.ltb_ge in Hgt. lia.
Qed.

Lemma loop_length (num_values : Z) :
  1 <= num_values ->
  forall (rest : list V) (i : nat) (t : tops),
    Z.of_nat (length (fst t)) <= num_values ->
    let t' := loop lt gt num_values rest i t in
    Z.of_nat (length (fst t')) <= num_values /\
    (length (fst t') <= length (fst t) + length rest)%nat /\
    (rest <> [] -> 1 <= length (fst t'))%nat /\
    (1 <= length (fst t) -> 1 <= length (fst t'))%nat.
Proof.
  intros Hn. induction rest as [|value rest IH]; intros i t Hlen; cbv zeta; cbn [loop length].
  - repeat split; try lia. intros H. now contradiction H.
  - destruct (step_length num_values t i value Hn Hlen) as (H1 & H2 & H3).
    destruct (IH (S i) (step lt gt num_values t i value) H1) as (H4 & H5 & H6 & H7).
    repeat split; try lia; intros _; now apply H7.
Qed.

End Generic.

End GetTopFacts.

(** ** [get_top] on integers *)

Module GetTopInt.

Import GetTop GetTopFacts.

Lemma Zgt_asym (a b : Z) : (a >? b) = true -> (b >? a) = false.
Proof. rewrite !Z.gtb_ltb. intros H. apply Z.ltb_lt in H. apply Z.ltb_ge. lia. Qed.

Lemma descending_ge (l : list Z) :
  descending Z.gtb l -> StronglySorted Z.ge l.
Proof.
  intros Hs. apply Sorted_StronglySorted.
  - intros a b c Hab Hbc. lia.
  - induction Hs as [|a l Hl IH Hhd]; constructor; [exact IH|].
    destruct Hhd as [|b l Hba]; constructor.
    rewrite Z.gtb_ltb in Hba. apply Z.ltb_ge in Hba. lia.
Qed.

Lemma indexed_nth (value_list : list Z) :
  forall (tv : list Z) (ti : list nat),
    Forall2 (fun v k => nth_error value_list k = Some v) tv ti ->
    forall i v, nth_error tv i = Some v ->
      exists k, nth_error ti i = Some k /\ nth_error value_list k = Some v.
Proof.
  induction 1 as [|a k tv ti Hak Hrest IH]; intros i v Hi.
  - destruct i; discriminate.
  - destruct i as [|i]; cbn in *.
    + injection Hi as <-. now exists k.
    + now apply IH.
Qed.

(** On a list of integers, for every [num_values] (negative ones
    included), the values returned by [get_top] never increase from one
    position to any later one, there are as many indices as values, and
    the value at each position is the input element found at the index
    returned at the same position. *)
Lemma get_top_int_descending_and_indexed (value_list : list Z) (num_values : Z) :
  let top_values := fst (get_top_int value_list num_values) in
  let top_indices := snd (get_top_int value_list num_values) in
  StronglySorted Z.ge top_values /\
  length top_indices = length top_values /\
  forall i v, nth_error top_values i = Some v ->
    exists k, nth_error top_indices i = Some k /\ nth_error value_list k = Some v.
Proof.
  cbv zeta. unfold get_top_int.
  destruct (get_top_keeps Z.ltb Z.gtb Zgt_asym value_list num_values) as [Hidx Hdesc].
  split; [now apply descending_ge|].
  split; [symmetry; exact (Forall2_length Hidx)|].
  now apply indexed_nth.
Qed.

(** With [num_values] at least 1, [get_top] returns at most
    [min(num_values, len(value_list))] values, and at least one when the
    list is not empty. *)
Theorem get_top_length_bounds (value_list : list Z) (num_values : Z) :
  1 <= num_values ->
  let kept := length (fst (get_top_int value_list num_values)) in
  (kept <= Nat.min (Z.to_nat num_values) (length value_list))%nat /\
  (value_list <> [] -> 1 <= kept)%nat.
Proof.
  intros Hn. cbv zeta. unfold get_top_int, get_top.
  destruct (loop_length Z.ltb Z.gtb num_values Hn value_list 0%nat ([], []))
    as (H1 & H2 & H3 & _); [cbn; lia|].
  cbn [fst length Nat.add] in H2. split; [lia | exact H3].
Qed.

Lemma get_top_length_bounds_witness :
  1 <= 2 /\
  le (length (fst (get_top_int [5; 3; 8] 2))) (Nat.min (Z.to_nat 2) (length [5; 3; 8])) /\
  ([5; 3; 8] <> [] -> le 1 (length (fst (get_top_int [5; 3; 8] 2)))).
Proof.
  split; [lia|]. apply (get_top_length_bounds [5; 3; 8] 2). lia.
Defined.

(** C1 fails on the code. A value that is not greater than any kept value
    is never appended while the result is still short, and the first value
    is kept even when [num_values] is 0: the result has 1 element where
    [min(n, len(values))] is 2, respectively 0. *)
Theorem get_top_returns_too_few :
  get_top_int [5; 3] 2 = ([5], [0%nat]) /\
  length (fst (get_top_int [5; 3] 2)) <> Nat.min 2 (length [5; 3]) /\
  get_top_int [5] 0 = ([5], [0%nat]) /\
  length (fst (get_top_int [5] 0)) <> Nat.min 0 (length [5]).
Proof. repeat split; cbn; discriminate. Qed.

(** C2 fails on the code: on [[5,5,3]] with [num_values = 2] the second 5
    is not greater than the first, so it is dropped, and so is the 3. *)
Theorem get_top_tie_example :
  get_top_int [5; 5; 3] 2 = ([5], [0%nat]) /\
  get_top_int [5; 5; 3] 2 <> ([5; 5], [0%nat; 1%nat]).
Proof. split; [reflexivity | discriminate]. Qed.

End GetTopInt.

(** ** Checks of the string primitives against Python's results *)

Module PyStrExamples.

Import PyStr.
Local Open Scope string_scope.

Example split_row : split comma "2," = ["2"; ""].
Proof. reflexivity. Qed.

Example split_empty : split comma "" = [""].
Proof. reflexivity. Qed.

Example readlines_text :
  readlines (String "a" (String newline (String "b" EmptyString)))
  = [String "a" (String newline EmptyString); "b"].
Proof. reflexivity. Qed.

(** A carriage return, alone or before a line feed, ends a line as a line
    feed does, and is delivered as one. *)
Example readlines_line_ends :
  readlines ("a" ++ String carriage_return (String newline
             ("b" ++ String carriage_return ("c" ++ String newline
              (String carriage_return (String newline ""))))))
  = ["a" ++ String newline ""; "b" ++ String newline ""; "c" ++ String newline "";
     String newline ""].
Proof. reflexivity. Qed.

Example of_int_values : (of_int 0, of_int 42, of_int (-7)) = ("0", "42", "-7").
Proof. reflexivity. Qed.

Example zfill_values :
  (zfill 3 (of_int 7), zfill 3 (of_int 1234), zfill 5 (of_int (-42)))
  = ("007", "1234", "-0042").
Proof. reflexivity. Qed.

End PyStrExamples.

(** ** Checks of the float model against Python's results *)

Module PyFloatExamples.

Import PyFloat.
Local Open Scope string_scope.

Example parse_values :
  (of_string "1", of_string "0.00046", of_string "1.23e+05", of_string "abc", of_string "5.")
  = (Some (S754_finite false 4503599627370496 (-52)),
     Some (S754_finite false 8485502273906394 (-64)),
     Some (S754_finite false 8452495638528000 (-36)),
     None,
     Some (S754_finite false 5629499534213120 (-50))).
Proof. vm_compute. reflexivity. Qed.

End PyFloatExamples.

(** ** Checks of the CSV codec on the table of the specification *)

Module CsvExamples.

Import Csv.
Local Open Scope string_scope.

(** [{"a": [1, 2], "b": [3]}]. *)
Definition table : Dict.t (value Z) := [("a", ListOf [1; 2]); ("b", ListOf [3])].

(** The text [a,b / 1,3 / 2,] with its three newlines. *)
Definition table_text : string :=
  "a,b" ++ String PyStr.newline ("1,3" ++ String PyStr.newline ("2," ++ String PyStr.newline "")).

Example write_table :
  dict_to_csv str_int anywhere table "t.csv" []
  = {| dict_after := table; files_after := [("t.csv", table_text)]; outcome := Ok tt |}.
Proof. reflexivity. Qed.

Example read_table :
  csv_to_dict [("t.csv", table_text)] "t.csv" PyStr.comma
  = Ok [("a", ListOf [CFloat (PyFloat.lit "1.0"); CFloat (PyFloat.lit "2.0")]);
        ("b", Scalar (CFloat (PyFloat.lit "3.0")))].
Proof. vm_compute. reflexivity. Qed.

(** A column with no value holds the empty list; a field that is not a
    number stays text. *)
Example read_empty_column :
  csv_to_dict [("t.csv", "a,b,c" ++ String PyStr.newline ("x,,2.5" ++ String PyStr.newline ""))]
    "t.csv" PyStr.comma
  = Ok [("a", Scalar (CStr "x")); ("b", ListOf []);
        ("c", Scalar (CFloat (PyFloat.lit "2.5")))].
Proof. vm_compute. reflexivity. Qed.

Example write_empty :
  dict_to_csv str_int anywhere [] "t.csv" []
  = {| dict_after := []; files_after := [("t.csv", String PyStr.newline "")];
       outcome := Err ValueError |}.
Proof. reflexivity. Qed.

End CsvExamples.

(** ** Facts about dicts *)

Module DictFacts.

Import Dict.

Section Facts.

Context {V : Type}.
Implicit Types (d : Dict.t V) (k : string) (v : V).

Lemma get_set_same d k v : get (set d k v) k = Some v.
Proof.
  induction d as [|[k' v'] d IH]; cbn.
  - now rewrite String.eqb_refl.
  - destruct (String.eqb k' k) eqn:E; cbn; rewrite E; [reflexivity | exact IH].
Qed.

Lemma get_set_other d k k' v : k <> k' -> get (set d k v) k' = get d k'.
Proof.
  intros Hne. induction d as [|[k0 v0] d IH]; cbn.
  - destruct (String.eqb k k') eqn:E; [|reflexivity].
    apply String.eqb_eq in E. contradiction.
  - destruct (String.eqb k0 k) eqn:E; cbn.
    + apply String.eqb_eq in E. subst k0.
      destruct (String.eqb k k') eqn:E'; [|reflexivity].
      apply String.eqb_eq in E'. contradiction.
    + now rewrite IH.
Qed.

Lemma get_some_in_keys d k v : get d k = Some v -> In k (keys d).
Proof.
  induction d as [|[k' v'] d IH]; cbn; [discriminate|].
  destruct (String.eqb k' k) eqn:E.
  - apply String.eqb_eq in E. now left.
  - intros H. right. now apply IH.
Qed.

Lemma in_keys_get d k : In k (keys d) -> exists v, get d k = Some v.
Proof.
  induction d as [|[k' v'] d IH]; cbn; [contradiction|].
  intros [<- | Hin].
  - rewrite String.eqb_refl. now exists v'.
  - destruct (String.eqb k' k); [now exists v' | now apply IH].
Qed.

Lemma get_none_not_in_keys d k : get d k = None <-> ~ In k (keys d).
Proof.
  split.
  - intros Hnone Hin. destruct (in_keys_get d k Hin) as [v Hv]. congruence.
  - intros Hnin. destruct (get d k) as [v|] eqn:E; [|reflexivity].
    exfalso. apply Hnin. now apply get_some_in_keys with v.
Qed.

Lemma keys_set_present d k v : In k (keys d) -> keys (set d k v) = keys d.
Proof.
  induction d as [|[k' v'] d IH]; cbn; [contradiction|].
  intros Hin. destruct (String.eqb k' k) eqn:E; cbn; [reflexivity|].
  f_equal. apply IH. destruct Hin as [->|Hin]; [|exact Hin].
  rewrite String.eqb_refl in E. discriminate.
Qed.

Lemma keys_set_absent d k v : ~ In k (keys d) -> keys (set d k v) = keys d ++ [k].
Proof.
  induction d as [|[k' v'] d IH]; cbn; [reflexivity|].
  intros Hnin. destruct (String.eqb k' k) eqn:E; cbn.
  - apply String.eqb_eq in E. exfalso. apply Hnin. now left.
  - f_equal. apply IH. intros Hin. apply Hnin. now right.
Qed.

Lemma set_set d k v v' : set (set d k v) k v' = set d k v'.
Proof.
  induction d as [|[k0 v0] d IH]; cbn.
  - now rewrite String.eqb_refl.
  - destruct (String.eqb k0 k) eqn:E; cbn; rewrite E; [reflexivity | now rewrite IH].
Qed.

(** A key that is not repeated is looked up at its own entry. *)
Lemma get_entry d k v : NoDup (keys d) -> In (k, v) d -> get d k = Some v.
Proof.
  induction d as [|[k' v'] d IH]; cbn; [contradiction|].
  intros Hnd Hin. inversion Hnd as [|? ? Hnotin Hnd']; subst.
  destruct Hin as [Heq | Hin].
  - injection Heq as -> ->. now rewrite String.eqb_refl.
  - destruct (String.eqb k' k) eqn:E; [|now apply IH].
    apply String.eqb_eq in E. subst k'. exfalso. apply Hnotin.
    change k with (fst (k, v)). now apply in_map.
Qed.

(** Two dicts with the same keys in the same order, none repeated, and
    the same lookups are the same dict. *)
Lemma ext d d' :
  keys d = keys d' -> NoDup (keys d) -> (forall k, get d k = get d' k) -> d = d'.
Proof.
  revert d'. induction d as [|[k v] d IH]; intros [|[k' v'] d'] Hkeys Hnd Hget;
    cbn in Hkeys; try discriminate; [reflexivity|].
  injection Hkeys as <- Hkeys. inversion Hnd as [|? ? Hnotin Hnd']; subst.
  assert (Hv : v = v').
  { specialize (Hget k). cbn in Hget. rewrite String.eqb_refl in Hget. congruence. }
  subst v'. f_equal. apply IH; [exact Hkeys | exact Hnd' |].
  intros k0. specialize (Hget k0). cbn in Hget.
  destruct (String.eqb k k0) eqn:E; [|exact Hget].
  apply String.eqb_eq in E. subst k0.
  assert (Hn : get d k = None) by now apply get_none_not_in_keys.
  assert (Hn' : get d' k = None).
  { apply get_none_not_in_keys. unfold keys. now rewrite <- Hkeys. }
  congruence.
Qed.

End Facts.

Lemma keys_map_values {V W : Type} (f : V -> W) (d : Dict.t V) :
  keys (map (fun kv => (fst kv, f (snd kv))) d) = keys d.
Proof. unfold keys. rewrite map_map. reflexivity. Qed.

Lemma get_map_values {V W : Type} (f : V -> W) (d : Dict.t V) (k : string) :
  get (map (fun kv => (fst kv, f (snd kv))) d) k = option_map f (get d k).
Proof.
  induction d as [|[k' v'] d IH]; cbn; [reflexivity|].
  destruct (String.eqb k' k); [reflexivity | exact IH].
Qed.

End DictFacts.

(** ** Facts about the loops of the error monad *)

Module LoopFacts.

Lemma mapM_ok {A B : Type} (f : A -> result B) (g : A -> B) (l : list A) :
  (forall a, In a l -> f a = Ok (g a)) -> mapM f l = Ok (map g l).
Proof.
  induction l as [|a l IH]; intros H; cbn; [reflexivity|].
  rewrite (H a) by now left. cbn.
  rewrite IH by (intros; apply H; now right). reflexivity.
Qed.

Lemma mapM_map_ok {A B C : Type} (f : B -> result C) (p : A -> B) (g : A -> C) (l : list A) :
  (forall a, In a l -> f (p a) = Ok (g a)) -> mapM f (map p l) = Ok (map g l).
Proof.
  induction l as [|a l IH]; intros H; cbn; [reflexivity|].
  rewrite (H a) by now left. cbn.
  rewrite IH by (intros; apply H; now right). reflexivity.
Qed.

Lemma mapM_total {A B : Type} (f : A -> result B) (l : list A) :
  (forall a, In a l -> exists b, f a = Ok b) ->
  exists bs, mapM f l = Ok bs /\ length bs = length l.
Proof.
  induction l as [|a l IH]; intros H; cbn.
  - now exists [].
  - destruct (H a) as [b Hb]; [now left|].
    destruct IH as (bs & Hbs & Hlen); [intros; apply H; now right|].
    exists (b :: bs). rewrite Hb. cbn. rewrite Hbs. cbn. now rewrite Hlen.
Qed.

End LoopFacts.

(** ** Facts about strings *)

Module PyStrFacts.

Local Open Scope string_scope.

Lemma append_assoc (a b c : string) : (a ++ b) ++ c = a ++ (b ++ c).
Proof. induction a as [|x a IH]; cbn; [reflexivity | now rewrite IH]. Qed.

Lemma append_empty_r (a : string) : a ++ "" = a.
Proof. induction a as [|x a IH]; cbn; [reflexivity | now rewrite IH]. Qed.

Lemma append_length (a b : string) :
  String.length (a ++ b) = (String.length a + String.length b)%nat.
Proof. induction a as [|x a IH]; cbn; [reflexivity | now rewrite IH]. Qed.

End PyStrFacts.

(** ** [dict_to_csv]: the dict it leaves and the text it writes *)

Module CsvWriterFacts.

Import Dict DictFacts Csv CsvSpec LoopFacts.
Local Open Scope string_scope.

Section Writer.

Context {A : Type}.
Variable str : A -> result string.
Variable opens : string -> result unit.

(** What the first loop turns a value into. *)
Definition listed (v : value A) : value A := ListOf (items v).

Lemma listed_twice (v : value A) : listed (listed v) = listed v.
Proof. now destruct v. Qed.

Lemma listify_loop (headers : list string) :
  forall d : Dict.t (value A),
    (forall h, In h headers -> In h (keys d)) ->
    exists d',
      foldM listify headers d = Ok d' /\ keys d' = keys d /\
      forall k,
        (In k headers -> get d' k = option_map listed (get d k)) /\
        (~ In k headers -> get d' k = get d k).
Proof.
  clear opens. induction headers as [|h headers IH]; intros d Hsub.
  - exists d. cbn. repeat split; tauto.
  - assert (Hh : In h (keys d)) by (apply Hsub; now left).
    destruct (in_keys_get d h Hh) as [v Hv].
    set (d1 := match v with ListOf _ => d | Scalar a => set d h (ListOf [a]) end).
    assert (Hstep : listify d h = Ok d1).
    { unfold listify, item. rewrite Hv. cbn. subst d1. now destruct v. }
    assert (Hk1 : keys d1 = keys d).
    { subst d1. destruct v; [now apply keys_set_present | reflexivity]. }
    assert (Hg1 : forall k, get d1 k = if String.eqb h k then Some (listed v) else get d k).
    { intros k. subst d1. destruct (String.eqb h k) eqn:E.
      - apply String.eqb_eq in E. subst k.
        destruct v; [apply get_set_same | exact Hv].
      - apply String.eqb_neq in E.
        destruct v; [now apply get_set_other | reflexivity]. }
    destruct (IH d1) as (d' & Hloop & Hkeys & Hget).
    { intros h' Hin. rewrite Hk1. apply Hsub. now right. }
    exists d'. cbn. rewrite Hstep. cbn. split; [exact Hloop|].
    split; [congruence|].
    intros k. destruct (Hget k) as [Hin Hout]. specialize (Hg1 k).
    destruct (String.eqb h k) eqn:E.
    + apply String.eqb_eq in E. subst k. split; [|intros Hn; exfalso; apply Hn; now left].
      intros _. rewrite Hv. cbn.
      destruct (in_dec string_dec h headers) as [Hi|Hni].
      * rewrite Hin, Hg1 by assumption. cbn. now rewrite listed_twice.
      * now rewrite Hout, Hg1.
    + apply String.eqb_neq in E. split.
      * intros [Heq|Hi]; [contradiction|]. now rewrite Hin, Hg1.
      * intros Hn. rewrite Hout, Hg1; [reflexivity|]. intros Hi. apply Hn. now right.
Qed.

(** The first loop of [dict_to_csv] never raises; it keeps the keys and
    their order and turns every value into a list. *)
Lemma listify_keys (d : Dict.t (value A)) :
  exists d',
    foldM listify (keys d) d = Ok d' /\ keys d' = keys d /\
    forall k, get d' k = option_map listed (get d k).
Proof.
  destruct (listify_loop (keys d) d (fun h H => H)) as (d' & Hloop & Hkeys & Hget).
  exists d'. repeat split; try assumption.
  intros k. destruct (in_dec string_dec k (keys d)) as [Hi|Hni].
  - now apply Hget.
  - destruct (Hget k) as [_ Hout]. rewrite Hout by assumption.
    apply get_none_not_in_keys in Hni. now rewrite Hni.
Qed.

Lemma dict_after_listified (d : Dict.t (value A)) (csv_path : string) (files : filesystem) :
  foldM listify (keys d) d = Ok (dict_after (dict_to_csv str opens d csv_path files)).
Proof.
  destruct (listify_keys d) as (d' & Hloop & _ & _).
  unfold dict_to_csv. rewrite Hloop.
  destruct (opens csv_path); [|reflexivity].
  destruct (bind (mapM (column_length d') (keys d)) py_max) as [n|e]; [|reflexivity].
  destruct (write_rows str d' (keys d) csv_path (seq 0 n) _). reflexivity.
Qed.

(** C10. After a call of [dict_to_csv], whatever it wrote and whether or
    not it raised, the caller's dict has the same keys in the same order;
    a key that held a value that was not a list holds the one-element list
    of that value, and a key that held a list holds the same list. *)
Theorem dict_to_csv_mutates_input
  (d : Dict.t (value A)) (csv_path : string) (files : filesystem) :
  let d' := dict_after (dict_to_csv str opens d csv_path files) in
  keys d' = keys d /\
  (forall k a, get d k = Some (Scalar a) -> get d' k = Some (ListOf [a])) /\
  (forall k l, get d k = Some (ListOf l) -> get d' k = Some (ListOf l)) /\
  (forall k, get d k = None -> get d' k = None).
Proof.
  cbv zeta. pose proof (dict_after_listified d csv_path files) as Hafter.
  destruct (listify_keys d) as (d' & Hloop & Hkeys & Hget).
  rewrite Hloop in Hafter. injection Hafter as <-.
  split; [exact Hkeys|].
  repeat split; intros; rewrite Hget; match goal with H : get d _ = _ |- _ => now rewrite H end.
Qed.

(** With no key repeated, the dict left behind is the input with every
    value turned into a list. *)
Lemma listified_dict (d d' : Dict.t (value A)) :
  NoDup (keys d) ->
  foldM listify (keys d) d = Ok d' ->
  d' = map (fun kv => (fst kv, listed (snd kv))) d.
Proof.
  intros Hnd Hloop.
  destruct (listify_keys d) as (d'' & Hloop' & Hkeys & Hget).
  rewrite Hloop in Hloop'. injection Hloop' as <-.
  apply ext.
  - now rewrite keys_map_values.
  - now rewrite Hkeys.
  - intros k. now rewrite Hget, get_map_values.
Qed.

Lemma fold_max (l : list nat) (n : nat) :
  fold_left Nat.max l n = Nat.max n (list_max l).
Proof.
  revert n. induction l as [|m l IH]; intros n.
  - cbn. lia.
  - change (list_max (m :: l)) with (Nat.max m (list_max l)).
    cbn [fold_left]. rewrite IH. lia.
Qed.

Lemma py_max_nonempty (l : list nat) : l <> [] -> py_max l = Ok (list_max l).
Proof.
  destruct l as [|n l]; [congruence|]. intros _.
  change (list_max (n :: l)) with (Nat.max n (list_max l)).
  cbn [py_max]. now rewrite fold_max.
Qed.

(** Appending the rows one by one leaves the header followed by all of
    them in the file, and no other file is touched. *)
Lemma append_rows (path : string) (texts : list string) :
  forall (files : filesystem) (t : string),
    get files path = Some t ->
    get (fold_left (fun fs text => append_text fs path text) texts files) path
      = Some (t ++ PyStr.concat_all texts) /\
    forall p, p <> path ->
      get (fold_left (fun fs text => append_text fs path text) texts files) p = get files p.
Proof.
  induction texts as [|text texts IH]; intros files t Ht; cbn.
  - now rewrite PyStrFacts.append_empty_r.
  - destruct (IH (append_text files path text) (t ++ text)) as [Hhere Hthere].
    { unfold append_text. rewrite Ht. apply get_set_same. }
    rewrite Hhere, PyStrFacts.append_assoc. split; [reflexivity|].
    intros p Hp. rewrite Hthere by assumption.
    unfold append_text. rewrite Ht. apply get_set_other. congruence.
Qed.

Lemma write_rows_ok (d : Dict.t (value A)) (headers : list string) (path : string)
  (line : nat -> string) (indices : list nat) :
  (forall i, In i indices -> row_text str d headers i = Ok (line i)) ->
  forall files,
    write_rows str d headers path indices files
    = (fold_left (fun fs text => append_text fs path text) (map line indices) files, Ok tt).
Proof.
  induction indices as [|i indices IH]; intros Hrows files; cbn; [reflexivity|].
  rewrite (Hrows i) by now left.
  apply IH. intros j Hj. apply Hrows. now right.
Qed.

(** [str] returns on every element of the dict, and [shown] is what it
    returns. *)
Variable shown : A -> string.

Definition printable (d : Dict.t (value A)) : Prop :=
  forall k v a, In (k, v) d -> In a (items v) -> str a = Ok (shown a).

(** The text a call leaves at [csv_path] when the dict has a key, the
    file can be opened and [str] returns on every element. *)
Lemma dict_to_csv_text
  (d : Dict.t (value A)) (csv_path : string) (files : filesystem) :
  d <> [] ->
  NoDup (keys d) ->
  printable d ->
  opens csv_path = Ok tt ->
  outcome (dict_to_csv str opens d csv_path files) = Ok tt /\
  get (files_after (dict_to_csv str opens d csv_path files)) csv_path = Some (table_text shown d).
Proof.
  intros Hne Hnd Hstr Hopen.
  destruct (listify_keys d) as (d' & Hloop & Hkeys & Hget).
  pose proof (listified_dict d d' Hnd Hloop) as Hd'.
  assert (Hentry : forall kv, In kv d -> get d' (fst kv) = Some (listed (snd kv))).
  { intros [k v] Hin. rewrite Hget. cbn. now rewrite (get_entry d k v Hnd Hin). }
  assert (Hsizes : mapM (column_length d') (keys d)
                   = Ok (map (fun kv => length (items (snd kv))) d)).
  { apply mapM_map_ok. intros kv Hin. unfold column_length, item.
    now rewrite (Hentry kv Hin). }
  assert (Hrow : forall i, row_text str d' (keys d) i = Ok (data_line shown d i)).
  { intros i. unfold row_text, keys.
    rewrite (mapM_map_ok _ fst (fun kv => cell_text shown i (snd kv))); [reflexivity|].
    intros [k v] Hin. unfold field, item. rewrite (Hentry (k, v) Hin). cbn.
    unfold cell_text. destruct (nth_error (items v) i) as [a|] eqn:Ha; [|reflexivity].
    apply (Hstr k v a Hin). now apply nth_error_In with i. }
  unfold dict_to_csv. rewrite Hloop, Hopen, Hsizes. cbn [bind].
  rewrite py_max_nonempty by (destruct d; [congruence | discriminate]).
  rewrite (write_rows_ok d' (keys d) csv_path (data_line shown d)) by (intros; apply Hrow).
  cbn [outcome files_after]. split; [reflexivity|].
  destruct (append_rows csv_path (map (data_line shown d) (seq 0 (list_max (map (fun kv => length (items (snd kv))) d))))
              (set files csv_path (PyStr.join "," (keys d) ++ String PyStr.newline ""))
              (PyStr.join "," (keys d) ++ String PyStr.newline ""))
    as [Hhere _]; [apply get_set_same|].
  exact Hhere.
Qed.

(** Once the file is open, whatever [dict_to_csv] does then, it leaves
    the files that were there and the one at [csv_path], in the order of
    a first write. *)
Lemma keys_append_text (files : filesystem) (path text : string) :
  In path (keys files) -> keys (append_text files path text) = keys files.
Proof.
  intros Hin. unfold append_text.
  destruct (get files path); now apply keys_set_present.
Qed.

Lemma write_rows_keys (d : Dict.t (value A)) (headers : list string) (path : string)
  (indices : list nat) :
  forall files, In path (keys files) ->
    keys (fst (write_rows str d headers path indices files)) = keys files.
Proof.
  induction indices as [|i indices IH]; intros files Hin; cbn; [reflexivity|].
  destruct (row_text str d headers i); [|reflexivity].
  rewrite IH; [now apply keys_append_text|].
  now rewrite keys_append_text.
Qed.

Lemma dict_to_csv_keys (d : Dict.t (value A)) (csv_path : string) (files : filesystem) :
  opens csv_path = Ok tt ->
  keys (files_after (dict_to_csv str opens d csv_path files))
  = keys (set files csv_path EmptyString).
Proof.
  intros Hopen.
  assert (Hset : forall text, keys (set files csv_path text) = keys (set files csv_path EmptyString)).
  { intros text. destruct (in_dec string_dec csv_path (keys files)) as [Hin|Hnin].
    - now rewrite !keys_set_present.
    - now rewrite !keys_set_absent. }
  assert (Hin : forall text, In csv_path (keys (set files csv_path text))).
  { intros text. apply get_some_in_keys with text. apply get_set_same. }
  destruct (listify_keys d) as (d' & Hloop & _ & _).
  unfold dict_to_csv. rewrite Hloop, Hopen.
  destruct (bind (mapM (column_length d') (keys d)) py_max) as [n|e]; cbn [files_after];
    [|apply Hset].
  pose proof (write_rows_keys d' (keys d) csv_path (seq 0 n) _ (Hin (PyStr.join "," (keys d) ++ String PyStr.newline ""))) as Hk.
  destruct (write_rows str d' (keys d) csv_path (seq 0 n) _) as [files' r].
  cbn [fst files_after] in *. rewrite Hk. apply Hset.
Qed.

(** Whatever [dict_to_csv] does, it changes no file but the one at
    [csv_path]. *)
Lemma get_append_text_other (files : filesystem) (path text p : string) :
  p <> path -> get (append_text files path text) p = get files p.
Proof.
  intros Hp. unfold append_text.
  destruct (get files path); apply get_set_other; congruence.
Qed.

Lemma write_rows_frame (d : Dict.t (value A)) (headers : list string) (path : string)
  (indices : list nat) (p : string) :
  p <> path ->
  forall files, get (fst (write_rows str d headers path indices files)) p = get files p.
Proof.
  intros Hp. induction indices as [|i indices IH]; intros files; cbn; [reflexivity|].
  destruct (row_text str d headers i); [|reflexivity].
  rewrite IH. now apply get_append_text_other.
Qed.

Lemma dict_to_csv_frame (d : Dict.t (value A)) (csv_path : string) (files : filesystem)
  (p : string) :
  p <> csv_path -> get (files_after (dict_to_csv str opens d csv_path files)) p = get files p.
Proof.
  intros Hp. destruct (listify_keys d) as (d' & Hloop & _ & _).
  unfold dict_to_csv. rewrite Hloop.
  destruct (opens csv_path); [|reflexivity].
  destruct (bind (mapM (column_length d') (keys d)) py_max) as [n|e]; cbn [files_after].
  - pose proof (write_rows_frame d' (keys d) csv_path (seq 0 n) p Hp
                  (set files csv_path (PyStr.join "," (keys d) ++ String PyStr.newline ""))) as Hf.
    destruct (write_rows str d' (keys d) csv_path (seq 0 n) _) as [files' r].
    cbn [fst files_after] in *. rewrite Hf. apply get_set_other. congruence.
  - apply get_set_other. congruence.
Qed.

(** A file that cannot be opened is not written: the call raises what
    [open] raises and leaves every file as it was. *)
Lemma unopened
  (d : Dict.t (value A)) (csv_path : string) (files : filesystem) (e : exn) :
  opens csv_path = Err e ->
  outcome (dict_to_csv str opens d csv_path files) = Err e /\
  files_after (dict_to_csv str opens d csv_path files) = files.
Proof.
  intros Hopen. destruct (listify_keys d) as (d' & Hloop & _ & _).
  unfold dict_to_csv. rewrite Hloop, Hopen. now split.
Qed.

(** When [csv_path] cannot be opened for writing (the empty path, a path
    into a directory that does not exist), [dict_to_csv] raises what
    [open] raises and writes nothing: every file is as it was. *)
Theorem dict_to_csv_unopened
  (d : Dict.t (value A)) (csv_path : string) (files : filesystem) (e : exn) :
  opens csv_path = Err e ->
  outcome (dict_to_csv str opens d csv_path files) = Err e /\
  files_after (dict_to_csv str opens d csv_path files) = files.
Proof. apply unopened. Qed.

(** The values the claim speaks of: a list that is not empty, or a bare
    element. *)
Definition filled (v : value A) : Prop :=
  match v with
  | Scalar _ => True
  | ListOf l => l <> []
  end.

(** C5, amended. For every dict with at least one key whose values are
    non-empty lists or bare elements, with [str] returning on every
    element, and every [csv_path] that can be opened for writing,
    [dict_to_csv] returns and leaves at [csv_path] exactly the header
    line of the comma-joined keys in iteration order followed by one line
    per index below the length of the longest column, where line [i]
    joins, for each key in order, [str] of the [i]-th element of its
    column or the empty text when the column is too short (a bare element
    counts as a column of one). *)
Theorem dict_to_csv_writes_table
  (d : Dict.t (value A)) (csv_path : string) (files : filesystem) :
  d <> [] ->
  Forall filled (values d) ->
  NoDup (keys d) ->
  printable d ->
  opens csv_path = Ok tt ->
  let w := dict_to_csv str opens d csv_path files in
  outcome w = Ok tt /\
  get (files_after w) csv_path = Some (table_text shown d).
Proof.
  intros Hne _ Hnd Hstr Hopen. cbv zeta.
  exact (dict_to_csv_text d csv_path files Hne Hnd Hstr Hopen).
Qed.

End Writer.

End CsvWriterFacts.

(** The table of the specification, written and read back. *)

Module CsvWriterExamples.

Import Csv CsvExamples.
Local Open Scope string_scope.

Lemma dict_to_csv_writes_table_witness :
  table <> [] /\
  Forall CsvWriterFacts.filled (Dict.values table) /\
  NoDup (Dict.keys table) /\
  CsvWriterFacts.printable str_int PyStr.of_int table /\
  anywhere "t.csv" = Ok tt /\
  outcome (dict_to_csv str_int anywhere table "t.csv" []) = Ok tt /\
  Dict.get (files_after (dict_to_csv str_int anywhere table "t.csv" [])) "t.csv"
    = Some table_text.
Proof.
  assert (Hne : table <> []) by discriminate.
  assert (Hfilled : Forall CsvWriterFacts.filled (Dict.values table)).
  { repeat constructor; discriminate. }
  assert (Hnd : NoDup (Dict.keys table)).
  { repeat constructor; cbn; intuition discriminate. }
  assert (Hstr : CsvWriterFacts.printable str_int PyStr.of_int table).
  { intros k v a _ _. reflexivity. }
  split; [exact Hne|]. split; [exact Hfilled|]. split; [exact Hnd|].
  split; [exact Hstr|]. split; [reflexivity|].
  exact (CsvWriterFacts.dict_to_csv_writes_table str_int anywhere PyStr.of_int
           table "t.csv" [] Hne Hfilled Hnd Hstr eq_refl).
Defined.

(** C5 fails on the code for the empty dict.  It meets the condition of
    the claim (it has no value that is an empty list), yet the call raises
    [ValueError] at [max] of no sizes after it has written the header line
    of no keys. *)
Lemma dict_to_csv_empty_dict_raises :
  Forall CsvWriterFacts.filled (Dict.values (@nil (string * value Z))) /\
  outcome (dict_to_csv str_int anywhere [] "t.csv" []) = Err ValueError /\
  outcome (dict_to_csv str_int anywhere [] "t.csv" []) <> Ok tt /\
  files_after (dict_to_csv str_int anywhere [] "t.csv" []) = [("t.csv", String PyStr.newline "")].
Proof. repeat split; [constructor | discriminate]. Qed.

(** In a fresh checkout the table cannot be written to [results]: the
    call raises at [open], after it has turned the values of the dict
    into lists, and no file appears. *)
Lemma dict_to_csv_unopened_witness :
  fresh_checkout "results/t.csv" = Err FileNotFoundError /\
  outcome (dict_to_csv str_int fresh_checkout [("a", Scalar 1)] "results/t.csv" [])
    = Err FileNotFoundError /\
  files_after (dict_to_csv str_int fresh_checkout [("a", Scalar 1)] "results/t.csv" []) = [].
Proof.
  split; [reflexivity|].
  exact (CsvWriterFacts.dict_to_csv_unopened str_int fresh_checkout [("a", Scalar 1)]
           "results/t.csv" [] FileNotFoundError eq_refl).
Defined.

Example unopened_call_listifies :
  dict_after (dict_to_csv str_int fresh_checkout [("a", Scalar 1)] "results/t.csv" [])
  = [("a", ListOf [1])].
Proof. reflexivity. Qed.

(** An element of a dict: an [int], or an object whose [__str__] does
    not return a text, on which [str] raises [TypeError]. *)
Inductive element : Type :=
| Int (z : Z)
| Unprintable.

Definition str_element (x : element) : result string :=
  match x with
  | Int z => str_int z
  | Unprintable => Err TypeError
  end.

(** An element on which [str] raises ends the call in the middle of the
    table: the rows before it stay in the file. *)
Example dict_to_csv_unprintable :
  dict_to_csv str_element anywhere [("a", ListOf [Int 1; Unprintable])] "t.csv" []
  = {| dict_after := [("a", ListOf [Int 1; Unprintable])];
       files_after := [("t.csv", "a" ++ String PyStr.newline ("1" ++ String PyStr.newline ""))];
       outcome := Err TypeError |}.
Proof. reflexivity. Qed.

End CsvWriterExamples.

(** ** [csv_to_dict]: what the three loops build *)

Module CsvReaderFacts.

Import Dict DictFacts Csv CsvSpec.

Section Reader.

Variable delimeter : ascii.
Variable headers : list string.
Hypothesis headers_distinct : NoDup headers.

(** What the [j]-th header maps to: the list [c j] when [done j] is
    false, the unwrapped [packed (c j)] when it is true. *)
Definition shown (c : nat -> list cell) (done : nat -> bool) (j : nat) : value cell :=
  if done j then packed (c j) else ListOf (c j).

Definition holds (d : Dict.t (value cell)) (c : nat -> list cell) (done : nat -> bool) : Prop :=
  keys d = headers /\
  forall j h, nth_error headers j = Some h -> get d h = Some (shown c done j).

Definition none : nat -> bool := fun _ => false.
Definition all : nat -> bool := fun _ => true.

Lemma holds_ext d (c c' : nat -> list cell) (done done' : nat -> bool) :
  holds d c done ->
  (forall j, (j < length headers)%nat -> shown c done j = shown c' done' j) ->
  holds d c' done'.
Proof.
  intros [Hk Hg] Heq. split; [exact Hk|].
  intros j h Hj. rewrite (Hg j h Hj). f_equal. apply Heq.
  apply nth_error_Some. congruence.
Qed.

Lemma header_index_unique i j h :
  nth_error headers i = Some h -> nth_error headers j = Some h -> i = j.
Proof.
  intros Hi Hj.
  apply (proj1 (NoDup_nth_error headers) headers_distinct).
  - apply nth_error_Some. congruence.
  - congruence.
Qed.

(** Storing [v] under the [i]-th header changes that column only. *)
Lemma holds_set d (c c' : nat -> list cell) (done done' : nat -> bool) i h v :
  holds d c done ->
  nth_error headers i = Some h ->
  v = shown c' done' i ->
  (forall j, j <> i -> shown c' done' j = shown c done j) ->
  holds (set d h v) c' done'.
Proof.
  intros [Hk Hg] Hi Hv Hrest. split.
  - rewrite keys_set_present; [exact Hk|]. rewrite Hk. now apply nth_error_In with i.
  - intros j h' Hj. destruct (Nat.eq_dec j i) as [->|Hne].
    + assert (h' = h) by congruence. subst h'. now rewrite get_set_same, Hv.
    + rewrite get_set_other.
      * rewrite (Hg j h' Hj). now rewrite (Hrest j Hne).
      * intros ->. apply Hne. now apply header_index_unique with h'.
Qed.

(** The dict of empty lists of lines 31-32. *)
Lemma initial_dict :
  holds (fold_left (fun d header => set d header (ListOf [])) headers []) (fun _ => []) none.
Proof.
  assert (Hgen : forall suf pre (d : Dict.t (value cell)),
             NoDup (pre ++ suf) -> keys d = pre ->
             (forall h, In h pre -> get d h = Some (ListOf [])) ->
             let d' := fold_left (fun d header => set d header (ListOf [])) suf d in
             keys d' = pre ++ suf /\
             forall h, In h (pre ++ suf) -> get d' h = Some (ListOf [])).
  { induction suf as [|h suf IH]; intros pre d Hnd Hk Hg; cbn.
    - rewrite app_nil_r. now split.
    - replace (pre ++ h :: suf) with ((pre ++ [h]) ++ suf) in *
        by (rewrite <- app_assoc; reflexivity).
      assert (Hnot : ~ In h pre).
      { intros Hin. apply NoDup_app_remove_r in Hnd.
        apply NoDup_remove_2 in Hnd. rewrite app_nil_r in Hnd. contradiction. }
      apply IH; [exact Hnd | |].
      + rewrite keys_set_absent; congruence.
      + intros h' Hin. apply in_app_or in Hin. destruct Hin as [Hin|[<-|[]]].
        * rewrite get_set_other; [now apply Hg|]. intros ->. contradiction.
        * apply get_set_same. }
  destruct (Hgen headers [] []) as [Hk Hg]; [exact headers_distinct | reflexivity | |].
  - intros h [].
  - split; [exact Hk|]. intros j h Hj. unfold shown, none.
    apply Hg. now apply nth_error_In with j.
Qed.

(** One pass of the inner loop of lines 37-45. *)
Lemma read_field_holds (fields : list string) d c i h f :
  holds d c none ->
  nth_error headers i = Some h ->
  nth_error fields i = Some f ->
  exists d',
    read_field headers fields d i = Ok d' /\
    holds d' (fun j => if (j =? i)%nat then c j ++ line_cells fields j else c j) none.
Proof.
  intros Hd Hi Hf. unfold read_field. rewrite Hf. cbn [of_option bind].
  destruct (String.eqb f EmptyString) eqn:Ef.
  - exists d. split; [reflexivity|].
    apply holds_ext with c none; [exact Hd|].
    intros j _. unfold shown, none. f_equal.
    destruct (Nat.eqb_spec j i) as [->|]; [|reflexivity].
    unfold line_cells. now rewrite Hf, Ef, app_nil_r.
  - rewrite Hi. cbn [of_option bind]. unfold append_cell, item.
    pose proof Hd as [Hk Hg]. rewrite (Hg i h Hi). cbn.
    eexists. split; [reflexivity|].
    apply holds_set with c none i; [exact Hd | exact Hi | |].
    + unfold shown, none. rewrite Nat.eqb_refl. unfold line_cells. now rewrite Hf, Ef.
    + intros j Hne. apply Nat.eqb_neq in Hne. unfold shown, none. now rewrite Hne.
Qed.

Lemma read_fields_holds (fields : list string) :
  (length headers <= length fields)%nat ->
  forall k s d c,
    (s + k = length headers)%nat ->
    holds d c none ->
    exists d',
      foldM (read_field headers fields) (seq s k) d = Ok d' /\
      holds d' (fun j => if (s <=? j)%nat then c j ++ line_cells fields j else c j) none.
Proof.
  intros Hlen. induction k as [|k IH]; intros s d c Hs Hd.
  - exists d. split; [reflexivity|].
    apply holds_ext with c none; [exact Hd|].
    intros j Hj. unfold shown, none. f_equal.
    destruct (Nat.leb_spec s j); [lia | reflexivity].
  - destruct (nth_error headers s) as [h|] eqn:Hh;
      [|apply nth_error_None in Hh; lia].
    destruct (nth_error fields s) as [f|] eqn:Hf;
      [|apply nth_error_None in Hf; lia].
    destruct (read_field_holds fields d c s h f Hd Hh Hf) as (d1 & Hstep & Hd1).
    destruct (IH (S s) d1 _ ltac:(lia) Hd1) as (d' & Hloop & Hd').
    exists d'. cbn [seq foldM]. rewrite Hstep. cbn [bind]. split; [exact Hloop|].
    eapply holds_ext; [exact Hd'|].
    intros j _. unfold shown, none. f_equal.
    destruct (Nat.leb_spec (S s) j), (Nat.leb_spec s j), (Nat.eqb_spec j s);
      try lia; reflexivity.
Qed.

(** One pass of the outer loop of lines 35-45. *)
Lemma read_line_holds (line : string) d c :
  (length headers <= length (fields_of delimeter line))%nat ->
  holds d c none ->
  exists d',
    read_line delimeter headers d line = Ok d' /\
    holds d' (fun j => c j ++ line_cells (fields_of delimeter line) j) none.
Proof.
  intros Hlen Hd. unfold read_line.
  destruct (read_fields_holds (fields_of delimeter line) Hlen (length headers) 0 d c
              eq_refl Hd) as (d' & Hloop & Hd').
  exists d'. split; [exact Hloop|].
  eapply holds_ext; [exact Hd'|]. intros j _. reflexivity.
Qed.

Lemma read_lines_holds (lines : list string) :
  Forall (fun line => (length headers <= length (fields_of delimeter line))%nat) lines ->
  forall d c,
    holds d c none ->
    exists d',
      foldM (read_line delimeter headers) lines d = Ok d' /\
      holds d' (fun j => c j ++ collected delimeter lines j) none.
Proof.
  induction 1 as [|line lines Hline Hlines IH]; intros d c Hd.
  - exists d. split; [reflexivity|].
    eapply holds_ext; [exact Hd|]. intros j _. unfold shown, none. cbn.
    now rewrite app_nil_r.
  - destruct (read_line_holds line d c Hline Hd) as (d1 & Hstep & Hd1).
    destruct (IH d1 _ Hd1) as (d' & Hloop & Hd').
    exists d'. cbn [foldM]. rewrite Hstep. cbn [bind]. split; [exact Hloop|].
    eapply holds_ext; [exact Hd'|]. intros j _. unfold shown, none. cbn.
    now rewrite app_assoc.
Qed.

(** The last loop, lines 48-52: the headers before [suf] are done. *)
Lemma unwrap_holds (c : nat -> list cell) :
  forall suf pre d,
    headers = pre ++ suf ->
    holds d c (fun j => (j <? length pre)%nat) ->
    exists d', foldM unwrap suf d = Ok d' /\ holds d' c all.
Proof.
  induction suf as [|h suf IH]; intros pre d Hsplit Hd.
  - exists d. split; [reflexivity|].
    eapply holds_ext; [exact Hd|]. intros j Hj. unfold shown, all.
    rewrite Hsplit, app_nil_r in Hj. apply Nat.ltb_lt in Hj. now rewrite Hj.
  - assert (Hi : nth_error headers (length pre) = Some h).
    { rewrite Hsplit, nth_error_app2, Nat.sub_diag by lia. reflexivity. }
    pose proof Hd as [Hk Hg]. specialize (Hg _ _ Hi).
    unfold shown in Hg. rewrite Nat.ltb_irrefl in Hg.
    assert (Hrest : forall j, j <> length pre ->
              shown c (fun j => (j <? length (pre ++ [h]))%nat) j
              = shown c (fun j => (j <? length pre)%nat) j).
    { intros j Hne. unfold shown. rewrite length_app. cbn [length].
      destruct (Nat.ltb_spec j (length pre)), (Nat.ltb_spec j (length pre + 1));
        try lia; reflexivity. }
    assert (Hhere : shown c (fun j => (j <? length (pre ++ [h]))%nat) (length pre)
                    = packed (c (length pre))).
    { unfold shown. rewrite length_app. cbn [length].
      now replace (length pre <? length pre + 1)%nat with true
        by (symmetry; apply Nat.ltb_lt; lia). }
    assert (Hstep : exists d1, unwrap d h = Ok d1 /\
                      holds d1 c (fun j => (j <? length (pre ++ [h]))%nat)).
    { unfold unwrap, item. rewrite Hg. cbn [of_option bind].
      destruct (c (length pre)) as [|x [|y rest]] eqn:Hc.
      - exists d. split; [reflexivity|].
        eapply holds_ext; [exact Hd|]. intros j _.
        destruct (Nat.eq_dec j (length pre)) as [->|Hne]; [|now rewrite Hrest].
        rewrite Hhere. unfold shown. now rewrite Nat.ltb_irrefl, Hc.
      - eexists. split; [reflexivity|].
        apply holds_set with c (fun j => (j <? length pre)%nat) (length pre);
          [exact Hd | exact Hi | | exact Hrest].
        now rewrite Hhere.
      - exists d. split; [reflexivity|].
        eapply holds_ext; [exact Hd|]. intros j _.
        destruct (Nat.eq_dec j (length pre)) as [->|Hne]; [|now rewrite Hrest].
        rewrite Hhere. unfold shown. now rewrite Nat.ltb_irrefl, Hc. }
    destruct Hstep as (d1 & Hstep & Hd1).
    destruct (IH (pre ++ [h]) d1) as (d' & Hloop & Hd').
    { rewrite <- app_assoc. exact Hsplit. }
    { exact Hd1. }
    exists d'. cbn [foldM]. rewrite Hstep. cbn [bind]. now split.
Qed.

End Reader.

Lemma combine_seq_snd (hs : list string) :
  forall s, map snd (combine (seq s (length hs)) hs) = hs.
Proof.
  induction hs as [|h hs IH]; intros s; cbn; [reflexivity|]. now rewrite IH.
Qed.

Lemma combine_seq_in (hs : list string) :
  forall s j h, nth_error hs j = Some h -> In ((s + j)%nat, h) (combine (seq s (length hs)) hs).
Proof.
  induction hs as [|h0 hs IH]; intros s j h Hj; [destruct j; discriminate|].
  destruct j as [|j]; cbn in *.
  - injection Hj as ->. left. f_equal. lia.
  - right. replace (s + S j)%nat with (S s + j)%nat by lia. now apply IH.
Qed.

Lemma read_table_keys (delimeter : ascii) (headers lines : list string) :
  keys (read_table delimeter headers lines) = headers.
Proof.
  unfold read_table, keys. rewrite map_map. cbn [fst].
  exact (combine_seq_snd headers 0).
Qed.

(** A dict in which every header is done is the table of the
    specification. *)
Lemma holds_all_read_table (delimeter : ascii) (headers lines : list string) d :
  NoDup headers ->
  holds headers d (collected delimeter lines) all ->
  d = read_table delimeter headers lines.
Proof.
  intros Hnd [Hk Hg]. apply ext.
  - now rewrite read_table_keys.
  - now rewrite Hk.
  - intros k. destruct (in_dec string_dec k headers) as [Hin|Hnin].
    + destruct (In_nth_error _ _ Hin) as [j Hj].
      rewrite (Hg j k Hj). symmetry. apply get_entry.
      * now rewrite read_table_keys.
      * unfold read_table, shown, all.
        change (k, packed (collected delimeter lines j))
          with ((fun jh : nat * string => (snd jh, packed (collected delimeter lines (fst jh)))) (j, k)).
        apply in_map. exact (combine_seq_in headers 0 j k Hj).
    + transitivity (@None (value cell)).
      * apply get_none_not_in_keys. now rewrite Hk.
      * symmetry. apply get_none_not_in_keys. now rewrite read_table_keys.
Qed.

(** C6. The file at [csv_path] is read as follows, when its header line
    names no column twice and no later line has fewer fields than the
    header (the lines being those a file opened in text mode delivers: a
    carriage return, alone or before a line feed, ends a line as a line
    feed does): under each header, in header order, the dict holds the cells
    collected from that column, every empty field dropped and every other
    field coerced to a float when it reads as one (kept as text when
    not); a column that collected exactly one cell holds that bare cell,
    and a column that collected none holds the empty list. *)
Theorem csv_to_dict_collects
  (files : filesystem) (csv_path text first : string) (lines : list string)
  (delimeter : ascii) :
  get files csv_path = Some text ->
  PyStr.readlines text = first :: lines ->
  NoDup (fields_of delimeter first) ->
  Forall (fun line => (length (fields_of delimeter first)
                       <= length (fields_of delimeter line))%nat) lines ->
  csv_to_dict files csv_path delimeter
  = Ok (read_table delimeter (fields_of delimeter first) lines).
Proof.
  intros Hfile Hlines Hnd Hwide.
  unfold csv_to_dict. rewrite Hfile. cbn [of_option bind]. rewrite Hlines.
  unfold convert. fold (fields_of delimeter first).
  set (headers := fields_of delimeter first) in *.
  destruct (read_lines_holds delimeter headers Hnd lines Hwide _ _
              (initial_dict headers Hnd)) as (d1 & Hread & Hd1).
  rewrite Hread. cbn [bind].
  destruct (unwrap_holds headers Hnd (collected delimeter lines) headers [] d1 eq_refl)
    as (d2 & Hunwrap & Hd2).
  { eapply holds_ext; [exact Hd1|]. intros j _. reflexivity. }
  rewrite Hunwrap. f_equal. now apply holds_all_read_table.
Qed.

End CsvReaderFacts.

Module CsvReaderExamples.

Import Csv CsvSpec CsvExamples.
Local Open Scope string_scope.

Definition nl : string := String PyStr.newline "".

(** Reading the text that [dict_to_csv] wrote for [{"a": [1, 2], "b": [3]}]
    gives [{"a": [1.0, 2.0], "b": 3.0}]: the padding of the short column is
    lost and its single value is unwrapped. *)
Lemma csv_to_dict_reads_written_table :
  Dict.get (files_after (dict_to_csv str_int anywhere table "t.csv" [])) "t.csv"
    = Some table_text /\
  PyStr.readlines table_text = ("a,b" ++ nl) :: ["1,3" ++ nl; "2," ++ nl] /\
  NoDup (fields_of PyStr.comma ("a,b" ++ nl)) /\
  Forall (fun line => (length (fields_of PyStr.comma ("a,b" ++ nl))
                       <= length (fields_of PyStr.comma line))%nat)
         ["1,3" ++ nl; "2," ++ nl] /\
  csv_to_dict (files_after (dict_to_csv str_int anywhere table "t.csv" [])) "t.csv" PyStr.comma
  = Ok [("a", ListOf [CFloat (PyFloat.lit "1.0"); CFloat (PyFloat.lit "2.0")]);
        ("b", Scalar (CFloat (PyFloat.lit "3.0")))].
Proof.
  assert (H1 : Dict.get (files_after (dict_to_csv str_int anywhere table "t.csv" [])) "t.csv"
               = Some table_text) by reflexivity.
  assert (H2 : PyStr.readlines table_text = ("a,b" ++ nl) :: ["1,3" ++ nl; "2," ++ nl])
    by reflexivity.
  assert (H3 : NoDup (fields_of PyStr.comma ("a,b" ++ nl))).
  { repeat constructor; cbn; intuition discriminate. }
  assert (H4 : Forall (fun line => (length (fields_of PyStr.comma ("a,b" ++ nl))
                                    <= length (fields_of PyStr.comma line))%nat)
                      ["1,3" ++ nl; "2," ++ nl]).
  { repeat constructor. }
  repeat (split; [assumption|]).
  exact (CsvReaderFacts.csv_to_dict_collects _ "t.csv" table_text _ _ PyStr.comma H1 H2 H3 H4).
Defined.

End CsvReaderExamples.

(** ** [round_sf] on the values of the specification *)

Module RoundSfFacts.

Local Open Scope string_scope.

(** C4. [round_sf] writes the value with the ["g"] format at [sf]
    significant digits and reads the text back as a float:
    [round_sf(123456, 3)] goes through the text [1.23e+05] and is the float
    [123000.0], and [round_sf(0.0004567, 2)] goes through the text
    [0.00046] and is the float [0.00046]; neither float is a NaN, so each
    is [==] to itself in Python. *)
Theorem round_sf_examples :
  format_sf (PyInt 123456) 3 = Ok "1.23e+05" /\
  round_sf (PyInt 123456) 3 = Ok (PyFloat.lit "123000.0") /\
  PyFloat.eqb (PyFloat.lit "123000.0") (PyFloat.lit "123000.0") = true /\
  format_sf (PyFloat (PyFloat.lit "0.0004567")) 2 = Ok "0.00046" /\
  round_sf (PyFloat (PyFloat.lit "0.0004567")) 2 = Ok (PyFloat.lit "0.00046") /\
  PyFloat.eqb (PyFloat.lit "0.00046") (PyFloat.lit "0.00046") = true.
Proof. repeat split; vm_compute; reflexivity. Qed.

End RoundSfFacts.

(** ** [itertools.product] *)

Module ProductFacts.

Section Facts.

Context {A : Type}.

(** One combination per choice of an element in every domain. *)
Lemma product_length (param_list : list (list A)) :
  length (product param_list) = fold_right Nat.mul 1%nat (map (@length A) param_list).
Proof.
  induction param_list as [|domain rest IH]; [reflexivity|].
  cbn [product map fold_right]. rewrite <- IH.
  induction domain as [|x domain IHd]; [reflexivity|].
  cbn [flat_map]. rewrite length_app, length_map, IHd. cbn. lia.
Qed.

(** The combinations are exactly the lists that pick, position by
    position, an element of the domain declared at that position. *)
Lemma product_in (param_list : list (list A)) (c : list A) :
  In c (product param_list) <-> Forall2 (fun x domain => In x domain) c param_list.
Proof.
  revert c. induction param_list as [|domain rest IH]; intros c; cbn [product].
  - split.
    + intros [<-|[]]. constructor.
    + intros H. inversion H. now left.
  - rewrite in_flat_map. split.
    + intros (x & Hx & Hc). apply in_map_iff in Hc. destruct Hc as (c' & <- & Hc').
      constructor; [exact Hx | now apply IH].
    + intros H. inversion H as [|x domain' c' rest' Hx Hc']; subst.
      exists x. split; [exact Hx|]. apply in_map. now apply IH.
Qed.

Lemma NoDup_map_cons (x : A) (l : list (list A)) : NoDup l -> NoDup (map (cons x) l).
Proof.
  induction 1 as [|c l Hc Hl IH]; cbn; constructor; [|exact IH].
  intros Hin. apply in_map_iff in Hin. destruct Hin as (c' & Heq & Hin).
  injection Heq as ->. contradiction.
Qed.

(** No combination comes twice when no domain repeats a value. *)
Lemma product_nodup (param_list : list (list A)) :
  Forall (@NoDup A) param_list -> NoDup (product param_list).
Proof.
  induction 1 as [|domain rest Hd Hrest IH]; cbn [product].
  - repeat constructor. intros [].
  - induction Hd as [|x domain Hx Hd IHd]; cbn [flat_map]; [constructor|].
    apply NoDup_app; [| exact IHd |].
    + now apply NoDup_map_cons.
    + intros c Hin. apply in_map_iff in Hin. destruct Hin as (c' & <- & _).
      intros Hin'. apply in_flat_map in Hin'. destruct Hin' as (y & Hy & Hc).
      apply in_map_iff in Hc. destruct Hc as (c'' & Heq & _).
      injection Heq as -> _. contradiction.
Qed.

(** Every combination has one value per domain. *)
Lemma product_width (param_list : list (list A)) (c : list A) :
  In c (product param_list) -> length c = length param_list.
Proof. intros H. apply product_in in H. exact (Forall2_length H). Qed.

End Facts.

End ProductFacts.

(** ** The names of the result files *)

Module PathFacts.

Import PyStr PyStrFacts.
Local Open Scope string_scope.

(** A text of decimal digits, by the standard library's reader. *)
Definition digits (s : string) : Prop := NilEmpty.uint_of_string s <> None.

(** A character that is not a decimal digit. *)
Definition nondigit (c : ascii) : Prop := forall d, uint_of_char c d = None.

Lemma append_cancel_l (p a c : string) : p ++ a = p ++ c -> a = c.
Proof. induction p as [|x p IH]; cbn; [auto|]. intros H. injection H as H. auto. Qed.

Lemma digits_tail (c : ascii) (s : string) : digits (String c s) -> digits s /\ ~ nondigit c.
Proof.
  unfold digits, nondigit. cbn. destruct (NilEmpty.uint_of_string s) as [u|].
  - intros H. split; [discriminate|]. intros Hn. now rewrite Hn in H.
  - intros H. now destruct H.
Qed.

(** Two digit texts followed by texts that start with a non-digit are
    equal as soon as the whole texts are. *)
Lemma digits_prefix_unique (a : string) :
  forall (c : string) (x y : ascii) (s t : string),
    digits a -> digits c -> nondigit x -> nondigit y ->
    a ++ String x s = c ++ String y t -> a = c.
Proof.
  induction a as [|k a IH]; intros [|k' c] x y s t Ha Hc Hx Hy Heq; cbn in Heq.
  - reflexivity.
  - injection Heq as -> _. apply digits_tail in Hc. now destruct Hc.
  - injection Heq as -> _. apply digits_tail in Ha. now destruct Ha.
  - injection Heq as -> Heq. f_equal.
    apply digits_tail in Ha. apply digits_tail in Hc.
    apply (IH c x y s t); tauto.
Qed.

(** The number a digit text denotes, leading zeros allowed. *)
Definition value_of (s : string) : option Z :=
  option_map Z.of_uint (NilEmpty.uint_of_string s).

Lemma value_of_int (z : Z) : 0 <= z -> value_of (of_int z) = Some z.
Proof.
  intros Hz. unfold value_of, of_int.
  pose proof (DecimalZ.of_to z) as Hof.
  destruct (Z.to_int z) as [u|u] eqn:Hu.
  - cbn [NilZero.string_of_int]. unfold NilZero.string_of_uint.
    destruct u; cbn [NilEmpty.uint_of_string uint_of_char option_map];
      try (rewrite NilEmpty.usu; cbn [uint_of_char option_map]);
      f_equal; exact Hof.
  - exfalso. destruct z as [|p|p]; cbn in Hu; try discriminate; lia.
Qed.

Lemma value_of_zeros (n : nat) (s : string) :
  value_of (replicate n "0"%char ++ s) = value_of s.
Proof.
  induction n as [|n IH]; cbn; [reflexivity|].
  unfold value_of in *. cbn.
  destruct (NilEmpty.uint_of_string (replicate n "0"%char ++ s)) as [u|];
    destruct (NilEmpty.uint_of_string s) as [u'|]; cbn in *; try discriminate; try reflexivity.
  rewrite <- IH. reflexivity.
Qed.

Lemma of_int_starts_with_digit (z : Z) :
  0 <= z -> exists c rest, of_int z = String c rest /\
                           Ascii.eqb c "+"%char = false /\ Ascii.eqb c "-"%char = false.
Proof.
  intros Hz. pose proof (value_of_int z Hz) as Hv. unfold value_of in Hv.
  destruct (of_int z) as [|c rest] eqn:Hs.
  - cbn in Hv. injection Hv as <-.
    unfold of_int in Hs. cbn in Hs. discriminate.
  - exists c, rest. split; [reflexivity|].
    cbn in Hv. destruct (NilEmpty.uint_of_string rest) as [u|]; [|discriminate].
    split; destruct (Ascii.eqb_spec c "+"%char), (Ascii.eqb_spec c "-"%char);
      subst; try reflexivity; cbn in Hv; discriminate.
Qed.

Lemma zfill_digits (width : nat) (z : Z) :
  0 <= z -> zfill width (of_int z) = replicate (width - String.length (of_int z)) "0"%char ++ of_int z.
Proof.
  intros Hz. destruct (of_int_starts_with_digit z Hz) as (c & rest & Hs & Hplus & Hminus).
  unfold zfill. rewrite Hs, Hplus, Hminus. reflexivity.
Qed.

Section Paths.

Variable index_1 index_2 : Z.

Lemma value_of_index_str (i : nat) :
  value_of (Sweep.index_str i) = Some (Z.of_nat i + 1).
Proof.
  unfold Sweep.index_str. rewrite zfill_digits by lia.
  rewrite value_of_zeros. apply value_of_int. lia.
Qed.

Lemma index_str_digits (i : nat) : digits (Sweep.index_str i).
Proof.
  pose proof (value_of_index_str i) as H. unfold value_of in H. unfold digits.
  destruct (NilEmpty.uint_of_string (Sweep.index_str i)); [discriminate | discriminate].
Qed.

(** The part of every path before the ordinal. *)
Definition prefix : string :=
  "results/" ++ of_int index_1 ++ "_" ++ of_int index_2 ++ "_".

Lemma results_path_prefix (i : nat) :
  Sweep.results_path index_1 index_2 i = prefix ++ Sweep.index_str i.
Proof.
  unfold Sweep.results_path, prefix. now rewrite !append_assoc.
Qed.

Lemma path_seen_split (i : nat) (s : seen) :
  exists (x : ascii) (rest : string),
    nondigit x /\
    Sweep.path_seen index_1 index_2 i s = prefix ++ Sweep.index_str i ++ String x rest.
Proof.
  destruct s as [|[r|]]; cbn [Sweep.path_seen]; rewrite results_path_prefix, append_assoc.
  - exists "_"%char, "timeout.csv". split; [intros [d|]; reflexivity | reflexivity].
  - exists "."%char, "csv". split; [intros [d|]; reflexivity | reflexivity].
  - exists "_"%char, "failed.csv". split; [intros [d|]; reflexivity | reflexivity].
Qed.

(** The path of a trial names its index, whatever the trial found. *)
Lemma path_seen_inj (i j : nat) (s t : seen) :
  Sweep.path_seen index_1 index_2 i s = Sweep.path_seen index_1 index_2 j t -> i = j.
Proof.
  destruct (path_seen_split i s) as (x & rs & Hx & ->).
  destruct (path_seen_split j t) as (y & rt & Hy & ->).
  intros Heq. apply append_cancel_l in Heq.
  apply digits_prefix_unique in Heq; auto using index_str_digits.
  apply (f_equal value_of) in Heq. rewrite !value_of_index_str in Heq.
  injection Heq as Heq. lia.
Qed.

End Paths.

End PathFacts.

(** ** More facts about dicts: filling and merging *)

Module DictUpdateFacts.

Import Dict DictFacts.

Section Facts.

Context {V : Type}.
Implicit Types (d : Dict.t V) (k : string) (v : V).

Lemma set_fresh d k v : ~ In k (keys d) -> set d k v = d ++ [(k, v)].
Proof.
  induction d as [|[k' v'] d IH]; cbn; [reflexivity|].
  intros Hnin. destruct (String.eqb k' k) eqn:E.
  - apply String.eqb_eq in E. exfalso. apply Hnin. now left.
  - f_equal. apply IH. intros Hin. apply Hnin. now right.
Qed.

(** Pairs with fresh, distinct keys are appended as they are. *)
Lemma update_fresh (pairs : list (string * V)) :
  forall d, NoDup (keys d ++ keys pairs) -> update d pairs = d ++ pairs.
Proof.
  unfold update.
  induction pairs as [|[k v] pairs IH]; intros d Hnd; cbn.
  - now rewrite app_nil_r.
  - cbn in Hnd. rewrite set_fresh.
    + rewrite IH; [now rewrite <- app_assoc|].
      unfold keys in *. rewrite map_app, <- app_assoc. exact Hnd.
    + apply NoDup_remove_2 in Hnd. intros Hin. apply Hnd. apply in_or_app. now left.
Qed.

Lemma of_pairs_fresh (pairs : list (string * V)) :
  NoDup (keys pairs) -> of_pairs pairs = pairs.
Proof. intros H. unfold of_pairs. now rewrite update_fresh. Qed.

End Facts.

Lemma keys_combine {V : Type} (names : list string) (vs : list V) :
  length names = length vs -> keys (combine names vs) = names.
Proof.
  revert vs. induction names as [|k names IH]; intros [|v vs] Hlen; cbn in *;
    try discriminate; [reflexivity|].
  f_equal. apply IH. now injection Hlen.
Qed.

End DictUpdateFacts.

(** ** [get_grain_dict] on a history that has every grain asked for *)

Module GrainFacts.

Import Dict DictFacts Grains LoopFacts.

Lemma append_to_ok (d : Dict.t (list PyFloat.float)) (key : string) (x : PyFloat.float) :
  In key (keys d) ->
  exists d', append_to d key x = Ok d' /\ keys d' = keys d.
Proof.
  intros Hin. destruct (in_keys_get d key Hin) as [l Hl].
  unfold append_to, item. rewrite Hl. cbn.
  eexists. split; [reflexivity|]. now apply keys_set_present.
Qed.

Lemma first_ok {A : Type} (l : list A) : l <> [] -> exists x, first l = Ok x.
Proof. destruct l as [|x l]; [congruence|]. intros _. now exists x. Qed.

Lemma final_ok {A : Type} (l : list A) : l <> [] -> exists x, final l = Ok x.
Proof.
  intros Hne. unfold final. destruct (rev l) as [|x r] eqn:Hrev.
  - apply (f_equal (@rev A)) in Hrev. rewrite rev_involutive in Hrev. contradiction.
  - now exists x.
Qed.

Lemma trajectory_ok (history : list (list euler)) (i : nat) :
  history <> [] ->
  Forall (fun state => (i < length state)%nat) history ->
  exists phi_1 Phi phi_2,
    trajectory history i = Ok (phi_1, Phi, phi_2) /\
    phi_1 <> [] /\ Phi <> [] /\ phi_2 <> [].
Proof.
  intros Hne Hall. unfold trajectory.
  destruct (mapM_total (fun state => of_option IndexError (nth_error state i)) history)
    as (eulers & Hm & Hlen).
  { intros state Hin. rewrite Forall_forall in Hall. specialize (Hall state Hin).
    destruct (nth_error state i) as [e|] eqn:He; [now exists e|].
    apply nth_error_None in He. lia. }
  rewrite Hm. cbn [bind]. do 3 eexists. split; [reflexivity|].
  destruct eulers as [|e eulers]; [destruct history; [congruence | discriminate]|].
  cbn. repeat split; discriminate.
Qed.

(** The six keys every grain dict has, in the order of lines 165-166. *)
Definition grain_keys : list string := keys empty_grain_dict.

Lemma add_grain_ok (history : list (list euler)) (grain_dict : Dict.t (list PyFloat.float))
  (i : nat) :
  history <> [] ->
  Forall (fun state => (i < length state)%nat) history ->
  keys grain_dict = grain_keys ->
  exists d', add_grain history grain_dict i = Ok d' /\ keys d' = grain_keys.
Proof.
  intros Hne Hall Hkeys. unfold add_grain.
  destruct (trajectory_ok history i Hne Hall) as (p1 & p & p2 & Ht & H1 & H & H2).
  rewrite Ht. cbn [bind].
  destruct (first_ok p1 H1) as [a1 ->]. destruct (final_ok p1 H1) as [b1 ->].
  destruct (first_ok p H) as [a ->]. destruct (final_ok p H) as [b ->].
  destruct (first_ok p2 H2) as [a2 ->]. destruct (final_ok p2 H2) as [b2 ->].
  cbn [bind].
  destruct (append_to_ok grain_dict "phi_1_start" a1) as (d1 & -> & K1);
    [rewrite Hkeys; cbn; tauto|]. cbn [bind].
  destruct (append_to_ok d1 "phi_1_end" b1) as (d2 & -> & K2);
    [rewrite K1, Hkeys; cbn; tauto|]. cbn [bind].
  destruct (append_to_ok d2 "Phi_start" a) as (d3 & -> & K3);
    [rewrite K2, K1, Hkeys; cbn; tauto|]. cbn [bind].
  destruct (append_to_ok d3 "Phi_end" b) as (d4 & -> & K4);
    [rewrite K3, K2, K1, Hkeys; cbn; tauto|]. cbn [bind].
  destruct (append_to_ok d4 "phi_2_start" a2) as (d5 & -> & K5);
    [rewrite K4, K3, K2, K1, Hkeys; cbn; tauto|]. cbn [bind].
  destruct (append_to_ok d5 "phi_2_end" b2) as (d6 & -> & K6);
    [rewrite K5, K4, K3, K2, K1, Hkeys; cbn; tauto|].
  exists d6. split; [reflexivity|]. congruence.
Qed.

(** [get_grain_dict] returns, with its six keys, when the history is not
    empty and every state has an orientation for every index asked for. *)
Lemma get_grain_dict_ok (history : list (list euler)) (indexes : list nat) :
  history <> [] ->
  Forall (fun state => Forall (fun i => (i < length state)%nat) indexes) history ->
  exists d, get_grain_dict history indexes = Ok d /\ keys d = grain_keys.
Proof.
  intros Hne Hall. unfold get_grain_dict.
  assert (Hgen : forall d0, keys d0 = grain_keys ->
            exists d, foldM (add_grain history) indexes d0 = Ok d /\ keys d = grain_keys).
  { induction indexes as [|i indexes IH]; intros d0 Hk; cbn.
    - now exists d0.
    - destruct (add_grain_ok history d0 i Hne) as (d1 & -> & Hk1); [|exact Hk|].
      + rewrite Forall_forall in *. intros state Hin.
        specialize (Hall state Hin). now inversion Hall.
      + cbn [bind]. apply IH; [|exact Hk1].
        rewrite Forall_forall in *. intros state Hin.
        specialize (Hall state Hin). now inversion Hall. }
  now apply Hgen.
Qed.

End GrainFacts.

(** ** [round_sf] never raises on a float

    The text the ["g"] format writes is always one [float] reads: an
    optional sign, digits, an optional fraction and an optional exponent,
    or one of the words [inf] and [nan]. *)

Module RoundSfTotal.

Import PyFloat.

(** *** Characters *)

Definition dig (c : ascii) : Prop := is_digit c = true.

Lemma dig_facts (c : ascii) :
  dig c ->
  is_space c = false /\ lower c = c /\
  Ascii.eqb c "_" = false /\ Ascii.eqb c "." = false /\
  Ascii.eqb c "-" = false /\ Ascii.eqb c "+" = false /\
  Ascii.eqb c "i" = false /\ Ascii.eqb c "n" = false /\ Ascii.eqb c "e" = false.
Proof.
  unfold dig.
  destruct c as [[] [] [] [] [] [] [] []]; cbn; intros H; try discriminate H;
    repeat split; reflexivity.
Qed.

Lemma uint_char_dig (c : ascii) (u u' : Decimal.uint) :
  uint_of_char c (Some u) = Some u' -> dig c.
Proof.
  unfold dig.
  destruct c as [[] [] [] [] [] [] [] []]; cbn; intros H; try discriminate H; reflexivity.
Qed.

(** *** Digit texts *)

Definition all_digits (s : string) : Prop := Forall dig (list_ascii_of_string s).

Lemma list_ascii_app (a c : string) :
  list_ascii_of_string (a ++ c) = list_ascii_of_string a ++ list_ascii_of_string c.
Proof. induction a as [|x a IH]; cbn; [reflexivity | now rewrite IH]. Qed.

Lemma all_digits_app (a c : string) : all_digits a -> all_digits c -> all_digits (a ++ c).
Proof. unfold all_digits. intros Ha Hc. rewrite list_ascii_app. apply Forall_app. now split. Qed.

Lemma all_digits_of_digits (s : string) : PathFacts.digits s -> all_digits s.
Proof.
  unfold PathFacts.digits, all_digits.
  induction s as [|c s IH]; cbn; [constructor|].
  destruct (NilEmpty.uint_of_string s) as [u|] eqn:Hu.
  - intros H. constructor; [|apply IH; discriminate].
    destruct (uint_of_char c (Some u)) as [u'|] eqn:Hc; [|congruence].
    now apply uint_char_dig with u u'.
  - cbn. congruence.
Qed.

Lemma of_int_digits (z : Z) :
  0 <= z -> all_digits (PyStr.of_int z) /\ PyStr.of_int z <> EmptyString.
Proof.
  intros Hz. pose proof (PathFacts.value_of_int z Hz) as Hv. split.
  - apply all_digits_of_digits. unfold PathFacts.digits, PathFacts.value_of in *.
    destruct (NilEmpty.uint_of_string (PyStr.of_int z)); [discriminate | discriminate].
  - destruct (PathFacts.of_int_starts_with_digit z Hz) as (c & rest & -> & _). discriminate.
Qed.

Lemma all_digits_substring (s : string) :
  all_digits s -> forall n m, all_digits (substring n m s).
Proof.
  unfold all_digits. induction s as [|c s IH]; intros Hs n m.
  - destruct n, m; constructor.
  - inversion Hs as [|? ? Hc Hs']; subst.
    destruct n as [|n]; cbn.
    + destruct m as [|m]; cbn; [constructor|]. constructor; [exact Hc|]. now apply IH.
    + now apply IH.
Qed.

Lemma substring_nonempty (s : string) (k : nat) :
  s <> EmptyString -> (0 < k)%nat -> substring 0 k s <> EmptyString.
Proof. destruct s as [|c s]; [congruence|]. destruct k; [lia|]. cbn. discriminate. Qed.

Lemma all_digits_replicate (n : nat) : all_digits (PyStr.replicate n "0").
Proof. unfold all_digits. induction n; cbn; constructor; [reflexivity | assumption]. Qed.

Lemma Forall_drop_zeros (l : list ascii) :
  Forall dig l ->
  Forall dig ((fix drop (l : list ascii) : list ascii :=
                 match l with
                 | c :: rest => if Ascii.eqb c "0" then drop rest else l
                 | [] => []
                 end) l).
Proof.
  induction 1 as [|c l Hc Hl IH]; [constructor|].
  destruct (Ascii.eqb c "0"); [exact IH | now constructor].
Qed.

Lemma all_digits_strip_zeros (s : string) : all_digits s -> all_digits (strip_zeros s).
Proof.
  unfold all_digits, strip_zeros. intros Hs.
  rewrite list_ascii_of_string_of_list_ascii.
  apply Forall_rev. apply Forall_drop_zeros. now apply Forall_rev.
Qed.

(** *** The shape of a number text *)

(** Digits, then nothing or a point and digits. *)
Inductive mantissa : list ascii -> list ascii -> list ascii -> Prop :=
| mantissa_int ip : ip <> [] -> Forall dig ip -> mantissa ip [] ip
| mantissa_frac ip fp :
    ip <> [] -> Forall dig ip -> fp <> [] -> Forall dig fp ->
    mantissa ip fp (ip ++ "."%char :: fp).

(** Nothing, or [e], a sign and digits. *)
Inductive expo : list ascii -> Prop :=
| expo_none : expo []
| expo_some (s : ascii) ed :
    s = "+"%char \/ s = "-"%char -> ed <> [] -> Forall dig ed ->
    expo ("e"%char :: s :: ed).

Lemma drop_spaces_head (c : ascii) (l : list ascii) :
  is_space c = false -> drop_spaces (c :: l) = c :: l.
Proof. intros H. cbn. now rewrite H. Qed.

(** A text that starts and ends with a character that is not a space is
    not changed by [strip]. *)
Lemma strip_same (c z : ascii) (l : list ascii) :
  is_space c = false -> is_space z = false ->
  strip (c :: l ++ [z]) = c :: l ++ [z] /\ strip [z] = [z].
Proof.
  intros Hc Hz. unfold strip. split.
  - rewrite drop_spaces_head by assumption.
    change (c :: l ++ [z]) with ((c :: l) ++ [z]).
    rewrite rev_app_distr. cbn [rev app]. rewrite drop_spaces_head by assumption.
    change (z :: rev l ++ [c]) with ([z] ++ rev (c :: l)).
    rewrite rev_app_distr, rev_involutive. reflexivity.
  - cbn. rewrite Hz. cbn. now rewrite Hz.
Qed.

Lemma more_digits_all (ds : list ascii) :
  Forall dig ds ->
  forall acc rest,
    (rest = [] \/ exists c r, rest = c :: r /\ is_digit c = false /\ Ascii.eqb c "_" = false) ->
    more_digits (ds ++ rest) acc = (rev ds ++ acc, rest).
Proof.
  induction 1 as [|d ds Hd Hds IH]; intros acc rest Hrest.
  - cbn [app rev]. destruct Hrest as [->|(c & r & -> & Hc & Hu)]; [reflexivity|].
    cbn. now rewrite Hc, Hu.
  - cbn [app more_digits]. unfold dig in Hd. rewrite Hd.
    rewrite IH by assumption. cbn [rev]. now rewrite <- app_assoc.
Qed.

Lemma digitpart_all (ds rest : list ascii) :
  ds <> [] -> Forall dig ds ->
  (rest = [] \/ exists c r, rest = c :: r /\ is_digit c = false /\ Ascii.eqb c "_" = false) ->
  digitpart (ds ++ rest) = Some (ds, rest).
Proof.
  intros Hne Hall Hrest. destruct ds as [|d ds]; [congruence|].
  inversion Hall as [|? ? Hd Hds]; subst. unfold dig in Hd.
  cbn [app digitpart]. rewrite Hd. rewrite more_digits_all by assumption.
  rewrite rev_app_distr. cbn. now rewrite rev_involutive.
Qed.

Lemma expo_stops (ex : list ascii) :
  expo ex ->
  ex = [] \/ exists c r, ex = c :: r /\ is_digit c = false /\ Ascii.eqb c "_" = false.
Proof. intros [|s ed _ _ _]; [now left|]. right. now exists "e"%char, (s :: ed). Qed.

Lemma exponent_ok (ex : list ascii) : expo ex -> exists e, exponent ex = Some e.
Proof.
  intros [|s ed Hs Hne Hall]; [now exists 0|].
  cbn [exponent]. change (Ascii.eqb (lower "e") "e") with true. cbn iota.
  pose proof (digitpart_all ed [] Hne Hall (or_introl eq_refl)) as Hd.
  rewrite app_nil_r in Hd.
  destruct Hs as [-> | ->]; cbn [sign]; cbn; rewrite Hd; eexists; reflexivity.
Qed.

Lemma number_ok (ip fp body ex : list ascii) :
  mantissa ip fp body -> expo ex -> number (body ++ ex) = Some (ip, fp, ex).
Proof.
  intros Hm Hex. pose proof (expo_stops ex Hex) as Hstop.
  destruct Hm as [ip Hne Hall | ip fp Hne Hall Hfne Hfall]; unfold number.
  - rewrite digitpart_all by assumption.
    destruct Hex as [|s ed Hs Hene Heall]; [reflexivity|].
    now change (Ascii.eqb "e" ".") with false.
  - rewrite <- app_assoc. cbn [app].
    rewrite digitpart_all; [| assumption | assumption |].
    + rewrite Ascii.eqb_refl. now rewrite digitpart_all.
    + right. now exists "."%char, (fp ++ ex).
Qed.

Lemma not_a_word (d : ascii) (l : list ascii) (w : string) :
  dig d ->
  (w = "inf" \/ w = "infinity" \/ w = "nan")%string ->
  String.eqb (string_of_list_ascii (map lower (d :: l))) w = false.
Proof.
  intros Hd Hw. destruct (dig_facts d Hd) as (_ & Hl & _ & _ & _ & _ & Hi & Hn & _).
  cbn [map string_of_list_ascii]. rewrite Hl.
  destruct Hw as [-> | [-> | ->]]; cbn [String.eqb]; now rewrite ?Hi, ?Hn.
Qed.

Lemma body_head (ip fp body : list ascii) :
  mantissa ip fp body -> exists d rest, body = d :: rest /\ dig d.
Proof.
  intros [ip' Hne Hall | ip' fp' Hne Hall _ _]; destruct ip' as [|d ip']; try congruence;
    inversion Hall; subst; eexists; eexists; (split; [reflexivity | assumption]).
Qed.

Lemma body_last (ip fp body ex : list ascii) :
  mantissa ip fp body -> expo ex ->
  exists front z, body ++ ex = front ++ [z] /\ dig z.
Proof.
  assert (Hlast : forall ds : list ascii, ds <> [] -> Forall dig ds ->
            exists front z, ds = front ++ [z] /\ dig z).
  { intros ds Hne Hall. destruct (exists_last Hne) as (front & z & ->).
    exists front, z. split; [reflexivity|].
    apply Forall_app in Hall. destruct Hall as [_ Hz]. now inversion Hz. }
  intros Hm Hex. destruct Hex as [|s ed Hs Hene Heall].
  - rewrite app_nil_r. destruct Hm as [ip Hne Hall | ip fp Hne Hall Hfne Hfall].
    + now apply Hlast.
    + destruct (Hlast fp Hfne Hfall) as (front & z & -> & Hz).
      exists (ip ++ "."%char :: front), z. split; [|exact Hz].
      now rewrite <- app_assoc.
  - destruct (Hlast ed Hene Heall) as (front & z & -> & Hz).
    exists (body ++ "e"%char :: s :: front), z. split; [|exact Hz].
    now rewrite <- app_assoc.
Qed.

(** [float] reads every text of that shape, signed or not. *)
Lemma of_string_shape (neg : bool) (ip fp body ex : list ascii) :
  mantissa ip fp body -> expo ex ->
  exists x,
    of_string (string_of_list_ascii ((if neg then ["-"%char] else []) ++ body ++ ex)) = Some x.
Proof.
  intros Hm Hex.
  destruct (body_head ip fp body Hm) as (d & rest & Hbody & Hd).
  destruct (body_last ip fp body ex Hm Hex) as (front & z & Hlast & Hz).
  destruct (dig_facts d Hd) as (Hsp & _ & _ & _ & Hminus & Hplus & _).
  destruct (dig_facts z Hz) as (Hzsp & _).
  assert (Hstrip : strip ((if neg then ["-"%char] else []) ++ body ++ ex)
                   = (if neg then ["-"%char] else []) ++ body ++ ex).
  { rewrite Hlast. destruct neg.
    - cbn [app]. now apply strip_same.
    - cbn [app]. destruct front as [|c front].
      + cbn. now apply (strip_same z z []).
      + assert (c = d).
        { rewrite Hbody in Hlast. cbn in Hlast. now injection Hlast. }
        subst c. cbn [app]. now apply strip_same. }
  assert (Hsign : sign ((if neg then ["-"%char] else []) ++ body ++ ex) = (neg, body ++ ex)).
  { destruct neg; [reflexivity|]. rewrite Hbody. cbn. now rewrite Hminus, Hplus. }
  unfold of_string. rewrite list_ascii_of_string_of_list_ascii, Hstrip, Hsign.
  assert (Hword : forall w, (w = "inf" \/ w = "infinity" \/ w = "nan")%string ->
            String.eqb (string_of_list_ascii (map lower (body ++ ex))) w = false).
  { intros w Hw. rewrite Hbody. cbn [app]. now apply not_a_word. }
  rewrite !Hword by tauto. cbn [orb].
  rewrite (number_ok ip fp body ex Hm Hex).
  destruct (exponent_ok ex Hex) as [e ->]. eexists. reflexivity.
Qed.

(** *** The texts of the ["g"] format *)

Lemma strip_zeros_cases (s : string) :
  all_digits s ->
  point_fraction s = EmptyString \/
  exists fp, list_ascii_of_string (point_fraction s) = "."%char :: fp /\
             fp <> [] /\ Forall dig fp.
Proof.
  intros Hs. unfold point_fraction.
  pose proof (all_digits_strip_zeros s Hs) as Hd.
  destruct (strip_zeros s) as [|c rest] eqn:E; [now left|].
  right. exists (list_ascii_of_string (String c rest)).
  split; [reflexivity|]. split; [discriminate | exact Hd].
Qed.

Lemma mantissa_text (ips frs : string) :
  all_digits ips -> ips <> EmptyString -> all_digits frs ->
  exists ip fp, mantissa ip fp (list_ascii_of_string (ips ++ point_fraction frs)).
Proof.
  intros Hip Hne Hfr. rewrite list_ascii_app.
  assert (Hne' : list_ascii_of_string ips <> []) by (destruct ips; [congruence | discriminate]).
  destruct (strip_zeros_cases frs Hfr) as [-> | (fp & -> & Hfne & Hfall)].
  - cbn. rewrite app_nil_r. do 2 eexists. now apply mantissa_int.
  - do 2 eexists. now apply mantissa_frac.
Qed.

Lemma fixed_text (ds : string) (X : Z) :
  all_digits ds -> ds <> EmptyString ->
  exists ip fp, mantissa ip fp (list_ascii_of_string (fixed ds X)).
Proof.
  intros Hds Hne. unfold fixed. destruct (0 <=? X) eqn:HX.
  - apply Z.leb_le in HX. apply mantissa_text.
    + now apply all_digits_substring.
    + apply substring_nonempty; [exact Hne | lia].
    + now apply all_digits_substring.
  - apply (mantissa_text "0"); [repeat constructor | discriminate |].
    apply all_digits_app; [apply all_digits_replicate | exact Hds].
Qed.

Lemma scientific_text (ds : string) (X : Z) :
  all_digits ds -> ds <> EmptyString ->
  exists ip fp body ex,
    mantissa ip fp body /\ expo ex /\
    list_ascii_of_string (scientific ds X) = body ++ ex.
Proof.
  intros Hds Hne. unfold scientific.
  destruct (mantissa_text (substring 0 1 ds)
              (substring 1 (String.length ds - 1) ds)) as (ip & fp & Hm);
    [now apply all_digits_substring | apply substring_nonempty; [exact Hne | lia]
    | now apply all_digits_substring |].
  destruct (of_int_digits (Z.abs X) (Z.abs_nonneg X)) as [Hzd Hzne].
  exists ip, fp. eexists. eexists. split; [exact Hm|].
  rewrite <- PyStrFacts.append_assoc, list_ascii_app.
  split; [|reflexivity].
  rewrite PathFacts.zfill_digits by apply Z.abs_nonneg.
  assert (Hed : all_digits (PyStr.replicate (2 - String.length (PyStr.of_int (Z.abs X))) "0"
                            ++ PyStr.of_int (Z.abs X))).
  { apply all_digits_app; [apply all_digits_replicate | exact Hzd]. }
  assert (Hene : list_ascii_of_string
                   (PyStr.replicate (2 - String.length (PyStr.of_int (Z.abs X))) "0"
                    ++ PyStr.of_int (Z.abs X)) <> []).
  { rewrite list_ascii_app. destruct (PyStr.of_int (Z.abs X)); [congruence|].
    intros H. apply app_eq_nil in H. destruct H as [_ H]. discriminate. }
  destruct (X <? 0); cbn [append list_ascii_of_string];
    apply expo_some; auto.
Qed.

Lemma round_half_even_nonneg (n d : Z) : 0 <= n -> 0 < d -> 0 <= round_half_even n d.
Proof.
  intros Hn Hd. unfold round_half_even.
  pose proof (Z.div_pos n d Hn Hd).
  destruct (2 * (n mod d) ?= d); [destruct (Z.even (n / d))| |]; lia.
Qed.

Lemma significant_nonneg (p n d : Z) : 0 < n -> 0 < d -> 0 <= fst (significant p n d).
Proof.
  intros Hn Hd. unfold significant.
  set (X := decimal_exponent n d). set (s := X - p + 1).
  assert (HD : 0 <= (if 0 <=? s then round_half_even n (d * 10 ^ s)
                     else round_half_even (n * 10 ^ (- s)) d)).
  { destruct (0 <=? s) eqn:Hs.
    - apply Z.leb_le in Hs. apply round_half_even_nonneg; [lia|].
      apply Z.mul_pos_pos; [exact Hd | now apply Z.pow_pos_nonneg].
    - apply round_half_even_nonneg; [|exact Hd].
      apply Z.mul_nonneg_nonneg; [lia | now apply Z.pow_nonneg]. }
  destruct (_ =? 10 ^ p); cbn [fst]; [now apply Z.pow_nonneg | exact HD].
Qed.

Lemma fraction_pos (m : positive) (e : Z) :
  0 < fst (fraction m e) /\ 0 < snd (fraction m e).
Proof.
  unfold fraction. destruct (0 <=? e) eqn:He; cbn [fst snd].
  - apply Z.leb_le in He. split; [|lia].
    apply Z.mul_pos_pos; [lia | now apply Z.pow_pos_nonneg].
  - apply Z.leb_gt in He. split; [lia|]. apply Z.pow_pos_nonneg; lia.
Qed.

(** Whatever the float and the precision, [float] reads the text that the
    ["g"] format writes. *)
Lemma format_g_parses (p : Z) (x : float) : exists y, of_string (format_g p x) = Some y.
Proof.
  destruct x as [neg | neg | | neg m e].
  - destruct neg; eexists; vm_compute; reflexivity.
  - destruct neg; eexists; vm_compute; reflexivity.
  - eexists; vm_compute; reflexivity.
  - unfold format_g.
    destruct (fraction m e) as [n d] eqn:Hf.
    destruct (fraction_pos m e) as [Hn Hd]. rewrite Hf in Hn, Hd. cbn [fst snd] in Hn, Hd.
    pose proof (significant_nonneg (Z.max p 1) n d Hn Hd) as HD.
    destruct (significant (Z.max p 1) n d) as [D X]. cbn [fst] in HD.
    destruct (of_int_digits D HD) as [Hds Hne].
    set (ds := PyStr.of_int D) in *.
    assert (Hgoal : forall body_text : string,
              (exists ip fp body ex, mantissa ip fp body /\ expo ex /\
                                     list_ascii_of_string body_text = body ++ ex) ->
              exists y, of_string ((if neg then "-" else "") ++ body_text) = Some y).
    { intros body_text (ip & fp & body & ex & Hm & Hex & Hl).
      destruct (of_string_shape neg ip fp body ex Hm Hex) as [y Hy].
      exists y. rewrite <- Hy. f_equal.
      rewrite <- Hl. destruct neg; cbn [app]; cbn [string_of_list_ascii];
        now rewrite string_of_list_ascii_of_string. }
    destruct ((-4 <=? X) && (X <? Z.max p 1))%bool; apply Hgoal.
    + destruct (fixed_text ds X Hds Hne) as (ip & fp & Hm).
      exists ip, fp, (list_ascii_of_string (fixed ds X)), []. rewrite app_nil_r.
      repeat split; [exact Hm | constructor].
    + exact (scientific_text ds X Hds Hne).
Qed.

(** [round_sf] returns a float for every float and every precision a
    format may carry. *)
Lemma round_sf_float_total (x : float) (sf : Z) :
  0 <= sf <= max_precision -> exists y, round_sf (PyFloat x) sf = Ok y.
Proof.
  intros [Hlo Hhi]. unfold round_sf, format_sf.
  replace ((sf <? 0) || (max_precision <? sf))%bool with false
    by (symmetry; apply orb_false_iff; split; [apply Z.ltb_ge | apply Z.ltb_ge]; lia).
  cbn [bind]. destruct (format_g_parses sf x) as [y ->]. now exists y.
Qed.

(** [round_sf] raises on no float, whatever the number of significant
    figures from 0 up to the largest precision a format takes. *)
Theorem round_sf_returns_on_floats (x : float) (sf : Z) :
  0 <= sf <= 2147483647 -> exists y, round_sf (PyFloat x) sf = Ok y.
Proof. exact (round_sf_float_total x sf). Qed.

Lemma round_sf_returns_on_floats_witness :
  0 <= 5 <= 2147483647 /\ exists y, round_sf (PyFloat (lit "0.0004567")) 5 = Ok y.
Proof.
  split; [lia|]. apply (round_sf_returns_on_floats (lit "0.0004567") 5). lia.
Defined.

End RoundSfTotal.

(** ** Python's [>] on floats is never true both ways *)

Module FloatOrder.

Lemma compare_cont_flip (m1 m2 : positive) :
  Pos.compare_cont Eq m2 m1 = CompOpp (Pos.compare_cont Eq m1 m2).
Proof. exact (Pos.compare_antisym m1 m2). Qed.

Lemma SFcompare_flip (x y : spec_float) :
  SFcompare y x = option_map CompOpp (SFcompare x y).
Proof.
  destruct x as [sx|sx| |sx mx ex], y as [sy|sy| |sy my ey]; cbn;
    try reflexivity;
    try (destruct sx; reflexivity); try (destruct sy; reflexivity);
    try (destruct sx, sy; reflexivity).
  destruct sx, sy; try reflexivity; f_equal;
    rewrite (Z.compare_antisym ex ey);
    destruct (ex ?= ey); cbn; try reflexivity;
    rewrite compare_cont_flip; try reflexivity;
    now rewrite CompOpp_involutive.
Qed.

Lemma gtb_asym (a c : PyFloat.float) :
  PyFloat.gtb a c = true -> PyFloat.gtb c a = false.
Proof.
  unfold PyFloat.gtb, SFltb. rewrite (SFcompare_flip c a).
  destruct (SFcompare c a) as [[]|]; cbn; congruence.
Qed.

(** [get_top] on floats, as the script calls it on the grain weights
    (line 242): no returned value is followed by a greater one, NaN
    included, and every returned value is the input element at the index
    returned with it. *)
Theorem get_top_floats_descending_and_indexed
  (value_list : list PyFloat.float) (num_values : Z) :
  let top := GetTop.get_top PyFloat.ltb PyFloat.gtb value_list num_values in
  Sorted (fun a c => PyFloat.gtb c a = false) (fst top) /\
  Forall2 (fun v k => nth_error value_list k = Some v) (fst top) (snd top).
Proof.
  cbv zeta.
  destruct (GetTopFacts.get_top_keeps PyFloat.ltb PyFloat.gtb gtb_asym value_list num_values)
    as [Hidx Hdesc].
  split; [exact Hdesc | exact Hidx].
Qed.

End FloatOrder.

(** ** [get_top] on Python numbers *)

Module NumberOrder.

Import GetTop GetTopFacts.

Lemma number_compare_flip (a b : number) :
  PyNumber.compare b a = option_map CompOpp (PyNumber.compare a b).
Proof.
  destruct a as [x|x], b as [y|y]; cbn [PyNumber.compare].
  - cbn. now rewrite (Z.compare_antisym x y).
  - reflexivity.
  - now destruct (PyNumber.compare_int_float y x) as [[]|].
  - apply FloatOrder.SFcompare_flip.
Qed.

(** [>] is never true both ways. *)
Lemma number_gtb_asym (a b : number) : PyNumber.gtb a b = true -> PyNumber.gtb b a = false.
Proof.
  unfold PyNumber.gtb, PyNumber.ltb. rewrite (number_compare_flip a b).
  destruct (PyNumber.compare a b) as [[]|]; cbn; congruence.
Qed.

(** Two numbers stand in an order unless one of them is NaN. *)
Lemma compare_defined (a b : number) :
  PyNumber.is_nan a = false -> PyNumber.is_nan b = false ->
  exists c, PyNumber.compare a b = Some c.
Proof.
  destruct a as [x|x], b as [y|y]; cbn; intros Ha Hb.
  - eexists. reflexivity.
  - destruct y; try discriminate; cbn; eexists; reflexivity.
  - destruct x; try discriminate; cbn; eexists; reflexivity.
  - destruct x, y; try discriminate; cbn; eexists; reflexivity.
Qed.

(** A number that is not NaN is equal to itself. *)
Lemma number_eqb_refl (a : number) : PyNumber.is_nan a = false -> PyNumber.eqb a a = true.
Proof.
  unfold PyNumber.eqb. destruct a as [x|x]; cbn.
  - intros _. now rewrite Z.compare_refl.
  - destruct x as [s|s| |s m e]; cbn; try discriminate; intros _.
    + reflexivity.
    + now destruct s.
    + destruct s; rewrite Z.compare_refl, Pos.compare_cont_refl; reflexivity.
Qed.

(** Between two numbers neither of which is NaN, "not less" is [>=]. *)
Lemma not_gtb_geb (a b : number) :
  PyNumber.is_nan a = false -> PyNumber.is_nan b = false ->
  PyNumber.gtb b a = false -> PyNumber.geb a b = true.
Proof.
  intros Ha Hb. unfold PyNumber.gtb, PyNumber.ltb, PyNumber.geb.
  destruct (compare_defined a b Ha Hb) as [c ->]. now destruct c.
Qed.

(** Only numbers that are not NaN stand in an order. *)
Lemma compare_some (a b : number) (c : comparison) :
  PyNumber.compare a b = Some c ->
  PyNumber.is_nan a = false /\ PyNumber.is_nan b = false.
Proof.
  destruct a as [x|x], b as [y|y]; cbn.
  - now split.
  - destruct y; cbn; try discriminate; now split.
  - destruct x; cbn; try discriminate; now split.
  - destruct x, y; cbn; try discriminate; now split.
Qed.

Lemma gtb_not_nan (a b : number) :
  PyNumber.gtb a b = true -> PyNumber.is_nan a = false /\ PyNumber.is_nan b = false.
Proof.
  unfold PyNumber.gtb, PyNumber.ltb.
  destruct (PyNumber.compare b a) as [c|] eqn:Hc; [|discriminate].
  intros _. destruct (compare_some b a c Hc). now split.
Qed.

Lemma adjacent_nth {V : Type} (R : V -> V -> Prop) (l : list V) :
  Sorted R l ->
  forall i a b, nth_error l i = Some a -> nth_error l (S i) = Some b -> R a b.
Proof.
  induction 1 as [|x l Hl IH Hhd]; intros i a b Ha Hb.
  - destruct i; discriminate.
  - destruct i as [|i]; cbn in Ha, Hb.
    + injection Ha as <-. destruct Hhd as [|y l Hxy]; [discriminate|].
      cbn in Hb. now injection Hb as <-.
    + now apply (IH i).
Qed.

(** *** A value that stands in no order is kept alone

    A value enters a result that holds another only by being greater than
    a kept value, so NaN is never kept next to another value. *)

Section Settled.

Context {V : Type}.
Variable lt gt : V -> V -> bool.

(** The values that stand in the order. *)
Variable ordered : V -> Prop.
Hypothesis gt_ordered : forall a b, gt a b = true -> ordered a /\ ordered b.

Definition settled (l : list V) : Prop := (length l <= 1)%nat \/ Forall ordered l.

Lemma Forall_inserted (j : nat) (x : V) (l : list V) :
  ordered x -> Forall ordered l -> Forall ordered (PyList.insert j x l).
Proof.
  intros Hx Hl. unfold PyList.insert.
  rewrite <- (firstn_skipn j l) in Hl. apply Forall_app in Hl as [Hfirst Hrest].
  apply Forall_app. split; [exact Hfirst | now constructor].
Qed.

Lemma Forall_popped (l : list V) : Forall ordered l -> Forall ordered (PyList.pop_last l).
Proof.
  unfold PyList.pop_last. induction 1 as [|a l Ha Hl IH]; [constructor|].
  destruct l as [|b l]; [constructor|]. constructor; [exact Ha | exact IH].
Qed.

Lemma insert_sorted_settled (value : V) (i : nat) (t : tops) :
  settled (fst t) -> settled (fst (insert_sorted gt value i t)).
Proof.
  intros Hset. unfold insert_sorted.
  destruct (first_smaller gt value (fst t)) as [j|] eqn:Hfs; [|exact Hset].
  destruct (first_smaller_split gt _ _ _ Hfs) as (l1 & x & l2 & Hl & _ & Hx & _).
  destruct (gt_ordered value x Hx) as [Hvalue Hkept].
  cbn [fst]. right. apply Forall_inserted; [exact Hvalue|].
  destruct Hset as [Hshort|Hall]; [|exact Hall].
  rewrite Hl in *. rewrite length_app in Hshort. cbn [length] in Hshort.
  destruct l1 as [|a l1]; [|cbn [length] in Hshort; lia].
  destruct l2 as [|c l2]; [|cbn [length] in Hshort; lia].
  repeat constructor. exact Hkept.
Qed.

Lemma trim_settled (num_values : Z) (t : tops) :
  settled (fst t) -> settled (fst (trim (V := V) num_values t)).
Proof.
  intros Hset. unfold trim.
  destruct (Z.of_nat (length (fst t)) >? num_values); [|exact Hset].
  cbn [fst]. destruct Hset as [Hshort|Hall].
  - left. rewrite length_pop_last. lia.
  - right. now apply Forall_popped.
Qed.

Lemma step_settled (num_values : Z) (t : tops) (i : nat) (value : V) :
  settled (fst t) -> settled (fst (step lt gt num_values t i value)).
Proof.
  intros Hset. unfold step.
  destruct (rev (fst t)) as [|last rest] eqn:Hrev.
  - left. apply (f_equal (@length V)) in Hrev. rewrite length_rev in Hrev.
    unfold PyList.append. cbn [fst]. rewrite length_app. cbn [length] in *. lia.
  - destruct (lt value last && (Z.of_nat (length (fst t)) =? num_values)); [exact Hset|].
    apply trim_settled. now apply insert_sorted_settled.
Qed.

Lemma loop_settled (num_values : Z) :
  forall (rest : list V) (i : nat) (t : tops),
    settled (fst t) -> settled (fst (loop lt gt num_values rest i t)).
Proof.
  induction rest as [|value rest IH]; intros i t Hset; cbn [loop]; [exact Hset|].
  apply IH. now apply step_settled.
Qed.

Lemma get_top_settled (value_list : list V) (num_values : Z) :
  settled (fst (get_top lt gt value_list num_values)).
Proof. unfold get_top. apply loop_settled. left. cbn. lia. Qed.

End Settled.

(** C3, amended. For every list of numbers (ints and floats, NaN
    included) and every [num_values] (negative ones included), [get_top]
    returns as many indices as values; every returned value is [>=] the
    one returned after it; the value at each position is the input element
    found at the index returned at the same position; and that element is
    [==] to the value, [values[top_indices[i]] == top_values[i]], at every
    position whose value is not NaN. *)
Theorem get_top_number_descending_and_indexed (value_list : list number) (num_values : Z) :
  let top_values := fst (get_top_number value_list num_values) in
  let top_indices := snd (get_top_number value_list num_values) in
  length top_indices = length top_values /\
  (forall i a b, nth_error top_values i = Some a -> nth_error top_values (S i) = Some b ->
     PyNumber.geb a b = true) /\
  (forall i v, nth_error top_values i = Some v ->
     exists k, nth_error top_indices i = Some k /\ nth_error value_list k = Some v) /\
  (forall i k v w, nth_error top_values i = Some v -> nth_error top_indices i = Some k ->
     nth_error value_list k = Some w -> PyNumber.is_nan v = false -> PyNumber.eqb w v = true).
Proof.
  cbv zeta. unfold get_top_number.
  destruct (get_top_keeps PyNumber.ltb PyNumber.gtb number_gtb_asym value_list num_values)
    as [Hidx Hdesc].
  pose proof (get_top_settled PyNumber.ltb PyNumber.gtb
                (fun v => PyNumber.is_nan v = false) gtb_not_nan value_list num_values)
    as Hset.
  set (top := get_top PyNumber.ltb PyNumber.gtb value_list num_values) in *.
  assert (Hnth : forall i v, nth_error (fst top) i = Some v ->
            exists k, nth_error (snd top) i = Some k /\ nth_error value_list k = Some v).
  { unfold indexed in Hidx. revert Hidx. generalize (fst top) (snd top).
    induction 1 as [|a k tv ti Hak Hrest IH]; intros i v Hi.
    - destruct i; discriminate.
    - destruct i as [|i]; cbn in *.
      + injection Hi as <-. now exists k.
      + now apply IH. }
  pose proof (adjacent_nth _ _ Hdesc) as Hadj.
  split; [symmetry; exact (Forall2_length Hidx)|].
  split; [|split; [exact Hnth|]].
  - intros i a b Ha Hb.
    assert (Hnan : PyNumber.is_nan a = false /\ PyNumber.is_nan b = false).
    { destruct Hset as [Hshort|Hall].
      - assert (S i < length (fst top))%nat by (apply nth_error_Some; congruence). lia.
      - rewrite Forall_forall in Hall.
        split; apply Hall; [now apply nth_error_In with i | now apply nth_error_In with (S i)]. }
    destruct Hnan as [Hna Hnb]. apply not_gtb_geb; try assumption. now apply (Hadj i).
  - intros i k v w Hv Hk Hw Hnv. destruct (Hnth i v Hv) as (k' & Hk' & Hkv).
    assert (k' = k) by congruence. subst k'.
    assert (w = v) by congruence. subst w. now apply number_eqb_refl.
Qed.

Lemma get_top_number_descending_and_indexed_witness :
  let value_list := [PyInt 3; PyFloat (PyFloat.lit "8.5"); PyInt 5; PyFloat (PyFloat.lit "8.5")] in
  let top_values := fst (get_top_number value_list 2) in
  let top_indices := snd (get_top_number value_list 2) in
  top_values = [PyFloat (PyFloat.lit "8.5"); PyFloat (PyFloat.lit "8.5")] /\
  top_indices = [1%nat; 3%nat] /\
  length top_indices = length top_values /\
  (forall i a b, nth_error top_values i = Some a -> nth_error top_values (S i) = Some b ->
     PyNumber.geb a b = true) /\
  (forall i v, nth_error top_values i = Some v ->
     exists k, nth_error top_indices i = Some k /\ nth_error value_list k = Some v) /\
  (forall i k v w, nth_error top_values i = Some v -> nth_error top_indices i = Some k ->
     nth_error value_list k = Some w -> PyNumber.is_nan v = false -> PyNumber.eqb w v = true).
Proof.
  cbv zeta. split; [vm_compute; reflexivity|]. split; [vm_compute; reflexivity|].
  exact (get_top_number_descending_and_indexed
           [PyInt 3; PyFloat (PyFloat.lit "8.5"); PyInt 5; PyFloat (PyFloat.lit "8.5")] 2).
Defined.

(** C3 fails on the code for a list that starts with NaN: no value is
    greater than NaN and none is less, so NaN stays alone in the result,
    and the element at its returned index is not [==] to it, NaN being
    equal to nothing. *)
Lemma get_top_nan_is_not_equal :
  let nan := PyFloat S754_nan in
  let value_list := [nan; PyInt 5; PyInt 1] in
  get_top_number value_list 2 = ([nan], [0%nat]) /\
  nth_error value_list 0 = Some nan /\
  PyNumber.eqb nan nan = false /\
  ~ (forall i k v w, nth_error (fst (get_top_number value_list 2)) i = Some v ->
       nth_error (snd (get_top_number value_list 2)) i = Some k ->
       nth_error value_list k = Some w -> PyNumber.eqb w v = true).
Proof.
  cbv zeta. split; [reflexivity|]. split; [reflexivity|]. split; [reflexivity|].
  intros H.
  specialize (H 0%nat 0%nat (PyFloat S754_nan) (PyFloat S754_nan) eq_refl eq_refl eq_refl).
  discriminate.
Qed.

End NumberOrder.

(** ** The sweep loop: one file per combination *)

Module SweepFacts.

Import Dict DictFacts DictUpdateFacts Csv CsvSpec CsvWriterFacts PathFacts LoopFacts.

Section Script.

Variable index_1 index_2 : Z.
Variable weights : list PyFloat.float.
Variable opens : string -> result unit.

Lemma numbers_printable (d : Dict.t (value number)) : printable str_number number_str d.
Proof. intros k v a _ _. reflexivity. Qed.

Lemma top_indexes_in_range :
  Forall (fun i => (i < length weights)%nat) (Sweep.top_indexes weights).
Proof.
  unfold Sweep.top_indexes.
  destruct (GetTopFacts.get_top_keeps PyFloat.ltb PyFloat.gtb FloatOrder.gtb_asym weights 10)
    as [Hidx _].
  unfold GetTopFacts.indexed in Hidx.
  induction Hidx as [|v k tv ti Hk _ IH]; constructor; [|exact IH].
  apply nth_error_Some. congruence.
Qed.

Lemma rounded_ok (samples : list PyFloat.float) :
  exists l, Sweep.rounded samples = Ok l.
Proof.
  destruct (mapM_total (fun s => round_sf (PyFloat s) 5) samples) as (l & Hl & _).
  - intros s _. apply RoundSfTotal.round_sf_float_total. unfold max_precision. lia.
  - now exists l.
Qed.

(** The keys of the dict of a run that returned, after the parameters. *)
Definition data_keys : list string :=
  ["strain"; "stress"]%string ++ GrainFacts.grain_keys.

Lemma keys_scalars (d : Dict.t number) : keys (Sweep.scalars d) = keys d.
Proof. apply keys_map_values. Qed.

Lemma keys_lists (d : Dict.t (list PyFloat.float)) : keys (Sweep.lists d) = keys d.
Proof. exact (keys_map_values (fun l => ListOf (map PyFloat l)) d). Qed.

Lemma combined_dict_ok (param_dict : Dict.t number) (results : run_output) :
  Sweep.harvestable weights results ->
  NoDup (keys param_dict ++ data_keys) ->
  exists extra,
    Sweep.combined_dict weights param_dict results = Ok (Sweep.scalars param_dict ++ extra) /\
    keys extra = data_keys.
Proof.
  intros [Hne Hwide] Hnd. unfold Sweep.combined_dict.
  destruct (rounded_ok (strain results)) as [strain_list ->].
  destruct (rounded_ok (stress results)) as [stress_list ->]. cbn [bind].
  destruct (GrainFacts.get_grain_dict_ok (history results) (Sweep.top_indexes weights) Hne)
    as (grain_dict & -> & Hgk).
  { apply Forall_forall. intros state Hin. rewrite Forall_forall in Hwide.
    rewrite (Hwide state Hin). exact top_indexes_in_range. }
  cbn [bind].
  set (data := Sweep.lists [("strain"%string, strain_list); ("stress"%string, stress_list)]).
  assert (Hdk : keys (data ++ Sweep.lists grain_dict) = data_keys).
  { unfold keys. rewrite map_app. fold (keys (Sweep.lists grain_dict)).
    now rewrite keys_lists, Hgk. }
  exists (data ++ Sweep.lists grain_dict). split; [|exact Hdk].
  f_equal.
  assert (Hnd1 : NoDup (keys param_dict)) by now apply NoDup_app_remove_r in Hnd.
  assert (Hnd2 : NoDup (keys (Sweep.scalars param_dict) ++ keys data)).
  { rewrite keys_scalars. unfold data_keys in Hnd. rewrite app_assoc in Hnd.
    now apply NoDup_app_remove_r in Hnd. }
  rewrite (update_fresh (Sweep.scalars param_dict) []) by (cbn; now rewrite keys_scalars).
  cbn [app]. rewrite (update_fresh data) by exact Hnd2.
  rewrite update_fresh.
  - now rewrite <- app_assoc.
  - unfold keys at 1. rewrite map_app. fold (keys (Sweep.scalars param_dict)) (keys data).
    rewrite keys_scalars, keys_lists, Hgk, <- app_assoc. exact Hnd.
Qed.

Lemma param_names_distinct : NoDup (Model.param_names ++ data_keys).
Proof. repeat constructor; cbn; intuition discriminate. Qed.

Section Names.

Variable param_names : list string.
Hypothesis names_match : Permutation param_names Model.param_names.

Lemma names_distinct : NoDup (param_names ++ data_keys).
Proof.
  apply Permutation_NoDup with (Model.param_names ++ data_keys).
  - apply Permutation_app_tail. now apply Permutation_sym.
  - exact param_names_distinct.
Qed.

Lemma make_param_dict_combine (combination : list number) :
  length combination = length param_names ->
  Sweep.make_param_dict param_names combination = combine param_names combination /\
  keys (Sweep.make_param_dict param_names combination) = param_names.
Proof.
  intros Hlen. unfold Sweep.make_param_dict.
  assert (Hk : keys (combine param_names combination) = param_names)
    by (apply keys_combine; congruence).
  rewrite of_pairs_fresh; [now split|].
  rewrite Hk. pose proof names_distinct as Hnd. now apply NoDup_app_remove_r in Hnd.
Qed.

Lemma define_params_ok (combination : list number) :
  length combination = length param_names ->
  exists p, Model.define_params (Sweep.make_param_dict param_names combination) = Ok p.
Proof.
  intros Hlen. destruct (make_param_dict_combine combination Hlen) as [_ Hk].
  unfold Model.define_params. rewrite Hk.
  assert (Hall : forallb (fun k => existsb (String.eqb k) Model.param_names) param_names = true).
  { apply forallb_forall. intros k Hin. apply existsb_exists. exists k.
    split; [|apply String.eqb_refl].
    now apply (Permutation_in k names_match). }
  rewrite Hall.
  assert (Hget : forall name, In name Model.param_names ->
            exists v, get (Sweep.make_param_dict param_names combination) name = Some v).
  { intros name Hin. apply in_keys_get. rewrite Hk.
    apply Permutation_in with Model.param_names; [now apply Permutation_sym | exact Hin]. }
  destruct (Hget "tau_sat"%string) as [v1 ->]; [cbn; tauto|].
  destruct (Hget "b"%string) as [v2 ->]; [cbn; tauto|].
  destruct (Hget "tau_0"%string) as [v3 ->]; [cbn; tauto|].
  destruct (Hget "gamma_0"%string) as [v4 ->]; [cbn; tauto|].
  destruct (Hget "n"%string) as [v5 ->]; [cbn; tauto|].
  cbn. eexists. reflexivity.
Qed.

(** The dict of iteration [i] is built without an exception, has no key
    twice, and starts with the parameters of the combination. *)
Lemma trial_dict_ok (combination : list number) (s : seen) :
  length combination = length param_names ->
  (forall results, s = Dead (Some results) -> Sweep.harvestable weights results) ->
  exists d,
    Sweep.trial_dict weights param_names combination s = Ok d /\
    d <> [] /\ NoDup (keys d) /\
    firstn (length combination) d = Sweep.scalars (combine param_names combination).
Proof.
  intros Hlen Hgood.
  destruct (make_param_dict_combine combination Hlen) as [Hpd Hk].
  pose proof names_distinct as Hnd.
  assert (Hne : Sweep.scalars (combine param_names combination) <> []).
  { intros Hnil. apply (f_equal (@length _)) in Hnil.
    unfold Sweep.scalars in Hnil. rewrite length_map, length_combine in Hnil.
    pose proof (Permutation_length names_match) as Hl. cbn in Hl, Hnil. lia. }
  assert (Hsl : length (Sweep.scalars (combine param_names combination)) = length combination).
  { unfold Sweep.scalars. rewrite length_map, length_combine. lia. }
  unfold Sweep.trial_dict. rewrite Hpd.
  destruct s as [|[results|]].
  - exists (Sweep.scalars (combine param_names combination)). repeat split.
    + exact Hne.
    + rewrite keys_scalars, <- Hpd, Hk. now apply NoDup_app_remove_r in Hnd.
    + now rewrite <- Hsl, firstn_all.
  - destruct (combined_dict_ok (combine param_names combination) results) as (extra & Hc & Hek).
    + now apply Hgood.
    + now rewrite <- Hpd, Hk.
    + exists (Sweep.scalars (combine param_names combination) ++ extra). repeat split.
      * exact Hc.
      * intros Hnil. apply app_eq_nil in Hnil. now destruct Hnil.
      * unfold keys. rewrite map_app.
        fold (keys (Sweep.scalars (combine param_names combination))) (keys extra).
        now rewrite keys_scalars, Hek, <- Hpd, Hk.
      * rewrite <- Hsl, firstn_app, Nat.sub_diag, firstn_all. cbn. now rewrite app_nil_r.
  - exists (Sweep.scalars (combine param_names combination)). repeat split.
    + exact Hne.
    + rewrite keys_scalars, <- Hpd, Hk. now apply NoDup_app_remove_r in Hnd.
    + now rewrite <- Hsl, firstn_all.
Qed.

(** Lines 260-283 write the table of that dict to a new file, when it
    can be opened, and touch no other. *)
Lemma record_trial_ok (i : nat) (combination : list number) (s : seen) (files : filesystem)
  (d : Dict.t (value number)) :
  Sweep.trial_dict weights param_names combination s = Ok d ->
  d <> [] -> NoDup (keys d) ->
  opens (Sweep.path_seen index_1 index_2 i s) = Ok tt ->
  ~ In (Sweep.path_seen index_1 index_2 i s) (keys files) ->
  exists files',
    Sweep.record_trial index_1 index_2 weights opens i
      (Sweep.make_param_dict param_names combination) s files = (files', Ok tt) /\
    keys files' = keys files ++ [Sweep.path_seen index_1 index_2 i s] /\
    get files' (Sweep.path_seen index_1 index_2 i s) = Some (table_text number_str d) /\
    forall p, p <> Sweep.path_seen index_1 index_2 i s -> get files' p = get files p.
Proof.
  intros Hd Hne Hnd Hopen Hfresh.
  destruct (dict_to_csv_text str_number opens number_str d
              (Sweep.path_seen index_1 index_2 i s) files Hne Hnd (numbers_printable d) Hopen)
    as [Hout Hget].
  pose proof (dict_to_csv_frame str_number opens d (Sweep.path_seen index_1 index_2 i s) files)
    as Hframe.
  pose proof (dict_to_csv_keys str_number opens d (Sweep.path_seen index_1 index_2 i s) files
                Hopen) as Hk.
  rewrite keys_set_absent in Hk by exact Hfresh.
  exists (files_after (dict_to_csv str_number opens d (Sweep.path_seen index_1 index_2 i s) files)).
  split; [|now repeat split].
  unfold Sweep.trial_dict in Hd. unfold Sweep.record_trial.
  destruct s as [|[results|]].
  - injection Hd as <-. now rewrite Hout.
  - rewrite Hd. now rewrite Hout.
  - injection Hd as <-. now rewrite Hout.
Qed.

(** A trial whose file cannot be opened raises what [open] raises and
    leaves the files as they were. *)
Lemma record_trial_unopened (i : nat) (combination : list number) (s : seen)
  (files : filesystem) (d : Dict.t (value number)) (e : exn) :
  Sweep.trial_dict weights param_names combination s = Ok d ->
  opens (Sweep.path_seen index_1 index_2 i s) = Err e ->
  Sweep.record_trial index_1 index_2 weights opens i
    (Sweep.make_param_dict param_names combination) s files = (files, Err e).
Proof.
  intros Hd Hopen.
  destruct (unopened str_number opens d (Sweep.path_seen index_1 index_2 i s) files e Hopen)
    as [Hout Hfiles].
  unfold Sweep.trial_dict in Hd. unfold Sweep.record_trial.
  destruct s as [|[results|]].
  - injection Hd as <-. now rewrite Hout, Hfiles.
  - rewrite Hd. now rewrite Hout, Hfiles.
  - injection Hd as <-. now rewrite Hout, Hfiles.
Qed.

(** The loop from iteration [i] on, entered with the files of the
    iterations before it. *)
Lemma loop_ok (observe : nat -> seen) (combinations : list (list number)) :
  (forall c, In c combinations -> length c = length param_names) ->
  forall (i : nat) (files : filesystem),
    (forall k r, (i <= k)%nat -> observe k = Dead (Some r) -> Sweep.harvestable weights r) ->
    (forall k, (i <= k < i + length combinations)%nat ->
       opens (Sweep.path_seen index_1 index_2 k (observe k)) = Ok tt) ->
    keys files = map (fun j => Sweep.path_seen index_1 index_2 j (observe j)) (seq 0 i) ->
    exists files',
      Sweep.loop index_1 index_2 weights opens param_names combinations observe i files
        = (files', Ok tt) /\
      keys files' = map (fun j => Sweep.path_seen index_1 index_2 j (observe j))
                        (seq 0 (i + length combinations)%nat) /\
      (forall j, (j < i)%nat ->
         get files' (Sweep.path_seen index_1 index_2 j (observe j))
         = get files (Sweep.path_seen index_1 index_2 j (observe j))) /\
      forall k c, nth_error combinations k = Some c ->
        exists d,
          Sweep.trial_dict weights param_names c (observe (i + k)%nat) = Ok d /\
          get files' (Sweep.path_seen index_1 index_2 (i + k)%nat (observe (i + k)%nat))
            = Some (table_text number_str d) /\
          firstn (length c) d = Sweep.scalars (combine param_names c).
Proof.
  induction combinations as [|c rest IH]; intros Hwidth i files Hgood Hopen Hkeys.
  - exists files. cbn [Sweep.loop length]. rewrite Nat.add_0_r.
    repeat split; try assumption. intros [|k] c' H; discriminate.
  - assert (Hlen : length c = length param_names) by (apply Hwidth; now left).
    destruct (define_params_ok c Hlen) as [p Hp].
    destruct (trial_dict_ok c (observe i) Hlen) as (d & Hd & Hne & Hnd & Hfirst).
    { intros results Hs. exact (Hgood i results (Nat.le_refl i) Hs). }
    assert (Hfresh : ~ In (Sweep.path_seen index_1 index_2 i (observe i)) (keys files)).
    { rewrite Hkeys. intros Hin. apply in_map_iff in Hin.
      destruct Hin as (j & Heq & Hj). apply path_seen_inj in Heq.
      apply in_seq in Hj. lia. }
    assert (Hopen_i : opens (Sweep.path_seen index_1 index_2 i (observe i)) = Ok tt).
    { apply Hopen. cbn [length]. lia. }
    destruct (record_trial_ok i c (observe i) files d Hd Hne Hnd Hopen_i Hfresh)
      as (files1 & Hrec & Hk1 & Hget1 & Hframe1).
    destruct (IH (fun c' H => Hwidth c' (or_intror H)) (S i) files1) as (files' & Hloop & Hk' & Hold & Hnew).
    { intros k r Hk. apply Hgood. lia. }
    { intros k Hk. apply Hopen. cbn [length]. lia. }
    { rewrite Hk1, Hkeys, seq_S, map_app. reflexivity. }
    exists files'. cbn [Sweep.loop]. rewrite Hp, Hrec. split; [exact Hloop|].
    split; [rewrite Hk'; cbn [length]; now rewrite Nat.add_succ_r|].
    split.
    + intros j Hj. rewrite Hold by lia. apply Hframe1.
      intros Heq. apply path_seen_inj in Heq. lia.
    + intros [|k] c' Hc'; cbn in Hc'.
      * injection Hc' as <-. rewrite Nat.add_0_r. exists d.
        repeat split; try assumption.
        rewrite Hold by lia. exact Hget1.
      * rewrite Nat.add_succ_r. now apply Hnew.
Qed.

End Names.

End Script.

Lemma NoDup_map_inj {A B : Type} (f : A -> B) (l : list A) :
  (forall a a', f a = f a' -> a = a') -> NoDup l -> NoDup (map f l).
Proof.
  intros Hinj. induction 1 as [|a l Ha Hl IH]; cbn; constructor; [|exact IH].
  intros Hin. apply in_map_iff in Hin. destruct Hin as (a' & Heq & Hin).
  apply Hinj in Heq. now subst a'.
Qed.

(** C7. Take a machine on which the file of every combination can be
    opened for writing (the directory [results] exists), parameter domains
    declared under the five names that [define_params] expects (in any
    order), and let every trial that is seen to return carry a history
    with at least one state and one orientation per grain.  Whatever each
    trial is seen to do, the sweep then ends without an exception, and:
    - the combinations are the Cartesian product of the domains in
      declaration order, as many as the product of the domain sizes, each
      exactly once when no domain repeats a value;
    - the files written are, in order, one per combination: the file of
      combination [i] is named by the two indices, the ordinal [i + 1]
      padded to three digits, and [_timeout], [_failed] or nothing;
    - no two of these names are equal;
    - the file of combination [i] holds the table of the dict of that
      trial, whose first columns are the parameters of combination [i]. *)
Theorem sweep_one_file_per_combination
  (index_1 index_2 : Z) (weights : list PyFloat.float) (opens : string -> result unit)
  (all_params_dict : Dict.t (list number)) (observe : nat -> seen) :
  let combinations := product (Dict.values all_params_dict) in
  let path := fun i => Sweep.path_seen index_1 index_2 i (observe i) in
  (forall i, (i < length combinations)%nat -> opens (path i) = Ok tt) ->
  Permutation (Dict.keys all_params_dict) Model.param_names ->
  (forall i results, observe i = Dead (Some results) -> Sweep.harvestable weights results) ->
  exists files,
    Sweep.sweep index_1 index_2 weights opens all_params_dict observe [] = (files, Ok tt) /\
    length combinations
      = fold_right Nat.mul 1%nat (map (@length number) (Dict.values all_params_dict)) /\
    (forall c, In c combinations
               <-> Forall2 (fun x domain => In x domain) c (Dict.values all_params_dict)) /\
    (Forall (@NoDup number) (Dict.values all_params_dict) -> NoDup combinations) /\
    Dict.keys files = map path (seq 0 (length combinations)) /\
    NoDup (Dict.keys files) /\
    forall i c, nth_error combinations i = Some c ->
      exists d,
        Sweep.trial_dict weights (Dict.keys all_params_dict) c (observe i) = Ok d /\
        Dict.get files (path i) = Some (table_text number_str d) /\
        firstn (length c) d = Sweep.scalars (combine (Dict.keys all_params_dict) c).
Proof.
  cbv zeta. intros Hopen Hnames Hgood.
  destruct (loop_ok index_1 index_2 weights opens (Dict.keys all_params_dict) Hnames observe
              (product (Dict.values all_params_dict))) with (i := 0%nat) (files := @nil (string * string))
    as (files & Hloop & Hkeys & _ & Hfiles).
  - intros c Hin. rewrite (ProductFacts.product_width _ _ Hin).
    unfold Dict.values, Dict.keys. now rewrite !length_map.
  - intros k r _. apply Hgood.
  - intros k Hk. apply Hopen. lia.
  - reflexivity.
  - exists files. split; [exact Hloop|].
    split; [apply ProductFacts.product_length|].
    split; [apply ProductFacts.product_in|].
    split; [apply ProductFacts.product_nodup|].
    split; [exact Hkeys|].
    split; [|exact Hfiles].
    rewrite Hkeys. apply NoDup_map_inj; [|apply seq_NoDup].
    intros i j Heq. now apply path_seen_inj in Heq.
Qed.

(** The script creates no directory.  On a machine where the file of the
    first combination cannot be opened (a fresh checkout, which holds no
    directory [results]), the sweep ends at its first write with the
    exception of [open], and no file is written. *)
Theorem sweep_needs_results_directory
  (index_1 index_2 : Z) (weights : list PyFloat.float) (opens : string -> result unit)
  (all_params_dict : Dict.t (list number)) (observe : nat -> seen) (e : exn) :
  Permutation (Dict.keys all_params_dict) Model.param_names ->
  product (Dict.values all_params_dict) <> [] ->
  (forall results, observe 0%nat = Dead (Some results) -> Sweep.harvestable weights results) ->
  opens (Sweep.path_seen index_1 index_2 0 (observe 0%nat)) = Err e ->
  Sweep.sweep index_1 index_2 weights opens all_params_dict observe [] = ([], Err e).
Proof.
  intros Hnames Hsome Hgood Hopen. unfold Sweep.sweep.
  destruct (product (Dict.values all_params_dict)) as [|c rest] eqn:Hprod; [contradiction|].
  assert (Hlen : length c = length (Dict.keys all_params_dict)).
  { rewrite (ProductFacts.product_width (Dict.values all_params_dict) c)
      by (rewrite Hprod; now left).
    unfold Dict.values, Dict.keys. now rewrite !length_map. }
  destruct (define_params_ok (Dict.keys all_params_dict) Hnames c Hlen) as [p Hp].
  destruct (trial_dict_ok weights (Dict.keys all_params_dict) Hnames c (observe 0%nat) Hlen Hgood)
    as (d & Hd & _).
  cbn [Sweep.loop]. rewrite Hp.
  now rewrite (record_trial_unopened index_1 index_2 weights opens (Dict.keys all_params_dict)
                 0 c (observe 0%nat) [] d e Hd Hopen).
Qed.

(** *** The domains of the script *)

Lemma py_index_ok {A : Type} (l : list A) (i : Z) :
  - Z.of_nat (length l) <= i < Z.of_nat (length l) -> exists x, py_index l i = Ok x.
Proof.
  intros Hi. unfold py_index.
  destruct ((0 <=? i) && (i <? Z.of_nat (length l))) eqn:Hpos.
  - apply andb_prop in Hpos as [H0 H1]. apply Z.leb_le in H0. apply Z.ltb_lt in H1.
    destruct (nth_error l (Z.to_nat i)) as [x|] eqn:Hx; [now exists x|].
    apply nth_error_None in Hx. lia.
  - assert (Hneg : i < 0).
    { apply andb_false_iff in Hpos as [H|H]; [apply Z.leb_gt in H | apply Z.ltb_ge in H]; lia. }
    replace ((- Z.of_nat (length l) <=? i) && (i <? 0)) with true
      by (symmetry; apply andb_true_intro; split; [apply Z.leb_le | apply Z.ltb_lt]; lia).
    destruct (nth_error l (Z.to_nat (Z.of_nat (length l) + i))) as [x|] eqn:Hx; [now exists x|].
    apply nth_error_None in Hx. lia.
Qed.

(** Lines 224-239.  For command-line indexes within the two tables (from
    the end, when negative), the script builds its domains without an
    exception, under the five names of [define_params] in their order,
    and sweeps 1 * 10 * 5 * 1 * 1 = 50 combinations. *)
Theorem script_sweeps_fifty_combinations (index_1 index_2 : Z) :
  -4 <= index_1 < 4 -> -6 <= index_2 < 6 ->
  exists all_params_dict,
    Sweep.all_params_dict index_1 index_2 = Ok all_params_dict /\
    Dict.keys all_params_dict = Model.param_names /\
    length (product (Dict.values all_params_dict)) = 50%nat.
Proof.
  intros H1 H2. unfold Sweep.all_params_dict.
  destruct (py_index_ok (map PyInt [50; 100; 200; 400; 800; 1600]) index_2) as [tau_sat ->];
    [cbn; lia|].
  cbn [bind].
  assert (Hg : exists g,
             round_sf (PyFloat (SFdiv PyFloat.prec PyFloat.emax Sweep.STRAIN_RATE
                                  (PyFloat.lit "3"))) 4 = Ok g)
    by (vm_compute; eexists; reflexivity).
  destruct Hg as [gamma_0 ->]. cbn [bind].
  destruct (py_index_ok (map PyInt [2; 4; 8; 16]) index_1) as [n ->]; [cbn; lia|].
  cbn [bind]. eexists. split; [reflexivity|]. split; [reflexivity|].
  rewrite ProductFacts.product_length. reflexivity.
Qed.

Lemma script_sweeps_fifty_combinations_witness :
  -4 <= 1 < 4 /\ -6 <= 2 < 6 /\
  exists all_params_dict,
    Sweep.all_params_dict 1 2 = Ok all_params_dict /\
    Dict.keys all_params_dict = Model.param_names /\
    length (product (Dict.values all_params_dict)) = 50%nat.
Proof.
  split; [lia|]. split; [lia|].
  apply (script_sweeps_fifty_combinations 1 2); lia.
Defined.

End SweepFacts.

(** ** A sweep over two values of [b] and three of [tau_0] *)

Module SweepExample.

Local Open Scope string_scope.

Definition f : string -> PyFloat.float := PyFloat.lit.

(** Three grains. *)
Definition weights : list PyFloat.float := [f "0.2"; f "0.5"; f "0.3"].

(** Domains of sizes 1, 2, 3, 1 and 1: six combinations. *)
Definition domains : Dict.t (list number) :=
  [("tau_sat", [PyInt 50]);
   ("b", [PyFloat (f "0.1"); PyFloat (f "0.2")]);
   ("tau_0", [PyInt 100; PyInt 200; PyInt 400]);
   ("gamma_0", [PyFloat (f "3.333e-05")]);
   ("n", [PyInt 2])].

(** A run of two states. *)
Definition output : run_output :=
  {| strain := [f "0.0"; f "0.00250000001"];
     stress := [f "0"; f "123.456789"];
     history := [[(f "1", f "2", f "3"); (f "4", f "5", f "6"); (f "7", f "8", f "9")];
                 [(f "1.5", f "2.5", f "3.5"); (f "4.5", f "5.5", f "6.5");
                  (f "7.5", f "8.5", f "9.5")]] |}.

(** The first trial times out, the second fails, the others return. *)
Definition observe (i : nat) : seen :=
  match i with
  | 0%nat => Alive
  | 1%nat => Dead None
  | _ => Dead (Some output)
  end.

Lemma observe_harvestable (i : nat) (results : run_output) :
  observe i = Dead (Some results) -> Sweep.harvestable weights results.
Proof.
  destruct i as [|[|i]]; cbn; intros H; try discriminate.
  injection H as <-. split; [discriminate | repeat constructor].
Qed.

Lemma sweep_one_file_per_combination_witness :
  (forall i, (i < length (product (Dict.values domains)))%nat ->
     anywhere (Sweep.path_seen 1 2 i (observe i)) = Ok tt) /\
  Permutation (Dict.keys domains) Model.param_names /\
  (forall i results, observe i = Dead (Some results) -> Sweep.harvestable weights results) /\
  exists files,
    Sweep.sweep 1 2 weights anywhere domains observe [] = (files, Ok tt) /\
    length (product (Dict.values domains)) = 6%nat /\
    Dict.keys files
    = ["results/1_2_001_timeout.csv"; "results/1_2_002_failed.csv"; "results/1_2_003.csv";
       "results/1_2_004.csv"; "results/1_2_005.csv"; "results/1_2_006.csv"] /\
    NoDup (Dict.keys files).
Proof.
  split; [reflexivity|].
  split; [apply Permutation_refl|]. split; [exact observe_harvestable|].
  destruct (SweepFacts.sweep_one_file_per_combination 1 2 weights anywhere domains observe
              (fun _ _ => eq_refl) (Permutation_refl _) observe_harvestable)
    as (files & Hsweep & Hlen & _ & _ & Hkeys & Hnd & _).
  exists files. split; [exact Hsweep|]. split; [exact Hlen|]. split; [exact Hkeys | exact Hnd].
Defined.

Lemma sweep_needs_results_directory_witness :
  Permutation (Dict.keys domains) Model.param_names /\
  product (Dict.values domains) <> [] /\
  (forall results, observe 0%nat = Dead (Some results) -> Sweep.harvestable weights results) /\
  fresh_checkout (Sweep.path_seen 1 2 0 (observe 0%nat)) = Err FileNotFoundError /\
  Sweep.sweep 1 2 weights fresh_checkout domains observe [] = ([], Err FileNotFoundError).
Proof.
  assert (H2 : product (Dict.values domains) <> []) by discriminate.
  split; [apply Permutation_refl|]. split; [exact H2|].
  split; [exact (observe_harvestable 0%nat)|]. split; [reflexivity|].
  exact (SweepFacts.sweep_needs_results_directory 1 2 weights fresh_checkout domains observe
           FileNotFoundError (Permutation_refl _) H2 (observe_harvestable 0%nat) eq_refl).
Defined.

(** The same sweep, run: the six files and their texts. *)
Example sweep_runs :
  Dict.keys (fst (Sweep.sweep 1 2 weights anywhere domains observe []))
  = ["results/1_2_001_timeout.csv"; "results/1_2_002_failed.csv"; "results/1_2_003.csv";
     "results/1_2_004.csv"; "results/1_2_005.csv"; "results/1_2_006.csv"] /\
  snd (Sweep.sweep 1 2 weights anywhere domains observe []) = Ok tt /\
  Dict.get (fst (Sweep.sweep 1 2 weights anywhere domains observe [])) "results/1_2_001_timeout.csv"
  = Some ("tau_sat,b,tau_0,gamma_0,n" ++ CsvReaderExamples.nl
          ++ "50,0.1,100,3.333e-05,2" ++ CsvReaderExamples.nl).
Proof. vm_compute. repeat split. Qed.

End SweepExample.

(** ** The sweep with its workers: what every schedule maintains *)

Module ThreadFacts.

Import Dict DictFacts Threads.

Section Run.

Variable index_1 index_2 : Z.
Variable weights : list PyFloat.float.
Variable opens : string -> result unit.
Variable param_names : list string.
Variable combinations : list (list number).
Variable physics : nat -> result run_output.

Local Abbreviation step := (Threads.step index_1 index_2 weights opens param_names combinations physics).
Local Abbreviation run := (Threads.run index_1 index_2 weights opens param_names combinations physics).
Local Abbreviation wake := (Threads.wake index_1 index_2 weights opens param_names combinations).
Local Abbreviation launch := (Threads.launch param_names combinations).
Local Abbreviation finish := (Threads.finish physics).
Local Abbreviation path := (Sweep.path_seen index_1 index_2).

(** What holds of every state a schedule can reach. *)
Record safe (st : state) : Prop := {
  (** one observation per recorded trial *)
  safe_count : length (observed st) = next st;
  (** one file per recorded trial, named after what the trial found *)
  safe_files :
    keys (files st) = map (fun j => path j (nth j (observed st) Alive)) (seq 0 (next st));
  (** a worker in flight belongs to the trial being waited for, or to an
      earlier trial that was found alive *)
  safe_flight :
    forall k, In k (in_flight st) ->
      ((k < next st)%nat /\ nth_error (observed st) k = Some Alive) \/
      (k = next st /\ waiting st = true);
  (** the workers in flight at a [define_params] all belong to earlier
      trials that were found alive *)
  safe_overlap :
    forall i flying, In (i, flying) (overlapped st) ->
      (i <= next st)%nat /\
      forall k, In k flying -> (k < i)%nat /\ nth_error (observed st) k = Some Alive;
  (** while the controlling thread waits, its trial exists and was the
      last to call [define_params]; if no worker was in flight then, the
      worker of the trial is the only one in flight, or it has returned
      and its result is the one stored *)
  safe_wait :
    waiting st = true ->
    (exists c, nth_error combinations (next st) = Some c) /\
    exists flying rest,
      overlapped st = (next st, flying) :: rest /\
      (flying = [] ->
       in_flight st = [next st] \/
       (in_flight st = [] /\ model_output st = Model.run_cp (physics (next st))));
  (** a trial with no trial found alive before it was found alive itself
      or holds the result of its own worker *)
  safe_own :
    forall i o, nth_error (observed st) i = Some o ->
      (forall j, (j < i)%nat -> nth_error (observed st) j <> Some Alive) ->
      o = Alive \/ o = Dead (Model.run_cp (physics i))
}.

Lemma safe_initial : safe initial.
Proof.
  constructor; cbn.
  - reflexivity.
  - reflexivity.
  - intros k [].
  - intros i flying [].
  - discriminate.
  - intros [|i] o H; discriminate.
Qed.

Lemma running_in (k : nat) (st : state) : running k st = true <-> In k (in_flight st).
Proof.
  unfold running. rewrite existsb_exists. split.
  - intros (j & Hj & Heq). apply Nat.eqb_eq in Heq. now subst.
  - intros H. exists k. split; [exact H | apply Nat.eqb_refl].
Qed.

Lemma safe_launch (st st' : state) :
  safe st -> waiting st = false -> launch st = Ok st' -> safe st'.
Proof.
  intros Hsafe Hw Hstep.
  unfold Threads.launch in Hstep.
  destruct (nth_error combinations (next st)) as [c|] eqn:Hc;
    [|injection Hstep as <-; exact Hsafe].
  destruct Hsafe as [Hcount Hfiles Hflight Hover Hwait Hown].
  destruct (Model.define_params _) as [p|e]; [|discriminate].
  cbn in Hstep. injection Hstep as <-.
  constructor; cbn; try assumption.
  - intros k [<-|Hin]; [now right|].
    destruct (Hflight k Hin) as [H|[_ H]]; [now left | congruence].
  - intros i flying [Heq|Hin].
    + injection Heq as <- <-. split; [lia|].
      intros k Hin. destruct (Hflight k Hin) as [H|[_ H]]; [exact H | congruence].
    + now apply Hover.
  - intros _. split; [now exists c|].
    exists (in_flight st), (overlapped st). split; [reflexivity|].
    intros ->. now left.
Qed.

(** A call of [dict_to_csv] that returned has opened its file. *)
Lemma dict_to_csv_opened (d : Dict.t (value number)) (csv_path : string)
  (files : filesystem) (u : unit) :
  outcome (Csv.dict_to_csv str_number opens d csv_path files) = Ok u ->
  opens csv_path = Ok tt.
Proof.
  destruct (opens csv_path) as [[]|e] eqn:Hopen; [reflexivity|].
  destruct (CsvWriterFacts.unopened str_number opens d csv_path files e Hopen)
    as [Hout _].
  rewrite Hout. discriminate.
Qed.

(** Recording a trial adds its file and changes no other. *)
Lemma record_trial_files (i : nat) (param_dict : Dict.t number) (s : seen)
  (files files' : filesystem) (u : unit) :
  Sweep.record_trial index_1 index_2 weights opens i param_dict s files = (files', Ok u) ->
  keys files' = keys (set files (path i s) EmptyString) /\
  forall p, p <> path i s -> get files' p = get files p.
Proof.
  unfold Sweep.record_trial. intros H.
  destruct s as [|[results|]].
  - injection H as <- Hout. apply dict_to_csv_opened in Hout. split;
      [now apply CsvWriterFacts.dict_to_csv_keys
      | intros; now apply CsvWriterFacts.dict_to_csv_frame].
  - destruct (Sweep.combined_dict weights param_dict results) as [combined|e]; [|discriminate].
    injection H as <- Hout. apply dict_to_csv_opened in Hout. split;
      [now apply CsvWriterFacts.dict_to_csv_keys
      | intros; now apply CsvWriterFacts.dict_to_csv_frame].
  - injection H as <- Hout. apply dict_to_csv_opened in Hout. split;
      [now apply CsvWriterFacts.dict_to_csv_keys
      | intros; now apply CsvWriterFacts.dict_to_csv_frame].
Qed.

Lemma path_fresh (st : state) (s : seen) :
  safe st -> ~ In (path (next st) s) (keys (files st)).
Proof.
  intros Hsafe Hin. rewrite (safe_files st Hsafe) in Hin.
  apply in_map_iff in Hin. destruct Hin as (j & Heq & Hj).
  apply PathFacts.path_seen_inj in Heq. apply in_seq in Hj. lia.
Qed.

(** What a wake-up that returns leaves behind. *)
Lemma wake_result (st st' : state) :
  safe st -> waiting st = true -> wake st = Ok st' ->
  next st' = S (next st) /\ waiting st' = false /\
  observed st' = observed st ++ [look st] /\
  keys (files st') = keys (files st) ++ [path (next st) (look st)] /\
  (forall p, In p (keys (files st)) -> get (files st') p = get (files st) p) /\
  in_flight st' = in_flight st /\ overlapped st' = overlapped st /\
  model_output st' = model_output st.
Proof.
  intros Hsafe Hw Hstep. unfold Threads.wake in Hstep.
  destruct (safe_wait st Hsafe Hw) as [[c Hc] _]. rewrite Hc in Hstep.
  destruct (Sweep.record_trial _ _ _ _ _ _ _ _) as [files' [u|e]] eqn:Hrec; [|discriminate].
  injection Hstep as <-.
  cbn [next waiting observed files in_flight overlapped model_output].
  destruct (record_trial_files _ _ _ _ _ _ Hrec) as [Hk Hframe].
  pose proof (path_fresh st (look st) Hsafe) as Hfresh.
  repeat split; try reflexivity.
  - rewrite Hk. now apply keys_set_absent.
  - intros p Hin. apply Hframe. intros ->. contradiction.
Qed.

Lemma safe_wake (st st' : state) :
  safe st -> waiting st = true -> wake st = Ok st' -> safe st'.
Proof.
  intros Hsafe Hw Hstep.
  destruct (wake_result st st' Hsafe Hw Hstep)
    as (Hnext & Hwait' & Hobs & Hkeys & _ & Hfl & Hov & Hout).
  destruct Hsafe as [Hcount Hfiles Hflight Hover Hwait Hown].
  assert (Hold : forall j o, nth_error (observed st) j = Some o ->
            nth_error (observed st') j = Some o).
  { intros j o Hj. rewrite Hobs, nth_error_app1; [exact Hj|].
    apply nth_error_Some. congruence. }
  assert (Hnew : nth_error (observed st') (next st) = Some (look st)).
  { rewrite Hobs, nth_error_app2, Hcount, Nat.sub_diag by lia. reflexivity. }
  constructor.
  - rewrite Hobs, length_app, Hnext, Hcount. cbn. lia.
  - rewrite Hkeys, Hnext, seq_S, map_app, Hfiles. cbn [map Nat.add]. f_equal.
    + apply map_ext_in. intros j Hj. apply in_seq in Hj.
      rewrite Hobs, app_nth1 by lia. reflexivity.
    + rewrite Hobs, app_nth2, Hcount, Nat.sub_diag by lia. reflexivity.
  - intros k Hin. rewrite Hfl in Hin. left. rewrite Hnext.
    destruct (Hflight k Hin) as [[Hlt Halive]|[-> _]].
    + split; [lia | now apply Hold].
    + split; [lia|]. rewrite Hnew. f_equal. unfold look.
      now rewrite (proj2 (running_in (next st) st) Hin).
  - intros i flying Hin. rewrite Hov in Hin. destruct (Hover i flying Hin) as [Hle Hk].
    split; [lia|]. intros k Hkin. destruct (Hk k Hkin) as [Hlt Halive].
    split; [exact Hlt | now apply Hold].
  - congruence.
  - intros i o Hi Hnone.
    assert (Hprev : forall j o', nth_error (observed st) j = Some o' ->
              nth_error (observed st') j = Some o') by exact Hold.
    destruct (Nat.lt_ge_cases i (next st)) as [Hlt|Hge].
    + apply Hown.
      * rewrite Hobs, nth_error_app1 in Hi by lia. exact Hi.
      * intros j Hj Halive. apply (Hnone j Hj). now apply Hold.
    + assert (i = next st).
      { assert (i < length (observed st'))%nat by (apply nth_error_Some; congruence).
        rewrite Hobs, length_app in H. cbn in H. lia. }
      subst i. rewrite Hnew in Hi. injection Hi as <-.
      unfold look. destruct (running (next st) st) eqn:Hrun; [now left|]. right. f_equal.
      destruct (Hwait Hw) as [_ (flying & rest & Hhead & Hquiet)].
      assert (Hflying : flying = []).
      { destruct flying as [|k flying]; [reflexivity|]. exfalso.
        destruct (Hover (next st) (k :: flying)) as [_ Hk]; [rewrite Hhead; now left|].
        destruct (Hk k (or_introl eq_refl)) as [Hlt Halive].
        apply (Hnone k Hlt). now apply Hold. }
      destruct (Hquiet Hflying) as [Hone|[_ Hmo]]; [|exact Hmo].
      exfalso. assert (Hin : In (next st) (in_flight st)) by (rewrite Hone; now left).
      apply running_in in Hin. congruence.
Qed.

Lemma safe_finish (k : nat) (st : state) : safe st -> safe (finish k st).
Proof.
  intros Hsafe. unfold Threads.finish.
  destruct (running k st) eqn:Hrun; [|exact Hsafe].
  destruct Hsafe as [Hcount Hfiles Hflight Hover Hwait Hown].
  constructor; cbn; try assumption.
  - intros j Hin. apply filter_In in Hin. now apply Hflight.
  - intros Hw. destruct (Hwait Hw) as [Hc (flying & rest & Hhead & Hquiet)].
    split; [exact Hc|]. exists flying, rest. split; [exact Hhead|].
    intros Hflying. right. destruct (Hquiet Hflying) as [Hone|[Hnone _]].
    + apply running_in in Hrun. rewrite Hone in Hrun. destruct Hrun as [<-|[]].
      rewrite Hone. cbn. now rewrite Nat.eqb_refl.
    + apply running_in in Hrun. rewrite Hnone in Hrun. destruct Hrun.
Qed.

Lemma safe_step (st st' : state) (e : event) : safe st -> step st e = Ok st' -> safe st'.
Proof.
  intros Hsafe Hstep. destruct e as [|k]; cbn in Hstep.
  - destruct (waiting st) eqn:Hw; [now apply safe_wake with st | now apply safe_launch with st].
  - injection Hstep as <-. now apply safe_finish.
Qed.

Lemma safe_run (schedule : list event) :
  forall st st', safe st -> run schedule st = Ok st' -> safe st'.
Proof.
  induction schedule as [|e schedule IH]; intros st st' Hsafe Hrun; cbn in Hrun.
  - now injection Hrun as <-.
  - unfold Threads.run in *. cbn [foldM] in Hrun.
    destruct (step st e) as [st1|err] eqn:Hstep; [|discriminate].
    apply (IH st1); [now apply safe_step with st e | exact Hrun].
Qed.

(** Nothing that happens later changes what has been recorded. *)
Lemma step_keeps_records (st st' : state) (e : event) :
  safe st -> step st e = Ok st' ->
  (exists more, observed st' = observed st ++ more) /\
  (forall p, In p (keys (files st)) ->
     In p (keys (files st')) /\ get (files st') p = get (files st) p).
Proof.
  intros Hsafe Hstep. destruct e as [|k]; cbn in Hstep.
  - destruct (waiting st) eqn:Hw.
    + destruct (wake_result st st' Hsafe Hw Hstep) as (_ & _ & Hobs & Hkeys & Hframe & _).
      split; [now exists [look st]|]. intros p Hin. split; [|now apply Hframe].
      rewrite Hkeys. apply in_or_app. now left.
    + unfold Threads.launch in Hstep.
      destruct (nth_error combinations (next st)); [|injection Hstep as <-].
      * destruct (Model.define_params _); [|discriminate]. injection Hstep as <-. cbn.
        split; [exists []; now rewrite app_nil_r | now split].
      * split; [exists []; now rewrite app_nil_r | now split].
  - injection Hstep as <-. unfold Threads.finish. destruct (running k st); cbn;
      (split; [exists []; now rewrite app_nil_r | now split]).
Qed.

Lemma run_keeps_records (schedule : list event) :
  forall st st', safe st -> run schedule st = Ok st' ->
    (exists more, observed st' = observed st ++ more) /\
    (forall p, In p (keys (files st)) ->
       In p (keys (files st')) /\ get (files st') p = get (files st) p).
Proof.
  induction schedule as [|e schedule IH]; intros st st' Hsafe Hrun;
    unfold Threads.run in *; cbn [foldM] in Hrun.
  - injection Hrun as <-. split; [exists []; now rewrite app_nil_r | now split].
  - destruct (step st e) as [st1|err] eqn:Hstep; [|discriminate]. cbn [bind] in Hrun.
    destruct (step_keeps_records st st1 e Hsafe Hstep) as [[more1 Hobs1] Hfiles1].
    destruct (IH st1 st' (safe_step st st1 e Hsafe Hstep) Hrun) as [[more Hobs] Hfiles].
    split.
    + exists (more1 ++ more). now rewrite Hobs, Hobs1, app_assoc.
    + intros p Hin. destruct (Hfiles1 p Hin) as [Hin1 Hget1].
      destruct (Hfiles p Hin1) as [Hin' Hget']. split; [exact Hin' | congruence].
Qed.

(** The parameter fields change in a launch only. *)
Lemma fields_change (st st' : state) (e : event) :
  step st e = Ok st' -> fields st' <> fields st -> e = Main /\ waiting st = false.
Proof.
  intros Hstep Hne. destruct e as [|k]; cbn in Hstep.
  - split; [reflexivity|]. destruct (waiting st) eqn:Hw; [|reflexivity].
    exfalso. apply Hne. unfold Threads.wake in Hstep.
    destruct (nth_error combinations (next st)); [|now injection Hstep as <-].
    destruct (Sweep.record_trial _ _ _ _ _ _ _ _) as [files' [u|err]]; [|discriminate].
    now injection Hstep as <-.
  - exfalso. apply Hne. injection Hstep as <-. unfold Threads.finish.
    now destruct (running k st).
Qed.

(** C9, amended. On every schedule that runs without an exception:
    nothing that happens after a trial is recorded changes its
    observation or its file, so a trial recorded as timed out stays so
    whatever its worker does later; the parameter fields are changed by
    a launch only, never while the controlling thread waits in a join;
    and every worker in flight when [define_params] overwrites the fields
    belongs to an earlier trial that was recorded as timed out. *)
Theorem detached_worker_and_records (schedule later : list event) (st st' : state) :
  run schedule initial = Ok st ->
  run later st = Ok st' ->
  (exists more, observed st' = observed st ++ more) /\
  (forall p, In p (keys (files st)) -> get (files st') p = get (files st) p) /\
  (forall e st1, step st e = Ok st1 -> fields st1 <> fields st ->
     e = Main /\ waiting st = false) /\
  (forall i flying, In (i, flying) (overlapped st') ->
     forall k, In k flying -> (k < i)%nat /\ nth_error (observed st') k = Some Alive).
Proof.
  intros Hrun Hlater.
  pose proof (safe_run schedule initial st safe_initial Hrun) as Hsafe.
  pose proof (safe_run later st st' Hsafe Hlater) as Hsafe'.
  destruct (run_keeps_records later st st' Hsafe Hlater) as [Hobs Hfiles].
  split; [exact Hobs|]. split; [intros p Hin; now apply Hfiles|]. split.
  - intros e st1. apply fields_change.
  - intros i flying Hin. now apply (safe_overlap st' Hsafe' i flying Hin).
Qed.

(** *** The files are those of the loop for what the trials found *)

(** One more pass of the loop of lines 246-283, for combination [c] at
    index [i]. *)
Definition pass (observe : nat -> seen) (i : nat) (c : list number)
  (r : filesystem * result unit) : filesystem * result unit :=
  match r with
  | (files0, Ok _) =>
      match Model.define_params (Sweep.make_param_dict param_names c) with
      | Err e => (files0, Err e)
      | Ok _ =>
          match Sweep.record_trial index_1 index_2 weights opens i
                  (Sweep.make_param_dict param_names c) (observe i) files0 with
          | (files1, Ok _) => (files1, Ok tt)
          | (files1, Err e) => (files1, Err e)
          end
      end
  | (files0, Err e) => (files0, Err e)
  end.

Lemma loop_snoc (observe : nat -> seen) (c : list number) (done : list (list number)) :
  forall i files0,
    Sweep.loop index_1 index_2 weights opens param_names (done ++ [c]) observe i files0
    = pass observe (i + length done) c
        (Sweep.loop index_1 index_2 weights opens param_names done observe i files0).
Proof.
  induction done as [|c0 done IH]; intros i files0; cbn [app Sweep.loop length].
  - rewrite Nat.add_0_r. unfold pass.
    destruct (Model.define_params _); [|reflexivity].
    now destruct (Sweep.record_trial _ _ _ _ _ _ _ _) as [files1 [[]|e]].
  - destruct (Model.define_params (Sweep.make_param_dict param_names c0)); [|reflexivity].
    destruct (Sweep.record_trial _ _ _ _ i _ _ _) as [files1 [u|e]]; [|reflexivity].
    rewrite IH. now rewrite Nat.add_succ_r.
Qed.

Lemma loop_ext (observe observe' : nat -> seen) (done : list (list number)) :
  forall i files0,
    (forall j, (i <= j < i + length done)%nat -> observe j = observe' j) ->
    Sweep.loop index_1 index_2 weights opens param_names done observe i files0
    = Sweep.loop index_1 index_2 weights opens param_names done observe' i files0.
Proof.
  induction done as [|c done IH]; intros i files0 Hext; cbn [Sweep.loop]; [reflexivity|].
  destruct (Model.define_params _); [|reflexivity].
  rewrite <- (Hext i) by (cbn [length]; lia).
  destruct (Sweep.record_trial _ _ _ _ i _ _ _) as [files1 [u|e]]; [|reflexivity].
  apply IH. intros j Hj. apply Hext. cbn [length]. lia.
Qed.

(** The files of a reachable state are the files the loop writes for the
    trials recorded so far, given what each of them found. *)
Definition linked (st : state) : Prop :=
  (waiting st = true ->
   exists c p, nth_error combinations (next st) = Some c /\
               Model.define_params (Sweep.make_param_dict param_names c) = Ok p) /\
  Sweep.loop index_1 index_2 weights opens param_names (firstn (next st) combinations)
    (fun j => nth j (observed st) Alive) 0 [] = (files st, Ok tt).

Lemma linked_step (st st' : state) (e : event) :
  safe st -> linked st -> step st e = Ok st' -> linked st'.
Proof.
  intros Hsafe [Hdef Hloop] Hstep. destruct e as [|k]; cbn in Hstep.
  - destruct (waiting st) eqn:Hw.
    + destruct (wake_result st st' Hsafe Hw Hstep) as (Hnext & Hw' & Hobs & _).
      destruct (Hdef eq_refl) as (c & p & Hc & Hp).
      split; [congruence|].
      pose proof (safe_count st Hsafe) as Hcount.
      assert (Hfirst : firstn (next st') combinations
                       = firstn (next st) combinations ++ [c]).
      { rewrite Hnext. clear - Hc. revert Hc. generalize (next st) as i.
        induction combinations as [|c0 cs IH]; intros [|i] Hc; cbn in *; try discriminate.
        - now injection Hc as ->.
        - f_equal. now apply IH. }
      assert (Hlen : length (firstn (next st) combinations) = next st).
      { rewrite length_firstn. apply Nat.min_l. apply Nat.lt_le_incl.
        apply nth_error_Some. congruence. }
      rewrite Hfirst, loop_snoc, Hlen. cbn [Nat.add].
      rewrite (loop_ext _ (fun j => nth j (observed st) Alive)).
      * rewrite Hloop. unfold pass. rewrite Hp.
        rewrite Hobs, app_nth2, Hcount, Nat.sub_diag by lia. cbn [nth].
        unfold Threads.wake in Hstep. rewrite Hc in Hstep.
        destruct (Sweep.record_trial _ _ _ _ _ _ _ _) as [files1 [u|e0]]; [|discriminate].
        now injection Hstep as <-.
      * intros j Hj. rewrite Hlen in Hj. rewrite Hobs, app_nth1 by lia. reflexivity.
    + unfold Threads.launch in Hstep.
      destruct (nth_error combinations (next st)) as [c|] eqn:Hc.
      * destruct (Model.define_params _) as [p|e0] eqn:Hp; [|discriminate].
        injection Hstep as <-. unfold linked. cbn [next waiting observed files].
        split; [|exact Hloop]. intros _. now exists c, p.
      * injection Hstep as <-. split; [rewrite Hw; discriminate | exact Hloop].
  - injection Hstep as <-. unfold Threads.finish.
    destruct (running k st); [|now split]. now split.
Qed.

Lemma linked_run (schedule : list event) :
  forall st st', safe st -> linked st -> run schedule st = Ok st' -> linked st'.
Proof.
  induction schedule as [|e schedule IH]; intros st st' Hsafe Hlinked Hrun;
    unfold Threads.run in *; cbn [foldM] in Hrun.
  - now injection Hrun as <-.
  - destruct (step st e) as [st1|err] eqn:Hstep; [|discriminate]. cbn [bind] in Hrun.
    apply (IH st1); [now apply safe_step with st e | now apply linked_step with st e | exact Hrun].
Qed.

Lemma linked_initial : linked initial.
Proof. split; [discriminate | reflexivity]. Qed.

(** *** The loop ends *)

(** The number of steps of the controlling thread in a schedule. *)
Fixpoint mains (schedule : list event) : nat :=
  match schedule with
  | [] => 0
  | Main :: schedule => S (mains schedule)
  | Finish _ :: schedule => mains schedule
  end.

(** Two steps of the controlling thread for each recorded trial, one more
    while it waits. *)
Definition progress (st : state) : nat :=
  2 * next st + (if waiting st then 1 else 0).

Definition bounded (st : state) : Prop :=
  (progress st <= 2 * length combinations)%nat.

Lemma step_progress (st st' : state) (e : event) :
  bounded st -> step st e = Ok st' ->
  progress st' = match e with
                 | Main => Nat.min (S (progress st)) (2 * length combinations)
                 | Finish _ => progress st
                 end.
Proof.
  unfold bounded, progress. intros Hb Hstep. destruct e as [|k]; cbn [Threads.step] in Hstep.
  - destruct (waiting st) eqn:Hw.
    + unfold Threads.wake in Hstep.
      destruct (nth_error combinations (next st)) as [c|] eqn:Hc.
      * destruct (Sweep.record_trial _ _ _ _ _ _ _ _) as [files1 [u|e0]]; [|discriminate].
        injection Hstep as <-. cbn [next waiting]. lia.
      * apply nth_error_None in Hc. lia.
    + unfold Threads.launch in Hstep.
      destruct (nth_error combinations (next st)) as [c|] eqn:Hc.
      * destruct (Model.define_params _) as [p|e0]; [|discriminate].
        injection Hstep as <-. cbn [next waiting].
        assert (next st < length combinations)%nat by (apply nth_error_Some; congruence).
        lia.
      * injection Hstep as <-. rewrite Hw. apply nth_error_None in Hc. lia.
  - injection Hstep as <-. unfold Threads.finish.
    destruct (running k st); reflexivity.
Qed.

Lemma run_progress (schedule : list event) :
  forall st st', bounded st -> run schedule st = Ok st' ->
    progress st' = Nat.min (progress st + mains schedule) (2 * length combinations).
Proof.
  induction schedule as [|e schedule IH]; intros st st' Hb Hrun;
    unfold Threads.run in *; cbn [foldM] in Hrun.
  - injection Hrun as <-. unfold bounded in Hb. cbn [mains]. lia.
  - destruct (step st e) as [st1|err] eqn:Hstep; [|discriminate]. cbn [bind] in Hrun.
    pose proof (step_progress st st1 e Hb Hstep) as H1.
    assert (Hb1 : bounded st1).
    { unfold bounded in *. destruct e; lia. }
    rewrite (IH st1 st' Hb1 Hrun), H1. unfold bounded in Hb.
    destruct e; cbn [mains]; lia.
Qed.

(** Once the controlling thread has taken two steps per combination, on
    any schedule, every trial has been recorded, and the files are those
    the loop of lines 246-283 writes for what the trials found. *)
Theorem threads_finish_the_sweep (schedule : list event) (st : state) :
  run schedule initial = Ok st ->
  (2 * length combinations <= mains schedule)%nat ->
  next st = length combinations /\ waiting st = false /\
  Sweep.loop index_1 index_2 weights opens param_names combinations
    (fun j => nth j (observed st) Alive) 0 [] = (files st, Ok tt).
Proof.
  intros Hrun Hmains.
  assert (Hb : bounded initial) by (unfold bounded, progress; cbn; lia).
  pose proof (run_progress schedule initial st Hb Hrun) as Hp.
  unfold progress in Hp. cbn [initial next waiting] in Hp.
  destruct (linked_run schedule initial st safe_initial linked_initial Hrun) as [_ Hloop].
  assert (Hnext : next st = length combinations /\ waiting st = false)
    by (destruct (waiting st); [lia | split; [lia | reflexivity]]).
  destruct Hnext as [Hnext Hw]. split; [exact Hnext|]. split; [exact Hw|].
  now rewrite Hnext, firstn_all in Hloop.
Qed.

(** *** Every schedule runs to its end *)

Hypothesis names_match : Permutation param_names Model.param_names.
Hypothesis widths : Forall (fun c => length c = length param_names) combinations.
Hypothesis physics_good :
  forall k results, physics k = Ok results -> Sweep.harvestable weights results.

(** The stored model output is one that a worker left. *)
Definition good (st : state) : Prop :=
  forall results, model_output st = Some results -> Sweep.harvestable weights results.

Lemma combination_width (i : nat) (c : list number) :
  nth_error combinations i = Some c -> length c = length param_names.
Proof.
  intros Hc. rewrite Forall_forall in widths. apply widths. now apply nth_error_In with i.
Qed.

Lemma wake_total (st : state) :
  safe st -> good st -> waiting st = true ->
  opens (path (next st) (look st)) = Ok tt ->
  exists st', wake st = Ok st'.
Proof.
  intros Hsafe Hgood Hw Hopen. unfold Threads.wake.
  destruct (safe_wait st Hsafe Hw) as [[c Hc] _]. rewrite Hc.
  destruct (SweepFacts.trial_dict_ok weights param_names names_match c (look st))
    as (d & Hd & Hne & Hnd & _).
  - now apply combination_width with (next st).
  - intros results Hlook. unfold look in Hlook.
    destruct (running (next st) st); [discriminate|]. injection Hlook as Hout.
    now apply Hgood.
  - destruct (SweepFacts.record_trial_ok index_1 index_2 weights opens param_names
                (next st) c (look st) (files st) d Hd Hne Hnd Hopen) as (files' & -> & _).
    + now apply path_fresh.
    + eexists. reflexivity.
Qed.

(** A step that returns leaves a stored output that a worker left. *)
Lemma step_good (st st' : state) (e : event) :
  safe st -> good st -> step st e = Ok st' -> good st'.
Proof.
  intros Hsafe Hgood Hstep. destruct e as [|k]; cbn [Threads.step] in Hstep.
  - destruct (waiting st) eqn:Hw.
    + destruct (wake_result st st' Hsafe Hw Hstep) as (_ & _ & _ & _ & _ & _ & _ & Hout).
      unfold good. now rewrite Hout.
    + unfold Threads.launch in Hstep.
      destruct (nth_error combinations (next st)) as [c|]; [|now injection Hstep as <-].
      destruct (Model.define_params _) as [p|err]; [|discriminate].
      injection Hstep as <-. exact Hgood.
  - injection Hstep as <-. unfold Threads.finish.
    destruct (running k st); [|exact Hgood].
    intros results. cbn. unfold Model.run_cp.
    destruct (physics k) as [r|err] eqn:Hk; [|discriminate].
    intros H. injection H as <-. now apply physics_good with k.
Qed.

Lemma run_good (schedule : list event) :
  forall st st', safe st -> good st -> run schedule st = Ok st' -> good st'.
Proof.
  induction schedule as [|e schedule IH]; intros st st' Hsafe Hgood Hrun;
    unfold Threads.run in *; cbn [foldM] in Hrun.
  - now injection Hrun as <-.
  - destruct (step st e) as [st1|err] eqn:Hstep; [|discriminate]. cbn [bind] in Hrun.
    apply (IH st1 st'); [now apply safe_step with st e | now apply step_good with st e | exact Hrun].
Qed.

Lemma good_initial : good initial.
Proof. intros results H. discriminate. Qed.

(** C8, amended. Take domains under the five parameter names and workers
    whose returned results carry a usable history.  Whenever the
    controlling thread is waiting in the join of a trial whose files can
    be opened for writing, on any schedule, its wake-up records the trial
    exactly once, without an exception: one observation and one file are
    added, the file named after the observation.  The observation is
    [Alive] (timed out) exactly when the worker of the trial has not
    returned.  Otherwise it is the stored model output; and when no
    earlier trial was found alive, that output is the one the trial's own
    [run_cp] left: [None] (failed) when the physics raised, the full
    result when it returned. *)
Theorem trial_recorded_once (schedule : list event) (st : state) :
  run schedule initial = Ok st ->
  waiting st = true ->
  (forall s, opens (path (next st) s) = Ok tt) ->
  exists st' o,
    step st Main = Ok st' /\
    next st' = S (next st) /\
    observed st' = observed st ++ [o] /\
    keys (files st') = keys (files st) ++ [path (next st) o] /\
    (o = Alive <-> running (next st) st = true) /\
    (running (next st) st = false -> o = Dead (model_output st)) /\
    (running (next st) st = false -> ~ In Alive (observed st) ->
     (forall e, physics (next st) = Err e -> o = Dead None) /\
     (forall results, physics (next st) = Ok results -> o = Dead (Some results))).
Proof.
  intros Hrun Hw Hopen.
  pose proof (safe_run schedule initial st safe_initial Hrun) as Hsafe.
  pose proof (run_good schedule initial st safe_initial good_initial Hrun) as Hgood.
  destruct (wake_total st Hsafe Hgood Hw (Hopen (look st))) as [st' Hst'].
  destruct (wake_result st st' Hsafe Hw Hst') as (Hnext & _ & Hobs & Hkeys & _).
  pose proof (safe_count st Hsafe) as Hcount.
  exists st', (look st). cbn [Threads.step]. rewrite Hw.
  split; [exact Hst'|]. split; [exact Hnext|]. split; [exact Hobs|]. split; [exact Hkeys|].
  unfold look. split; [|split].
  - destruct (running (next st) st); split; congruence.
  - now intros ->.
  - intros Hrunning Hnone.
    destruct (safe_own st' (safe_wake st st' Hsafe Hw Hst') (next st) (look st)) as [Habs|Hown].
    + rewrite Hobs, nth_error_app2, Hcount, Nat.sub_diag by lia. reflexivity.
    + intros j Hj Halive. apply Hnone.
      rewrite Hobs, nth_error_app1 in Halive by lia.
      now apply nth_error_In with j.
    + unfold look in Habs. rewrite Hrunning in Habs. discriminate.
    + unfold look in Hown. rewrite Hrunning in Hown. injection Hown as Hout.
      rewrite Hrunning, Hout. unfold Model.run_cp.
      split; [intros e -> | intros results ->]; reflexivity.
Qed.

(** *** Every schedule runs to its end *)

(** The machine lets the script open the file of every trial, whatever
    the trial is found to have done: the directory [results] exists. *)
Hypothesis results_open :
  forall i s, (i < length combinations)%nat -> opens (path i s) = Ok tt.

Lemma step_total (st : state) (e : event) :
  safe st -> good st -> exists st', step st e = Ok st' /\ good st'.
Proof.
  intros Hsafe Hgood.
  assert (Hstep : exists st', step st e = Ok st').
  { destruct e as [|k]; cbn.
    - destruct (waiting st) eqn:Hw.
      + apply (wake_total st Hsafe Hgood Hw). apply results_open.
        destruct (safe_wait st Hsafe Hw) as [[c Hc] _].
        apply nth_error_Some. congruence.
      + unfold Threads.launch. destruct (nth_error combinations (next st)) as [c|] eqn:Hc.
        * destruct (SweepFacts.define_params_ok param_names names_match c) as [p ->].
          -- now apply combination_width with (next st).
          -- cbn. eexists. reflexivity.
        * now exists st.
    - eexists. reflexivity. }
  destruct Hstep as [st' Hstep]. exists st'. split; [exact Hstep|].
  now apply step_good with st e.
Qed.

Lemma run_total (schedule : list event) :
  forall st, safe st -> good st ->
    exists st', run schedule st = Ok st' /\ safe st' /\ good st'.
Proof.
  induction schedule as [|e schedule IH]; intros st Hsafe Hgood;
    unfold Threads.run in *; cbn [foldM].
  - now exists st.
  - destruct (step_total st e Hsafe Hgood) as (st1 & Hstep & Hgood1).
    rewrite Hstep. cbn [bind]. apply IH; [|exact Hgood1].
    now apply safe_step with st e.
Qed.

(** Take a machine on which the file of every trial can be opened for
    writing, domains under the five parameter names and workers whose
    returned results carry a usable history.  Then the script raises on
    no schedule: every interleaving of the controlling thread and the
    workers runs to a state. *)
Theorem every_schedule_runs (schedule : list event) :
  exists st, run schedule initial = Ok st.
Proof.
  destruct (run_total schedule initial safe_initial good_initial) as (st & Hrun & _).
  now exists st.
Qed.


End Run.

End ThreadFacts.

(** ** Two trials, the first of which times out *)

Module RaceExample.

Import Threads SweepExample.
Local Open Scope string_scope.

(** Two combinations: the two values of [b]. *)
Definition domains : Dict.t (list number) :=
  [("tau_sat", [PyInt 50]);
   ("b", [PyFloat (f "0.1"); PyFloat (f "0.2")]);
   ("tau_0", [PyInt 100]);
   ("gamma_0", [PyFloat (f "3.333e-05")]);
   ("n", [PyInt 2])].

Definition names : list string := Dict.keys domains.
Definition combinations : list (list number) := product (Dict.values domains).

(** The physics returns in the first worker and raises in the second. *)
Definition physics (k : nat) : result run_output :=
  match k with
  | 0%nat => Ok output
  | _ => Err ValueError
  end.

(** The runs of the script on a machine that holds the directory
    [results]. *)
Definition run (schedule : list event) (st : state) : result state :=
  Threads.run 1 2 weights anywhere names combinations physics schedule st.

(** The state a schedule leads to from the start. *)
Definition after (schedule : list event) : state :=
  match run schedule initial with
  | Ok st => st
  | Err _ => initial
  end.

(** The first trial is launched and times out; the second is launched,
    its worker raises at once, and then the first worker returns, late. *)
Definition late : list event := [Main; Main; Main; Finish 1%nat; Finish 0%nat].

(** The same, but the first worker has not returned yet. *)
Definition never : list event := [Main; Main; Main; Finish 1%nat].

Lemma names_match : Permutation names Model.param_names.
Proof. apply Permutation_refl. Qed.

Lemma widths : Forall (fun c => length c = length names) combinations.
Proof. repeat constructor. Qed.

Lemma physics_good (k : nat) (results : run_output) :
  physics k = Ok results -> Sweep.harvestable weights results.
Proof.
  destruct k; cbn; intros H; [|discriminate].
  injection H as <-. split; [discriminate | repeat constructor].
Qed.

Lemma trial_recorded_once_witness :
  run [Main; Finish 0%nat] initial = Ok (after [Main; Finish 0%nat]) /\
  waiting (after [Main; Finish 0%nat]) = true /\
  (forall s, anywhere (Sweep.path_seen 1 2 (next (after [Main; Finish 0%nat])) s) = Ok tt) /\
  exists st' o,
    Threads.step 1 2 weights anywhere names combinations physics (after [Main; Finish 0%nat]) Main = Ok st' /\
    next st' = 1%nat /\
    observed st' = [o] /\
    Dict.keys (files st') = [Sweep.path_seen 1 2 0 o] /\
    (o = Alive <-> false = true) /\
    (false = false -> o = Dead (Some output)) /\
    (false = false -> ~ In Alive [] ->
     (forall e, physics 0 = Err e -> o = Dead None) /\
     (forall results, physics 0 = Ok results -> o = Dead (Some results))).
Proof.
  assert (H1 : run [Main; Finish 0%nat] initial = Ok (after [Main; Finish 0%nat]))
    by (vm_compute; reflexivity).
  assert (H2 : waiting (after [Main; Finish 0%nat]) = true) by (vm_compute; reflexivity).
  split; [exact H1|]. split; [exact H2|]. split; [reflexivity|].
  exact (ThreadFacts.trial_recorded_once 1 2 weights anywhere names combinations physics
           names_match widths physics_good [Main; Finish 0%nat] _ H1 H2 (fun _ => eq_refl)).
Defined.

(** C8 fails on this schedule.  When the second join returns, the worker
    of the second trial is not alive and its physics call has raised, yet
    the trial is recorded as a success, in [results/1_2_002.csv], with the
    result the first worker left in the meantime. *)
Lemma failed_trial_recorded_as_success :
  run late initial = Ok (after late) /\
  waiting (after late) = true /\ next (after late) = 1%nat /\
  running 1 (after late) = false /\
  physics 1 = Err ValueError /\
  exists st',
    Threads.step 1 2 weights anywhere names combinations physics (after late) Main = Ok st' /\
    observed st' = [Alive; Dead (Some output)] /\
    observed st' <> [Alive; Dead None] /\
    Dict.keys (files st') = ["results/1_2_001_timeout.csv"; "results/1_2_002.csv"].
Proof.
  do 5 (split; [vm_compute; reflexivity|]).
  eexists. split; [vm_compute; reflexivity|].
  split; [reflexivity|]. split; [discriminate | reflexivity].
Qed.

Lemma detached_worker_and_records_witness :
  run [Main; Main] initial = Ok (after [Main; Main]) /\
  run [Main; Finish 1%nat; Finish 0%nat; Main] (after [Main; Main])
    = Ok (after (late ++ [Main])%list) /\
  (exists more, observed (after (late ++ [Main])%list) = (observed (after [Main; Main]) ++ more)%list) /\
  (forall p, In p (Dict.keys (files (after [Main; Main]))) ->
     Dict.get (files (after (late ++ [Main])%list)) p = Dict.get (files (after [Main; Main])) p) /\
  (forall e st1,
     Threads.step 1 2 weights anywhere names combinations physics (after [Main; Main]) e = Ok st1 ->
     fields st1 <> fields (after [Main; Main]) ->
     e = Main /\ waiting (after [Main; Main]) = false) /\
  (forall i flying, In (i, flying) (overlapped (after (late ++ [Main])%list)) ->
     forall k, In k flying ->
       (k < i)%nat /\ nth_error (observed (after (late ++ [Main])%list)) k = Some Alive).
Proof.
  assert (H1 : run [Main; Main] initial = Ok (after [Main; Main]))
    by (vm_compute; reflexivity).
  assert (H2 : run [Main; Finish 1%nat; Finish 0%nat; Main] (after [Main; Main])
               = Ok (after (late ++ [Main])%list)) by (vm_compute; reflexivity).
  split; [exact H1|]. split; [exact H2|].
  exact (ThreadFacts.detached_worker_and_records 1 2 weights anywhere names combinations physics
           [Main; Main] [Main; Finish 1%nat; Finish 0%nat; Main] _ _ H1 H2).
Defined.

(** C9 fails on this schedule.  The first trial is recorded as timed out
    and its worker left running; [define_params] for the second trial
    overwrites the fields while that worker is in flight; and the result
    the worker leaves later is what the second trial records.  Had the
    worker not returned by then, the second trial would be recorded as
    failed: the late result changes a later trial's record. *)
Lemma detached_worker_interferes :
  run (late ++ [Main])%list initial = Ok (after (late ++ [Main])%list) /\
  In (1%nat, [0%nat]) (overlapped (after (late ++ [Main])%list)) /\
  fields (after [Main; Main; Main]) <> fields (after [Main; Main]) /\
  in_flight (after [Main; Main]) = [0%nat] /\
  observed (after (late ++ [Main])%list) = [Alive; Dead (Model.run_cp (physics 0))] /\
  Dict.keys (files (after (late ++ [Main])%list))
    = ["results/1_2_001_timeout.csv"; "results/1_2_002.csv"] /\
  run (never ++ [Main])%list initial = Ok (after (never ++ [Main])%list) /\
  observed (after (never ++ [Main])%list) = [Alive; Dead None] /\
  Dict.keys (files (after (never ++ [Main])%list))
    = ["results/1_2_001_timeout.csv"; "results/1_2_002_failed.csv"].
Proof.
  split; [vm_compute; reflexivity|].
  split; [vm_compute; tauto|].
  split; [vm_compute; discriminate|].
  do 5 (split; [vm_compute; reflexivity|]).
  vm_compute; reflexivity.
Qed.

Lemma threads_finish_the_sweep_witness :
  run (late ++ [Main])%list initial = Ok (after (late ++ [Main])%list) /\
  (2 * length combinations <= ThreadFacts.mains (late ++ [Main])%list)%nat /\
  next (after (late ++ [Main])%list) = length combinations /\
  waiting (after (late ++ [Main])%list) = false /\
  Sweep.loop 1 2 weights anywhere names combinations
    (fun j => nth j (observed (after (late ++ [Main])%list)) Alive) 0 []
  = (files (after (late ++ [Main])%list), Ok tt).
Proof.
  assert (H1 : run (late ++ [Main])%list initial = Ok (after (late ++ [Main])%list))
    by (vm_compute; reflexivity).
  assert (H2 : (2 * length combinations <= ThreadFacts.mains (late ++ [Main])%list)%nat)
    by (vm_compute; lia).
  split; [exact H1|]. split; [exact H2|].
  exact (ThreadFacts.threads_finish_the_sweep 1 2 weights anywhere names combinations physics
           (late ++ [Main])%list _ H1 H2).
Defined.

Lemma every_schedule_runs_witness :
  (forall i s, (i < length combinations)%nat -> anywhere (Sweep.path_seen 1 2 i s) = Ok tt) /\
  exists st, run late initial = Ok st.
Proof.
  split; [reflexivity|].
  exact (ThreadFacts.every_schedule_runs 1 2 weights anywhere names combinations physics
           names_match widths physics_good (fun _ _ _ => eq_refl) late).
Defined.



Example first_wake_raises :
  Threads.run 1 2 weights fresh_checkout names combinations physics
    [Main; Finish 0%nat; Main] initial = Err FileNotFoundError.
Proof. vm_compute. reflexivity. Qed.

End RaceExample.

(** * Part III: further properties of the helpers *)

(** ** [get_top]: the maximum, distinct indexes, and the inputs it ranks *)

Module GetTopOrder.

Import GetTop GetTopFacts.

Lemma pop_last_cons2 {A : Type} (a b : A) (l : list A) :
  PyList.pop_last (a :: b :: l) = a :: PyList.pop_last (b :: l).
Proof. reflexivity. Qed.

(** *** The indexes returned are distinct *)

Section Indexes.

Context {V : Type}.
Variable lt : V -> V -> bool.
Variable gt : V -> V -> bool.

(** Every kept index is below the index the loop has reached, and none is
    kept twice. *)
Definition fresh_below (i : nat) (t : tops (V := V)) : Prop :=
  NoDup (snd t) /\ Forall (fun k => (k < i)%nat) (snd t).

Lemma insert_permutation {A : Type} (j : nat) (x : A) (l : list A) :
  Permutation (x :: l) (PyList.insert j x l).
Proof.
  unfold PyList.insert. rewrite <- (firstn_skipn j l) at 1.
  apply Permutation_middle.
Qed.

Lemma pop_last_incl {A : Type} (l : list A) (x : A) :
  In x (PyList.pop_last l) -> In x l.
Proof.
  unfold PyList.pop_last. induction l as [|a [|b l] IH]; cbn; [tauto..|].
  intros [<-|Hin]; [now left | right; now apply IH].
Qed.

Lemma NoDup_pop_last {A : Type} (l : list A) : NoDup l -> NoDup (PyList.pop_last l).
Proof.
  induction 1 as [|a l Hnin Hnd IH]; [constructor|].
  destruct l as [|b l]; [constructor|].
  rewrite pop_last_cons2. constructor; [|exact IH].
  intros Hin. apply Hnin. now apply pop_last_incl.
Qed.

Lemma Forall_pop_last {A : Type} (P : A -> Prop) (l : list A) :
  Forall P l -> Forall P (PyList.pop_last l).
Proof.
  intros Hall. apply Forall_forall. intros x Hin.
  rewrite Forall_forall in Hall. apply Hall. now apply pop_last_incl.
Qed.

Lemma Forall_below_S (i : nat) (l : list nat) :
  Forall (fun k => (k < i)%nat) l -> Forall (fun k => (k < S i)%nat) l.
Proof. apply Forall_impl. intros k Hk. lia. Qed.

Lemma step_fresh (num_values : Z) (t : tops) (i : nat) (value : V) :
  fresh_below i t -> fresh_below (S i) (step lt gt num_values t i value).
Proof.
  intros [Hnd Hall].
  assert (Hnew : ~ In i (snd t)).
  { intros Hin. rewrite Forall_forall in Hall. specialize (Hall i Hin). lia. }
  unfold step. destruct (rev (fst t)) as [|last rest].
  - unfold PyList.append, fresh_below. cbn [snd]. split.
    + apply (Permutation_NoDup (l := i :: snd t)).
      * apply Permutation_cons_append.
      * now constructor.
    + apply Forall_app. split; [now apply Forall_below_S | repeat constructor].
  - destruct (lt value last && (Z.of_nat (length (fst t)) =? num_values)).
    + split; [exact Hnd | now apply Forall_below_S].
    + assert (Hins : fresh_below (S i) (insert_sorted gt value i t)).
      { unfold insert_sorted. destruct (first_smaller gt value (fst t)) as [j|].
        - unfold fresh_below. cbn [snd]. split.
          + apply (Permutation_NoDup (insert_permutation j i (snd t))). now constructor.
          + apply (Permutation_Forall (insert_permutation j i (snd t))).
            constructor; [lia | now apply Forall_below_S].
        - split; [exact Hnd | now apply Forall_below_S]. }
      unfold trim. destruct (Z.of_nat (length (fst (insert_sorted gt value i t))) >? num_values);
        [|exact Hins].
      destruct Hins as [Hnd' Hall']. split; cbn [snd].
      * now apply NoDup_pop_last.
      * now apply Forall_pop_last.
Qed.

Lemma loop_fresh (num_values : Z) :
  forall (rest : list V) (i : nat) (t : tops),
    fresh_below i t ->
    fresh_below (i + length rest) (loop lt gt num_values rest i t).
Proof.
  induction rest as [|value rest IH]; intros i t Hfresh; cbn [loop length].
  - now rewrite Nat.add_0_r.
  - rewrite Nat.add_succ_r. apply (IH (S i)). now apply step_fresh.
Qed.

(** Whatever the values and the two comparisons, [get_top] returns no
    index twice, and every index it returns is a position of the list. *)
Theorem get_top_indexes_distinct (value_list : list V) (num_values : Z) :
  NoDup (snd (get_top lt gt value_list num_values)) /\
  Forall (fun k => (k < length value_list)%nat) (snd (get_top lt gt value_list num_values)).
Proof.
  unfold get_top.
  apply (loop_fresh num_values value_list 0 ([], [])).
  split; constructor.
Qed.

End Indexes.

(** *** Lists on which the first value is never exceeded *)

Lemma loop_dominated (num_values first : Z) :
  1 <= num_values ->
  forall (rest : list Z) (i : nat),
    Forall (fun v => v <= first) rest ->
    loop Z.ltb Z.gtb num_values rest i ([first], [0%nat]) = ([first], [0%nat]).
Proof.
  intros Hn. induction rest as [|value rest IH]; intros i Hall; cbn [loop]; [reflexivity|].
  inversion Hall as [|? ? Hle Hrest]; subst.
  replace (step Z.ltb Z.gtb num_values ([first], [0%nat]) i value) with ([first], [0%nat]).
  - now apply IH.
  - unfold step. cbn [fst snd rev app length].
    destruct ((value <? first) && (Z.of_nat 1 =? num_values)); [reflexivity|].
    unfold insert_sorted. cbn [fst snd first_smaller].
    replace (value >? first) with false
      by (symmetry; rewrite Z.gtb_ltb; apply Z.ltb_ge; lia).
    cbn [option_map]. unfold trim. cbn [fst length].
    replace (Z.of_nat 1 >? num_values) with false
      by (symmetry; rewrite Z.gtb_ltb; apply Z.ltb_ge; lia).
    reflexivity.
Qed.

(** When no value of the list is greater than its first value, [get_top]
    returns that first value alone, whatever [num_values >= 1] asks for:
    a value enters the result only by exceeding a value already kept. *)
Theorem get_top_keeps_only_an_unbeaten_first
  (first : Z) (rest : list Z) (num_values : Z) :
  1 <= num_values ->
  Forall (fun v => v <= first) rest ->
  get_top_int (first :: rest) num_values = ([first], [0%nat]).
Proof.
  intros Hn Hall. unfold get_top_int, get_top.
  cbn [loop step rev fst snd PyList.append app].
  now apply loop_dominated.
Qed.

Lemma get_top_keeps_only_an_unbeaten_first_witness :
  1 <= 10 /\ Forall (fun v => v <= 9) [7; 9; 4] /\
  get_top_int (9 :: [7; 9; 4]) 10 = ([9], [0%nat]).
Proof.
  assert (H : Forall (fun v => v <= 9) [7; 9; 4]) by (repeat constructor; lia).
  split; [lia|]. split; [exact H|].
  apply (get_top_keeps_only_an_unbeaten_first 9 [7; 9; 4] 10); [lia | exact H].
Defined.

(** *** Lists in increasing order *)

(** The result after a prefix [seen] in increasing order: its last
    [num_values] values, the greatest first, with their positions. *)
Definition ranked (num_values : Z) (seen : list Z) : list Z * list nat :=
  (firstn (Z.to_nat num_values) (rev seen),
   firstn (Z.to_nat num_values) (rev (seq 0 (length seen)))).

Lemma step_ranked (num_values : Z) (seen : list Z) (value : Z) :
  1 <= num_values ->
  Forall (fun v => v < value) seen ->
  step Z.ltb Z.gtb num_values (ranked num_values seen) (length seen) value
  = ranked num_values (seen ++ [value]).
Proof.
  intros Hn Hall. unfold ranked.
  rewrite length_app, seq_app, !rev_app_distr. cbn [length seq rev app Nat.add].
  destruct (Z.to_nat num_values) as [|n] eqn:Hnat; [lia|].
  cbn [firstn].
  destruct (rev seen) as [|top tops'] eqn:Hrev.
  - apply (f_equal (@rev Z)) in Hrev. rewrite rev_involutive in Hrev. subst seen.
    cbn. destruct n; reflexivity.
  - assert (Hlen : length (rev (seq 0 (length seen))) = length (top :: tops')).
    { rewrite <- Hrev, !length_rev, length_seq. reflexivity. }
    destruct (rev (seq 0 (length seen))) as [|k ks] eqn:Hseq; [discriminate|].
    cbn [length] in Hlen. injection Hlen as Hlen.
    assert (Htop : top < value).
    { rewrite Forall_forall in Hall. apply Hall. apply in_rev. rewrite Hrev. now left. }
    assert (Hall' : Forall (fun v => v < value) (top :: tops')).
    { rewrite <- Hrev. apply Forall_rev. exact Hall. }
    unfold step. cbn [fst snd firstn].
    destruct (rev (top :: firstn n tops')) as [|last rest'] eqn:Hr.
    { apply (f_equal (@length Z)) in Hr. rewrite length_rev in Hr. discriminate. }
    assert (Hlast : last < value).
    { assert (Hin : In last (top :: firstn n tops')) by (apply in_rev; rewrite Hr; now left).
      rewrite Forall_forall in Hall'. apply Hall'.
      destruct Hin as [<-|Hin]; [now left | right].
      rewrite <- (firstn_skipn n tops'). apply in_or_app. now left. }
    replace (value <? last) with false by (symmetry; apply Z.ltb_ge; lia).
    cbn [andb]. unfold insert_sorted. cbn [fst snd first_smaller].
    replace (value >? top) with true by (symmetry; apply Z.gtb_lt; lia).
    unfold PyList.insert. cbn [firstn skipn app]. unfold trim. cbn [fst snd length].
    destruct (Z.of_nat (S (S (length (firstn n tops')))) >? num_values) eqn:Hlong.
    + apply Z.gtb_lt in Hlong.
      assert (Hfull : (n < length (top :: tops'))%nat).
      { rewrite length_firstn in Hlong. cbn [length]. lia. }
      unfold PyList.pop_last.
      change (value :: top :: firstn n tops') with (firstn (S (S n)) (value :: top :: tops')).
      change (length seen :: k :: firstn n ks) with (firstn (S (S n)) (length seen :: k :: ks)).
      rewrite !removelast_firstn by (cbn [length] in *; lia).
      reflexivity.
    + rewrite Z.gtb_ltb in Hlong. apply Z.ltb_ge in Hlong.
      rewrite length_firstn in Hlong.
      assert (Hshort : (length tops' < n)%nat) by lia.
      rewrite !firstn_all2 by (cbn [length]; lia).
      reflexivity.
Qed.

Lemma loop_ranked (num_values : Z) :
  1 <= num_values ->
  forall (rest seen : list Z),
    StronglySorted Z.lt (seen ++ rest) ->
    loop Z.ltb Z.gtb num_values rest (length seen) (ranked num_values seen)
    = ranked num_values (seen ++ rest).
Proof.
  intros Hn. induction rest as [|value rest IH]; intros seen Hsorted; cbn [loop].
  - now rewrite app_nil_r.
  - rewrite step_ranked; [|exact Hn|].
    + replace (S (length seen)) with (length (seen ++ [value]))
        by (rewrite length_app; cbn; lia).
      replace (seen ++ value :: rest) with ((seen ++ [value]) ++ rest)
        by (now rewrite <- app_assoc).
      apply IH. now rewrite <- app_assoc.
    + clear IH. induction seen as [|a seen IHs]; [constructor|].
      cbn in Hsorted. inversion Hsorted as [|? ? Hs Hall]; subst.
      constructor; [|now apply IHs].
      rewrite Forall_forall in Hall. apply Hall. apply in_or_app. right. now left.
Qed.

(** On a list in strictly increasing order and for [num_values >= 1],
    [get_top] does return the [num_values] greatest values, the greatest
    first, each with its position: the last [num_values] elements of the
    list in reverse (all of them when the list is shorter). *)
Theorem get_top_of_increasing_list (value_list : list Z) (num_values : Z) :
  1 <= num_values ->
  StronglySorted Z.lt value_list ->
  get_top_int value_list num_values
  = (firstn (Z.to_nat num_values) (rev value_list),
     firstn (Z.to_nat num_values) (rev (seq 0 (length value_list)))).
Proof.
  intros Hn Hsorted. unfold get_top_int, get_top.
  pose proof (loop_ranked num_values Hn value_list [] Hsorted) as Hloop.
  unfold ranked in Hloop. cbn [length seq rev app] in Hloop.
  now rewrite firstn_nil, firstn_nil in Hloop.
Qed.

Lemma get_top_of_increasing_list_witness :
  1 <= 2 /\ StronglySorted Z.lt [1; 4; 6; 9] /\
  get_top_int [1; 4; 6; 9] 2 = ([9; 6], [3%nat; 2%nat]).
Proof.
  assert (H : StronglySorted Z.lt [1; 4; 6; 9]) by (repeat constructor; lia).
  split; [lia|]. split; [exact H|].
  apply (get_top_of_increasing_list [1; 4; 6; 9] 2); [lia | exact H].
Defined.

(** *** The first value returned is the maximum *)

Section Maximum.

Context {V : Type}.
Variable lt gt : V -> V -> bool.

(** The values that stand in the order: every integer, every float but
    NaN. *)
Variable ordered : V -> Prop.

Hypothesis gt_lt : forall a b, gt a b = lt b a.
Hypothesis lt_asym : forall a b, lt a b = true -> lt b a = false.
Hypothesis lt_cotrans :
  forall a b c, ordered b -> lt a c = true -> lt a b = true \/ lt b c = true.

Lemma lt_irrefl (a : V) : lt a a = false.
Proof. destruct (lt a a) eqn:H; [|reflexivity]. pose proof (lt_asym a a H). congruence. Qed.

(** What the loop keeps, once a first value is in: the lists are side by
    side, every kept value is one of the values met so far, and the head
    is a value that none of them exceeds, at the first index holding such
    a value. *)
Record leading (seen : list V) (t : tops (V := V)) : Prop := {
  leading_head :
    exists m k tv ti,
      t = (m :: tv, k :: ti) /\ nth_error seen k = Some m /\
      (forall v, In v seen -> gt v m = false) /\
      (forall j v, (j < k)%nat -> nth_error seen j = Some v -> lt v m = true);
  leading_kept : Forall (fun v => In v seen) (fst t);
  leading_paired : length (fst t) = length (snd t)
}.

Lemma trim_leading (num_values : Z) (seen : list V) (t : tops) :
  1 <= num_values -> leading seen t -> leading seen (trim num_values t).
Proof.
  intros Hn Hlead. unfold trim.
  destruct (Z.of_nat (length (fst t)) >? num_values) eqn:Hlong; [|exact Hlead].
  apply Z.gtb_lt in Hlong.
  destruct Hlead as [(m & k & tv & ti & -> & Hk & Hmax & Hfirst) Hkept Hpaired].
  cbn [fst snd] in *.
  destruct tv as [|b tv]; [cbn [length] in Hlong; lia|].
  destruct ti as [|c ti]; [discriminate|].
  constructor; cbn [fst snd].
  - rewrite !pop_last_cons2.
    exists m, k, (PyList.pop_last (b :: tv)), (PyList.pop_last (c :: ti)).
    repeat split; assumption.
  - now apply Forall_pop_last.
  - rewrite !length_pop_last. now rewrite Hpaired.
Qed.

Lemma insert_leading (seen : list V) (t : tops) (value : V) :
  Forall ordered seen ->
  leading seen t ->
  leading (seen ++ [value]) (insert_sorted gt value (length seen) t).
Proof.
  intros Hord [(m & k & tv & ti & -> & Hk & Hmax & Hfirst) Hkept Hpaired].
  rewrite Forall_forall in Hord.
  assert (Hin : (k < length seen)%nat) by (apply nth_error_Some; congruence).
  assert (Hm : In m seen) by (now apply nth_error_In with k).
  assert (Hi : nth_error (seen ++ [value]) (length seen) = Some value).
  { rewrite nth_error_app2, Nat.sub_diag by lia. reflexivity. }
  assert (Hmore : Forall (fun v => In v (seen ++ [value])) (m :: tv)).
  { revert Hkept. cbn [fst]. apply Forall_impl. intros v Hv. apply in_or_app. now left. }
  assert (Hnew : In value (seen ++ [value])) by (apply in_or_app; right; now left).
  constructor.
  - unfold insert_sorted. cbn [fst snd first_smaller].
    destruct (gt value m) eqn:Hgt.
    + rewrite gt_lt in Hgt. unfold PyList.insert. cbn [firstn skipn app].
      exists value, (length seen), (m :: tv), (k :: ti).
      split; [reflexivity|]. split; [exact Hi|]. split.
      * intros v Hv. rewrite gt_lt. apply in_app_or in Hv as [Hv|[<-|[]]]; [|apply lt_irrefl].
        destruct (lt value v) eqn:Hlt; [|reflexivity]. exfalso.
        destruct (lt_cotrans value m v (Hord m Hm) Hlt) as [H|H].
        -- apply lt_asym in Hgt. congruence.
        -- specialize (Hmax v Hv). rewrite gt_lt in Hmax. congruence.
      * intros j v Hj Hv. rewrite nth_error_app1 in Hv by exact Hj.
        apply nth_error_In in Hv.
        destruct (lt_cotrans m v value (Hord v Hv) Hgt) as [H|H]; [|exact H].
        specialize (Hmax v Hv). rewrite gt_lt in Hmax. congruence.
    + assert (Hkeep : forall tv' ti',
                 exists m' k' tv'' ti'',
                   (m :: tv', k :: ti') = (m' :: tv'', k' :: ti'') /\
                   nth_error (seen ++ [value]) k' = Some m' /\
                   (forall v, In v (seen ++ [value]) -> gt v m' = false) /\
                   (forall j v, (j < k')%nat -> nth_error (seen ++ [value]) j = Some v ->
                                lt v m' = true)).
      { intros tv' ti'. exists m, k, tv', ti'. split; [reflexivity|]. split.
        - now rewrite nth_error_app1.
        - split.
          + intros v Hv. apply in_app_or in Hv as [Hv|[<-|[]]]; [now apply Hmax | exact Hgt].
          + intros j v Hj Hv. apply (Hfirst j v Hj).
            rewrite nth_error_app1 in Hv; [exact Hv | lia]. }
      destruct (first_smaller gt value tv) as [j|]; cbn [option_map].
      * unfold PyList.insert. cbn [firstn skipn app]. apply Hkeep.
      * apply Hkeep.
  - unfold insert_sorted.
    destruct (first_smaller gt value (fst (m :: tv, k :: ti))) as [j|]; [|exact Hmore].
    cbn [fst]. apply (Permutation_Forall (insert_permutation j value (m :: tv))).
    now constructor.
  - unfold insert_sorted.
    destruct (first_smaller gt value (fst (m :: tv, k :: ti))); [|exact Hpaired].
    cbn [fst snd] in *. now rewrite !length_insert, Hpaired.
Qed.

Lemma step_leading (num_values : Z) (seen : list V) (t : tops) (value : V) :
  1 <= num_values ->
  Forall ordered seen ->
  leading seen t ->
  leading (seen ++ [value]) (step lt gt num_values t (length seen) value).
Proof.
  intros Hn Hord Hlead. unfold step.
  destruct (rev (fst t)) as [|last rest] eqn:Hrev.
  { destruct Hlead as [(m & k & tv & ti & -> & _) _ _]. cbn [fst] in Hrev.
    apply (f_equal (@length V)) in Hrev. rewrite length_rev in Hrev. discriminate. }
  destruct (lt value last && (Z.of_nat (length (fst t)) =? num_values)) eqn:Hskip.
  - apply andb_prop in Hskip as [Hlt _].
    destruct Hlead as [(m & k & tv & ti & -> & Hk & Hmax & Hfirst) Hkept Hpaired].
    cbn [fst] in *.
    assert (Hlast : In last seen).
    { rewrite Forall_forall in Hkept. apply Hkept. apply in_rev. rewrite Hrev. now left. }
    assert (Hin : (k < length seen)%nat) by (apply nth_error_Some; congruence).
    assert (Hvalue : gt value m = false).
    { rewrite gt_lt. destruct (lt m value) eqn:Hmv; [|reflexivity]. exfalso.
      rewrite Forall_forall in Hord.
      destruct (lt_cotrans m last value (Hord last Hlast) Hmv) as [H|H].
      - specialize (Hmax last Hlast). rewrite gt_lt in Hmax. congruence.
      - apply lt_asym in Hlt. congruence. }
    constructor; [| |exact Hpaired].
    + exists m, k, tv, ti. split; [reflexivity|]. split; [now rewrite nth_error_app1|]. split.
      * intros v Hv. apply in_app_or in Hv as [Hv|[<-|[]]]; [now apply Hmax | exact Hvalue].
      * intros j v Hj Hv. apply (Hfirst j v Hj).
        rewrite nth_error_app1 in Hv; [exact Hv | lia].
    + revert Hkept. cbn [fst]. apply Forall_impl. intros v Hv. apply in_or_app. now left.
  - apply trim_leading; [exact Hn|]. now apply insert_leading.
Qed.

Lemma loop_leading (num_values : Z) :
  1 <= num_values ->
  forall (rest seen : list V) (t : tops),
    Forall ordered (seen ++ rest) ->
    leading seen t ->
    leading (seen ++ rest) (loop lt gt num_values rest (length seen) t).
Proof.
  intros Hn. induction rest as [|value rest IH]; intros seen t Hord Hlead; cbn [loop].
  - now rewrite app_nil_r.
  - replace (seen ++ value :: rest) with ((seen ++ [value]) ++ rest) in *
      by (now rewrite <- app_assoc).
    replace (S (length seen)) with (length (seen ++ [value]))
      by (rewrite length_app; cbn; lia).
    apply IH; [exact Hord|]. apply step_leading; [exact Hn| |exact Hlead].
    apply Forall_app in Hord as [Hord _]. now apply Forall_app in Hord as [Hord _].
Qed.

Lemma head_is_maximum (value_list : list V) (num_values : Z) :
  1 <= num_values -> value_list <> [] -> Forall ordered value_list ->
  exists m k top_values top_indexes,
    get_top lt gt value_list num_values = (m :: top_values, k :: top_indexes) /\
    nth_error value_list k = Some m /\
    (forall v, In v value_list -> gt v m = false) /\
    (forall j v, (j < k)%nat -> nth_error value_list j = Some v -> lt v m = true).
Proof.
  intros Hn Hne Hord. destruct value_list as [|first rest]; [contradiction|].
  unfold get_top. cbn [loop step rev fst snd PyList.append app].
  assert (Hstart : leading [first] ([first], [0%nat])).
  { constructor.
    - exists first, 0%nat, [], []. repeat split.
      + intros v [<-|[]]. rewrite gt_lt. apply lt_irrefl.
      + intros j v Hj. lia.
    - repeat constructor.
    - reflexivity. }
  destruct (loop_leading num_values Hn rest [first] _ Hord Hstart) as [Hhead _ _].
  exact Hhead.
Qed.

End Maximum.

(** The cases of the comparisons of exponents and mantissas that a goal
    or a hypothesis mentions. *)
Ltac order_cases :=
  repeat match goal with
  | |- context [Z.compare ?x ?y] => destruct (Z.compare_spec x y); subst; cbn
  | H : context [Z.compare ?x ?y] |- _ => destruct (Z.compare_spec x y); subst; cbn in H
  | |- context [Pos.compare ?x ?y] => destruct (Pos.compare_spec x y); subst; cbn
  | H : context [Pos.compare ?x ?y] |- _ => destruct (Pos.compare_spec x y); subst; cbn in H
  end.

(** Python's [<] on floats: of three floats the second of which is not
    NaN, the first is less than the second or the second less than the
    third whenever the first is less than the third. *)
Lemma float_lt_cotrans (a b c : PyFloat.float) :
  PyFloat.is_nan b = false ->
  PyFloat.ltb a c = true -> PyFloat.ltb a b = true \/ PyFloat.ltb b c = true.
Proof.
  unfold PyFloat.ltb, SFltb. intros Hb.
  destruct a as [sa|sa| |sa ma ea], b as [sb|sb| |sb mb eb], c as [sc|sc| |sc mc ec];
    try discriminate; cbn;
    repeat match goal with s : bool |- _ => destruct s end; cbn;
    try (intros; discriminate); try (intros _; now left); try (intros _; now right).
  all: change (Pos.compare_cont Eq) with Pos.compare.
  all: intros H; order_cases; try discriminate; try lia; try (now left); try (now right).
Qed.

(** Take a list of floats that is not empty and holds no NaN, as the
    grain weights the script passes, and [num_values] at least 1.  No
    value of the list is greater than the first value [get_top] returns,
    and the first index it returns is the first position holding that
    maximum: every value before it is less. *)
Theorem get_top_first_is_maximum (value_list : list PyFloat.float) (num_values : Z) :
  1 <= num_values -> value_list <> [] ->
  Forall (fun v => PyFloat.is_nan v = false) value_list ->
  exists m k top_values top_indexes,
    get_top PyFloat.ltb PyFloat.gtb value_list num_values
      = (m :: top_values, k :: top_indexes) /\
    nth_error value_list k = Some m /\
    (forall v, In v value_list -> PyFloat.gtb v m = false) /\
    (forall j v, (j < k)%nat -> nth_error value_list j = Some v -> PyFloat.ltb v m = true).
Proof.
  apply (head_is_maximum PyFloat.ltb PyFloat.gtb (fun v => PyFloat.is_nan v = false)).
  - reflexivity.
  - intros a b H. exact (FloatOrder.gtb_asym b a H).
  - exact float_lt_cotrans.
Qed.

Lemma get_top_first_is_maximum_witness :
  let value_list := map PyFloat.lit ["0.3"; "0.8"; "0.5"; "0.8"]%string in
  1 <= 2 /\ value_list <> [] /\
  Forall (fun v => PyFloat.is_nan v = false) value_list /\
  exists m k top_values top_indexes,
    get_top PyFloat.ltb PyFloat.gtb value_list 2 = (m :: top_values, k :: top_indexes) /\
    nth_error value_list k = Some m /\
    (forall v, In v value_list -> PyFloat.gtb v m = false) /\
    (forall j v, (j < k)%nat -> nth_error value_list j = Some v -> PyFloat.ltb v m = true).
Proof.
  cbv zeta.
  assert (H : Forall (fun v => PyFloat.is_nan v = false)
                (map PyFloat.lit ["0.3"; "0.8"; "0.5"; "0.8"]%string))
    by (repeat constructor).
  split; [lia|]. split; [discriminate|]. split; [exact H|].
  apply (get_top_first_is_maximum _ 2); [lia | discriminate | exact H].
Defined.

(** The same on integers, all of which stand in the order. *)
Lemma int_head_is_maximum (value_list : list Z) (num_values : Z) :
  1 <= num_values -> value_list <> [] ->
  exists m k top_values top_indexes,
    get_top_int value_list num_values = (m :: top_values, k :: top_indexes) /\
    nth_error value_list k = Some m /\
    (forall v, In v value_list -> v <= m) /\
    (forall j v, (j < k)%nat -> nth_error value_list j = Some v -> v < m).
Proof.
  intros Hn Hne.
  destruct (head_is_maximum Z.ltb Z.gtb (fun _ => True)) with (value_list := value_list)
    (num_values := num_values) as (m & k & tv & ti & Htop & Hk & Hmax & Hfirst);
    try assumption.
  - intros a b. apply Z.gtb_ltb.
  - intros a b H. apply Z.ltb_lt in H. apply Z.ltb_ge. lia.
  - intros a b c _ H. apply Z.ltb_lt in H.
    destruct (Z.ltb_spec a b); [now left | right; apply Z.ltb_lt; lia].
  - apply Forall_forall. intros; exact I.
  - exists m, k, tv, ti. repeat split; try assumption.
    + intros v Hv. specialize (Hmax v Hv). rewrite Z.gtb_ltb in Hmax.
      now apply Z.ltb_ge in Hmax.
    + intros j v Hj Hv. apply Z.ltb_lt. now apply (Hfirst j v Hj).
Qed.

(** With NaN first in the list nothing else is kept, though 5 is the
    greater of the other two. *)
Example get_top_nan_first :
  get_top PyFloat.ltb PyFloat.gtb [S754_nan; PyFloat.lit "5"; PyFloat.lit "1"] 2
  = ([S754_nan], [0%nat]).
Proof. vm_compute. reflexivity. Qed.

End GetTopOrder.

(** ** [get_grain_dict]: what the six columns hold, and when it raises *)

Module GrainTable.

Import Dict Grains.
Local Open Scope string_scope.

Definition phi_1 (e : euler) : PyFloat.float := fst (fst e).
Definition Phi (e : euler) : PyFloat.float := snd (fst e).
Definition phi_2 (e : euler) : PyFloat.float := snd e.

(** A grain dict with its six columns, in the order of lines 165-166. *)
Definition grain_table (phi_1_start phi_1_end Phi_start Phi_end phi_2_start phi_2_end
                        : list PyFloat.float) : Dict.t (list PyFloat.float) :=
  [("phi_1_start", phi_1_start); ("phi_1_end", phi_1_end); ("Phi_start", Phi_start);
   ("Phi_end", Phi_end); ("phi_2_start", phi_2_start); ("phi_2_end", phi_2_end)].

(** The orientations of grain [i], one per state of the history. *)
Lemma trajectory_eulers (history : list (list euler)) (i : nat) :
  Forall (fun state => (i < length state)%nat) history ->
  exists eulers,
    Forall2 (fun state e => nth_error state i = Some e) history eulers /\
    trajectory history i = Ok (map phi_1 eulers, map Phi eulers, map phi_2 eulers).
Proof.
  intros Hall. unfold trajectory.
  assert (Hm : exists eulers,
             Forall2 (fun state e => nth_error state i = Some e) history eulers /\
             mapM (fun state => of_option IndexError (nth_error state i)) history = Ok eulers).
  { induction Hall as [|state history Hi _ IH]; cbn [mapM].
    - exists []. split; constructor.
    - destruct IH as (eulers & Hf & ->).
      destruct (nth_error state i) as [e|] eqn:He.
      + exists (e :: eulers). split; [now constructor | reflexivity].
      + apply nth_error_None in He. lia. }
  destruct Hm as (eulers & Hf & ->). exists eulers. split; [exact Hf | reflexivity].
Qed.

Lemma final_map {A B : Type} (f : A -> B) (l : list A) (x : A) :
  hd_error (rev l) = Some x -> final (map f l) = Ok (f x).
Proof.
  intros Hx. unfold final. rewrite <- map_rev.
  destruct (rev l) as [|y r]; [discriminate|]. now injection Hx as ->.
Qed.

Lemma Forall2_last {A B : Type} (P : A -> B -> Prop) (l : list A) (k : list B) (a : A) :
  Forall2 P l k -> hd_error (rev l) = Some a ->
  exists b, hd_error (rev k) = Some b /\ P a b.
Proof.
  intros Hf Ha.
  assert (Hrev : Forall2 P (rev l) (rev k)).
  { clear Ha. induction Hf as [|x y l k Hxy _ IH]; [constructor|].
    cbn [rev]. apply Forall2_app; [exact IH | now constructor]. }
  destruct Hrev as [|a' b l' k' Hab _]; [discriminate|].
  cbn in Ha. injection Ha as ->. now exists b.
Qed.

(** One pass of the loop over the grains appends the first and the last
    orientation of grain [i] to the six columns. *)
Lemma add_grain_appends (history : list (list euler)) (i : nat)
  (first_state last_state : list euler) (a b c d e f : list PyFloat.float) :
  hd_error history = Some first_state ->
  hd_error (rev history) = Some last_state ->
  Forall (fun state => (i < length state)%nat) history ->
  exists start finish,
    nth_error first_state i = Some start /\ nth_error last_state i = Some finish /\
    add_grain history (grain_table a b c d e f) i
    = Ok (grain_table (a ++ [phi_1 start]) (b ++ [phi_1 finish]) (c ++ [Phi start])
            (d ++ [Phi finish]) (e ++ [phi_2 start]) (f ++ [phi_2 finish])).
Proof.
  intros Hfirst Hlast Hall.
  destruct (trajectory_eulers history i Hall) as (eulers & Hf & Ht).
  destruct (Forall2_last _ _ _ _ Hf Hlast) as (finish & Hfin & Hfinish).
  destruct Hf as [|state start history eulers Hstart Hrest]; [discriminate|].
  cbn in Hfirst. injection Hfirst as ->.
  exists start, finish. split; [exact Hstart|]. split; [exact Hfinish|].
  unfold add_grain. rewrite Ht. cbn [bind].
  rewrite !(final_map _ _ _ Hfin). cbn [map first hd_error of_option bind].
  reflexivity.
Qed.

Lemma foldM_add_grain (history : list (list euler)) (first_state last_state : list euler) :
  hd_error history = Some first_state ->
  hd_error (rev history) = Some last_state ->
  forall (indexes : list nat) (a b c d e f : list PyFloat.float),
    Forall (fun i => Forall (fun state => (i < length state)%nat) history) indexes ->
    exists starts finishes,
      Forall2 (fun i x => nth_error first_state i = Some x) indexes starts /\
      Forall2 (fun i x => nth_error last_state i = Some x) indexes finishes /\
      foldM (add_grain history) indexes (grain_table a b c d e f)
      = Ok (grain_table (a ++ map phi_1 starts) (b ++ map phi_1 finishes)
              (c ++ map Phi starts) (d ++ map Phi finishes)
              (e ++ map phi_2 starts) (f ++ map phi_2 finishes)).
Proof.
  intros Hfirst Hlast. induction indexes as [|i indexes IH]; intros a b c d e f Hall.
  - exists [], []. cbn [map foldM]. rewrite !app_nil_r. repeat split; constructor.
  - inversion Hall as [|? ? Hi Hrest]; subst.
    destruct (add_grain_appends history i first_state last_state a b c d e f Hfirst Hlast Hi)
      as (start & finish & Hs & Hf & Hadd).
    destruct (IH (a ++ [phi_1 start])%list (b ++ [phi_1 finish])%list
                (c ++ [Phi start])%list (d ++ [Phi finish])%list
                (e ++ [phi_2 start])%list (f ++ [phi_2 finish])%list Hrest)
      as (starts & finishes & Hss & Hfs & Hfold).
    exists (start :: starts), (finish :: finishes).
    split; [now constructor|]. split; [now constructor|].
    cbn [foldM]. rewrite Hadd. cbn [bind]. rewrite Hfold.
    cbn [map]. now rewrite <- !app_assoc.
Qed.

(** When every state of the history has an orientation at every index
    asked for, [get_grain_dict] returns six columns with one entry per
    index, in the order of the indexes: the three angles of that grain in
    the first state of the history under the [_start] keys, and in the
    last state under the [_end] keys. *)
Theorem get_grain_dict_first_and_last
  (history : list (list euler)) (indexes : list nat) (first_state last_state : list euler) :
  hd_error history = Some first_state ->
  hd_error (rev history) = Some last_state ->
  Forall (fun i => Forall (fun state => (i < length state)%nat) history) indexes ->
  exists starts finishes,
    Forall2 (fun i x => nth_error first_state i = Some x) indexes starts /\
    Forall2 (fun i x => nth_error last_state i = Some x) indexes finishes /\
    get_grain_dict history indexes
    = Ok [("phi_1_start", map phi_1 starts); ("phi_1_end", map phi_1 finishes);
          ("Phi_start", map Phi starts); ("Phi_end", map Phi finishes);
          ("phi_2_start", map phi_2 starts); ("phi_2_end", map phi_2 finishes)].
Proof.
  intros Hfirst Hlast Hall.
  exact (foldM_add_grain history first_state last_state Hfirst Hlast indexes
           [] [] [] [] [] [] Hall).
Qed.

Lemma get_grain_dict_first_and_last_witness :
  let one := PyFloat.lit "1.0" in
  let two := PyFloat.lit "2.0" in
  let history := [[(one, one, one); (two, two, two)]; [(two, one, two); (one, two, one)]] in
  hd_error history = Some [(one, one, one); (two, two, two)] /\
  hd_error (rev history) = Some [(two, one, two); (one, two, one)] /\
  Forall (fun i => Forall (fun state => (i < length state)%nat) history) [1%nat; 0%nat] /\
  exists starts finishes,
    Forall2 (fun i x => nth_error [(one, one, one); (two, two, two)] i = Some x)
      [1%nat; 0%nat] starts /\
    Forall2 (fun i x => nth_error [(two, one, two); (one, two, one)] i = Some x)
      [1%nat; 0%nat] finishes /\
    get_grain_dict history [1%nat; 0%nat]
    = Ok [("phi_1_start", map phi_1 starts); ("phi_1_end", map phi_1 finishes);
          ("Phi_start", map Phi starts); ("Phi_end", map Phi finishes);
          ("phi_2_start", map phi_2 starts); ("phi_2_end", map phi_2 finishes)].
Proof.
  cbv zeta.
  assert (H : Forall (fun i => Forall (fun state => (i < length state)%nat)
                       [[(PyFloat.lit "1.0", PyFloat.lit "1.0", PyFloat.lit "1.0");
                         (PyFloat.lit "2.0", PyFloat.lit "2.0", PyFloat.lit "2.0")];
                        [(PyFloat.lit "2.0", PyFloat.lit "1.0", PyFloat.lit "2.0");
                         (PyFloat.lit "1.0", PyFloat.lit "2.0", PyFloat.lit "1.0")]])
                     [1%nat; 0%nat]).
  { repeat constructor. }
  split; [reflexivity|]. split; [reflexivity|]. split; [exact H|].
  apply get_grain_dict_first_and_last; [reflexivity | reflexivity | exact H].
Defined.

(** *** When it raises *)

Lemma trajectory_raises (history : list (list euler)) (i : nat) :
  Exists (fun state => (length state <= i)%nat) history ->
  trajectory history i = Err IndexError.
Proof.
  intros Hbad. unfold trajectory.
  assert (Hm : mapM (fun state => of_option IndexError (nth_error state i)) history
               = Err IndexError).
  { induction history as [|state history IH]; [inversion Hbad|]. cbn [mapM].
    destruct (nth_error state i) as [e|] eqn:He; [|reflexivity].
    cbn [of_option bind]. rewrite IH; [reflexivity|].
    inversion Hbad as [? ? Hshort|? ? Hlater]; subst; [|exact Hlater].
    assert (i < length state)%nat by (apply nth_error_Some; congruence). lia. }
  now rewrite Hm.
Qed.

Lemma foldM_add_grain_raises (history : list (list euler)) :
  history <> [] ->
  forall (indexes : list nat) (a b c d e f : list PyFloat.float),
    Exists (fun i => Exists (fun state => (length state <= i)%nat) history) indexes ->
    foldM (add_grain history) indexes (grain_table a b c d e f) = Err IndexError.
Proof.
  intros Hne.
  assert (Hfirst : exists first_state, hd_error history = Some first_state).
  { destruct history as [|s h]; [contradiction | now exists s]. }
  assert (Hlast : exists last_state, hd_error (rev history) = Some last_state).
  { destruct (rev history) as [|s h] eqn:Hrev; [|now exists s].
    apply (f_equal (@rev (list euler))) in Hrev. rewrite rev_involutive in Hrev.
    contradiction. }
  destruct Hfirst as [first_state Hfirst]. destruct Hlast as [last_state Hlast].
  induction indexes as [|i indexes IH]; intros a b c d e f Hbad; [inversion Hbad|].
  cbn [foldM].
  destruct (Forall_Exists_dec (fun state => (i < length state)%nat)
              (fun state => lt_dec i (length state)) history) as [Hgood|Hshort].
  - destruct (add_grain_appends history i first_state last_state a b c d e f
                Hfirst Hlast Hgood) as (start & finish & _ & _ & ->).
    cbn [bind]. apply IH.
    inversion Hbad as [? ? Hhere|? ? Hlater]; subst; [|exact Hlater].
    exfalso. rewrite Forall_forall in Hgood. apply Exists_exists in Hhere.
    destruct Hhere as (state & Hin & Hle). specialize (Hgood state Hin). lia.
  - unfold add_grain. rewrite trajectory_raises; [reflexivity|].
    apply Exists_exists in Hshort. destruct Hshort as (state & Hin & Hnot).
    apply Exists_exists. exists state. split; [exact Hin | lia].
Qed.

(** [get_grain_dict] raises [IndexError] when it is asked for a grain and
    the history is empty, and when some state of the history has no
    orientation at one of the indexes asked for. *)
Theorem get_grain_dict_raises (history : list (list euler)) (indexes : list nat) :
  indexes <> [] ->
  history = [] \/
  Exists (fun i => Exists (fun state => (length state <= i)%nat) history) indexes ->
  get_grain_dict history indexes = Err IndexError.
Proof.
  intros Hidx Hbad. unfold get_grain_dict.
  destruct history as [|state history].
  - destruct indexes as [|i indexes]; [contradiction | reflexivity].
  - destruct Hbad as [Hnil|Hbad]; [discriminate|].
    now apply (foldM_add_grain_raises (state :: history)).
Qed.

Lemma get_grain_dict_raises_witness :
  [2%nat] <> [] /\
  ([[(S754_zero false, S754_zero false, S754_zero false)]] = [] \/
   Exists (fun i => Exists (fun state => (length state <= i)%nat)
                      [[(S754_zero false, S754_zero false, S754_zero false)]]) [2%nat]) /\
  get_grain_dict [[(S754_zero false, S754_zero false, S754_zero false)]] [2%nat]
  = Err IndexError.
Proof.
  assert (H : Exists (fun i => Exists (fun state => (length state <= i)%nat)
                       [[(S754_zero false, S754_zero false, S754_zero false)]]) [2%nat]).
  { repeat constructor. }
  split; [discriminate|]. split; [now right|].
  apply get_grain_dict_raises; [discriminate | now right].
Defined.

End GrainTable.

(** ** [define_params] as the sweep calls it *)

Module DefineParams.

Import Dict DictFacts DictUpdateFacts.
Local Open Scope string_scope.

Lemma get_in {V : Type} (d : Dict.t V) (k : string) (v : V) :
  get d k = Some v -> In (k, v) d.
Proof.
  induction d as [|[k' v'] d IH]; cbn; [discriminate|].
  destruct (String.eqb k' k) eqn:E.
  - apply String.eqb_eq in E. intros H. injection H as <-. subst. now left.
  - intros H. right. now apply IH.
Qed.

Lemma get_none_not_key {V : Type} (d : Dict.t V) (k : string) :
  get d k = None -> ~ In k (keys d).
Proof.
  intros Hnone Hin. destruct (in_keys_get d k Hin) as [v Hv]. congruence.
Qed.

(** The sweep passes the combination to [define_params] by name (line
    254).  With distinct names, one per value, the call returns exactly
    when the names are the five argument names in some order, and each
    field then holds the value zipped with its name; otherwise it raises
    [TypeError]. *)
Theorem define_params_by_name (param_names : list string) (combination : list number) :
  NoDup param_names ->
  length combination = length param_names ->
  match Model.define_params (Sweep.make_param_dict param_names combination) with
  | Ok p =>
      Permutation param_names Model.param_names /\
      In ("tau_sat", tau_sat p) (combine param_names combination) /\
      In ("b", b p) (combine param_names combination) /\
      In ("tau_0", tau_0 p) (combine param_names combination) /\
      In ("gamma_0", gamma_0 p) (combine param_names combination) /\
      In ("n", n p) (combine param_names combination)
  | Err e => e = TypeError /\ ~ Permutation param_names Model.param_names
  end.
Proof.
  intros Hnd Hlen.
  assert (Hk : keys (combine param_names combination) = param_names)
    by (apply keys_combine; congruence).
  unfold Sweep.make_param_dict. rewrite of_pairs_fresh by (now rewrite Hk).
  unfold Model.define_params. rewrite Hk.
  destruct (forallb (fun k => existsb (String.eqb k) Model.param_names) param_names) eqn:Hall.
  - assert (Hsub : forall k, In k param_names -> In k Model.param_names).
    { intros k Hin. rewrite forallb_forall in Hall. specialize (Hall k Hin).
      apply existsb_exists in Hall. destruct Hall as (k' & Hin' & E).
      apply String.eqb_eq in E. now subst. }
    assert (Hmiss : forall name, In name Model.param_names ->
              get (combine param_names combination) name = None ->
              ~ Permutation param_names Model.param_names).
    { intros name Hin Hnone Hperm. apply get_none_not_key in Hnone. apply Hnone.
      rewrite Hk. apply Permutation_in with Model.param_names;
        [now apply Permutation_sym | exact Hin]. }
    destruct (get (combine param_names combination) "tau_sat") as [v1|] eqn:H1;
      [|split; [reflexivity | apply (Hmiss "tau_sat"); [cbn; tauto | exact H1]]].
    destruct (get (combine param_names combination) "b") as [v2|] eqn:H2;
      [|split; [reflexivity | apply (Hmiss "b"); [cbn; tauto | exact H2]]].
    destruct (get (combine param_names combination) "tau_0") as [v3|] eqn:H3;
      [|split; [reflexivity | apply (Hmiss "tau_0"); [cbn; tauto | exact H3]]].
    destruct (get (combine param_names combination) "gamma_0") as [v4|] eqn:H4;
      [|split; [reflexivity | apply (Hmiss "gamma_0"); [cbn; tauto | exact H4]]].
    destruct (get (combine param_names combination) "n") as [v5|] eqn:H5;
      [|split; [reflexivity | apply (Hmiss "n"); [cbn; tauto | exact H5]]].
    cbn [of_option bind tau_sat b tau_0 gamma_0 n].
    split; [|repeat split; now apply get_in].
    apply NoDup_Permutation;
      [exact Hnd | repeat constructor; cbn; intuition discriminate|].
    intros k. split; [apply Hsub|].
    intros Hin. rewrite <- Hk. cbn in Hin.
    destruct Hin as [<-|[<-|[<-|[<-|[<-|[]]]]]]; eapply get_some_in_keys; eassumption.
  - split; [reflexivity|]. intros Hperm.
    assert (Htrue : forallb (fun k => existsb (String.eqb k) Model.param_names) param_names
                    = true).
    { apply forallb_forall. intros k Hin. apply existsb_exists. exists k.
      split; [now apply (Permutation_in k Hperm) | apply String.eqb_refl]. }
    congruence.
Qed.

Lemma define_params_by_name_witness :
  NoDup ["n"; "b"; "tau_sat"; "tau_0"; "gamma_0"] /\
  length [PyInt 2; PyInt 7; PyInt 50; PyInt 100; PyInt 3]
  = length ["n"; "b"; "tau_sat"; "tau_0"; "gamma_0"] /\
  match Model.define_params
          (Sweep.make_param_dict ["n"; "b"; "tau_sat"; "tau_0"; "gamma_0"]
             [PyInt 2; PyInt 7; PyInt 50; PyInt 100; PyInt 3]) with
  | Ok p =>
      Permutation ["n"; "b"; "tau_sat"; "tau_0"; "gamma_0"] Model.param_names /\
      In ("tau_sat", tau_sat p)
        (combine ["n"; "b"; "tau_sat"; "tau_0"; "gamma_0"]
           [PyInt 2; PyInt 7; PyInt 50; PyInt 100; PyInt 3]) /\
      In ("b", b p)
        (combine ["n"; "b"; "tau_sat"; "tau_0"; "gamma_0"]
           [PyInt 2; PyInt 7; PyInt 50; PyInt 100; PyInt 3]) /\
      In ("tau_0", tau_0 p)
        (combine ["n"; "b"; "tau_sat"; "tau_0"; "gamma_0"]
           [PyInt 2; PyInt 7; PyInt 50; PyInt 100; PyInt 3]) /\
      In ("gamma_0", gamma_0 p)
        (combine ["n"; "b"; "tau_sat"; "tau_0"; "gamma_0"]
           [PyInt 2; PyInt 7; PyInt 50; PyInt 100; PyInt 3]) /\
      In ("n", n p)
        (combine ["n"; "b"; "tau_sat"; "tau_0"; "gamma_0"]
           [PyInt 2; PyInt 7; PyInt 50; PyInt 100; PyInt 3])
  | Err e => e = TypeError /\
             ~ Permutation ["n"; "b"; "tau_sat"; "tau_0"; "gamma_0"] Model.param_names
  end.
Proof.
  assert (H1 : NoDup ["n"; "b"; "tau_sat"; "tau_0"; "gamma_0"]).
  { repeat constructor; cbn; intuition discriminate. }
  split; [exact H1|]. split; [reflexivity|].
  exact (define_params_by_name ["n"; "b"; "tau_sat"; "tau_0"; "gamma_0"]
           [PyInt 2; PyInt 7; PyInt 50; PyInt 100; PyInt 3] H1 eq_refl).
Defined.

End DefineParams.

(** ** Writing a dict and reading the file back *)

Module CsvRoundTrip.

Import Dict DictFacts Csv CsvSpec.

(** [c not in s]. *)
Fixpoint lacks (c : ascii) (s : string) : bool :=
  match s with
  | EmptyString => true
  | String a rest => negb (Ascii.eqb a c) && lacks c rest
  end.

(** A text that holds no comma and no line break.  A carriage return
    counts as one: a file opened for reading translates it to a newline. *)
Definition plain (s : string) : bool :=
  lacks PyStr.comma s && lacks PyStr.newline s && lacks PyStr.carriage_return s.

Lemma lacks_app (c : ascii) (s t : string) :
  lacks c (s ++ t) = lacks c s && lacks c t.
Proof.
  induction s as [|a s IH]; cbn; [reflexivity|]. now rewrite IH, andb_assoc.
Qed.

(** *** [split] undoes [join] *)

Lemma split_not_nil (sep : ascii) (s : string) : PyStr.split sep s <> [].
Proof.
  destruct s as [|c s]; cbn; [discriminate|].
  destruct (Ascii.eqb c sep); [discriminate|].
  destruct (PyStr.split sep s); discriminate.
Qed.

Lemma split_lacking (sep : ascii) (s : string) :
  lacks sep s = true -> PyStr.split sep s = [s].
Proof.
  induction s as [|c s IH]; cbn; [reflexivity|].
  intros H. apply andb_prop in H as [Hc Hs].
  apply negb_true_iff in Hc. rewrite Hc, (IH Hs). reflexivity.
Qed.

Lemma split_app (sep : ascii) (s t : string) :
  lacks sep s = true ->
  PyStr.split sep (s ++ String sep t) = s :: PyStr.split sep t.
Proof.
  induction s as [|c s IH]; cbn.
  - intros _. now rewrite Ascii.eqb_refl.
  - intros H. apply andb_prop in H as [Hc Hs].
    apply negb_true_iff in Hc. rewrite Hc, (IH Hs). reflexivity.
Qed.

Lemma join_cons (sep : ascii) (part next : string) (parts : list string) :
  String.concat (String sep EmptyString) (part :: next :: parts)
  = (part ++ String sep (String.concat (String sep EmptyString) (next :: parts)))%string.
Proof. reflexivity. Qed.

Lemma split_join (sep : ascii) (parts : list string) :
  parts <> [] ->
  Forall (fun part => lacks sep part = true) parts ->
  PyStr.split sep (PyStr.join (String sep EmptyString) parts) = parts.
Proof.
  unfold PyStr.join. intros Hne Hall.
  induction Hall as [|part parts Hpart Hparts IH]; [contradiction|].
  destruct parts as [|next parts].
  - cbn. now apply split_lacking.
  - rewrite join_cons, split_app by exact Hpart. f_equal. apply IH. discriminate.
Qed.

Lemma lacks_join (c sep : ascii) (parts : list string) :
  Ascii.eqb sep c = false ->
  Forall (fun part => lacks c part = true) parts ->
  lacks c (PyStr.join (String sep EmptyString) parts) = true.
Proof.
  unfold PyStr.join. intros Hsep Hall.
  induction Hall as [|part parts Hpart Hparts IH]; [reflexivity|].
  destruct parts as [|next parts]; [exact Hpart|].
  rewrite join_cons, lacks_app, Hpart. cbn [andb lacks]. now rewrite Hsep, IH.
Qed.

(** *** Lines *)

Lemma remove_lacking (c : ascii) (s : string) : lacks c s = true -> PyStr.remove c s = s.
Proof.
  induction s as [|a s IH]; cbn; [reflexivity|].
  intros H. apply andb_prop in H as [Ha Hs].
  apply negb_true_iff in Ha. now rewrite Ha, (IH Hs).
Qed.

Lemma remove_line (s : string) :
  lacks PyStr.newline s = true ->
  PyStr.remove PyStr.newline (s ++ String PyStr.newline EmptyString) = s.
Proof.
  induction s as [|a s IH]; cbn; [reflexivity|].
  intros H. apply andb_prop in H as [Ha Hs].
  apply negb_true_iff in Ha. now rewrite Ha, (IH Hs).
Qed.

(** A text without a carriage return is read as it is. *)
Lemma translate_lacking (s : string) :
  lacks PyStr.carriage_return s = true -> PyStr.translate_newlines s = s.
Proof.
  induction s as [|a s IH]; cbn [PyStr.translate_newlines lacks]; [reflexivity|].
  intros H. apply andb_prop in H as [Ha Hs].
  apply negb_true_iff in Ha. rewrite Ha. now rewrite (IH Hs).
Qed.

Lemma readlines_lacking (s : string) :
  lacks PyStr.carriage_return s = true -> PyStr.readlines s = PyStr.lines_of s.
Proof. intros H. unfold PyStr.readlines. now rewrite translate_lacking. Qed.

Lemma lacks_concat_all (c : ascii) (parts : list string) :
  Forall (fun part => lacks c part = true) parts ->
  lacks c (PyStr.concat_all parts) = true.
Proof.
  induction 1 as [|part parts Hpart _ IH]; [reflexivity|].
  cbn [PyStr.concat_all fold_right]. fold (PyStr.concat_all parts).
  now rewrite lacks_app, Hpart, IH.
Qed.

Lemma lines_of_line (s rest : string) :
  lacks PyStr.newline s = true ->
  PyStr.lines_of ((s ++ String PyStr.newline EmptyString) ++ rest)
  = (s ++ String PyStr.newline EmptyString)%string :: PyStr.lines_of rest.
Proof.
  induction s as [|a s IH]; cbn.
  - reflexivity.
  - intros H. apply andb_prop in H as [Ha Hs].
    apply negb_true_iff in Ha. rewrite Ha, (IH Hs). reflexivity.
Qed.

Lemma lines_of_lines (lines : list string) :
  Forall (fun line => lacks PyStr.newline line = true) lines ->
  PyStr.lines_of
    (PyStr.concat_all (map (fun line => line ++ String PyStr.newline EmptyString)%string lines))
  = map (fun line => line ++ String PyStr.newline EmptyString)%string lines.
Proof.
  induction 1 as [|line lines Hline _ IH]; [reflexivity|].
  cbn [map PyStr.concat_all fold_right].
  rewrite lines_of_line by exact Hline. f_equal. exact IH.
Qed.

(** *** The lines of a written table *)

Section Table.

Context {A : Type}.
Variable str : A -> string.

Variable d : Dict.t (value A).
Hypothesis d_not_empty : d <> [].
Hypothesis keys_distinct : NoDup (keys d).
Hypothesis keys_plain : Forall (fun k => plain k = true) (keys d).
Hypothesis items_plain :
  Forall (fun kv => Forall (fun a => plain (str a) = true) (items (snd kv))) d.

(** The fields of row [i]. *)
Definition row (i : nat) : list string := map (fun kv => cell_text str i (snd kv)) d.

Lemma plain_parts (s : string) :
  plain s = true -> lacks PyStr.comma s = true /\ lacks PyStr.newline s = true.
Proof.
  unfold plain. intros H. apply andb_prop in H as [H _]. now apply andb_prop in H.
Qed.

Lemma plain_return (s : string) : plain s = true -> lacks PyStr.carriage_return s = true.
Proof. unfold plain. intros H. now apply andb_prop in H as [_ H]. Qed.

Lemma Forall_plain_return (l : list string) :
  Forall (fun f => plain f = true) l ->
  Forall (fun f => lacks PyStr.carriage_return f = true) l.
Proof. apply Forall_impl. intros f Hf. now apply plain_return. Qed.

(** A line of plain fields holds no carriage return. *)
Lemma joined_return (parts : list string) :
  Forall (fun f => plain f = true) parts ->
  lacks PyStr.carriage_return
    (PyStr.join (String PyStr.comma EmptyString) parts ++ String PyStr.newline EmptyString)
  = true.
Proof.
  intros Hall. rewrite lacks_app.
  rewrite lacks_join; [reflexivity | reflexivity | now apply Forall_plain_return].
Qed.

Lemma row_plain (i : nat) : Forall (fun f => plain f = true) (row i).
Proof.
  unfold row. apply Forall_map. apply Forall_forall. intros kv Hin.
  rewrite Forall_forall in items_plain. specialize (items_plain kv Hin).
  unfold cell_text. destruct (nth_error (items (snd kv)) i) as [a|] eqn:Ha; [|reflexivity].
  rewrite Forall_forall in items_plain. apply items_plain. now apply nth_error_In with i.
Qed.

Lemma row_not_nil (i : nat) : row i <> [].
Proof. unfold row. destruct d; [contradiction | discriminate]. Qed.

Lemma keys_not_nil : keys d <> [].
Proof. destruct d; [contradiction | discriminate]. Qed.

Lemma Forall_plain_comma (l : list string) :
  Forall (fun f => plain f = true) l -> Forall (fun f => lacks PyStr.comma f = true) l.
Proof. apply Forall_impl. intros f Hf. now apply plain_parts. Qed.

Lemma Forall_plain_newline (l : list string) :
  Forall (fun f => plain f = true) l -> Forall (fun f => lacks PyStr.newline f = true) l.
Proof. apply Forall_impl. intros f Hf. now apply plain_parts. Qed.

Lemma joined_line (parts : list string) :
  Forall (fun f => plain f = true) parts ->
  lacks PyStr.newline (PyStr.join (String PyStr.comma EmptyString) parts) = true.
Proof.
  intros Hall. apply lacks_join; [reflexivity | now apply Forall_plain_newline].
Qed.

Lemma fields_of_joined (parts : list string) :
  parts <> [] ->
  Forall (fun f => plain f = true) parts ->
  fields_of PyStr.comma
    (PyStr.join (String PyStr.comma EmptyString) parts ++ String PyStr.newline EmptyString)
  = parts.
Proof.
  intros Hne Hall. unfold fields_of.
  rewrite remove_line by (now apply joined_line).
  apply split_join; [exact Hne | now apply Forall_plain_comma].
Qed.

Lemma fields_of_header : fields_of PyStr.comma (header_line d) = keys d.
Proof. apply fields_of_joined; [exact keys_not_nil | exact keys_plain]. Qed.

Lemma fields_of_row (i : nat) : fields_of PyStr.comma (data_line str d i) = row i.
Proof. apply fields_of_joined; [apply row_not_nil | apply row_plain]. Qed.

Lemma table_text_return : lacks PyStr.carriage_return (table_text str d) = true.
Proof.
  unfold table_text, header_line. rewrite lacks_app.
  apply andb_true_intro. split.
  - exact (joined_return (keys d) keys_plain).
  - apply lacks_concat_all. apply Forall_map. apply Forall_forall.
    intros i _. exact (joined_return (row i) (row_plain i)).
Qed.

Lemma readlines_table :
  PyStr.readlines (table_text str d)
  = header_line d :: map (data_line str d) (seq 0 (longest d)).
Proof.
  rewrite (readlines_lacking _ table_text_return).
  unfold table_text, header_line.
  rewrite lines_of_line by (apply joined_line; exact keys_plain).
  f_equal.
  replace (map (data_line str d) (seq 0 (longest d)))
    with (map (fun line => line ++ String PyStr.newline EmptyString)%string
            (map (fun i => PyStr.join (String PyStr.comma EmptyString) (row i))
               (seq 0 (longest d))))
    by (rewrite map_map; reflexivity).
  apply lines_of_lines. apply Forall_map. apply Forall_forall.
  intros i _. apply joined_line. apply row_plain.
Qed.

(** *** What is read back *)

(** The cell a field is read as, if any: an empty field is dropped. *)
Definition cell_of (f : string) : list cell :=
  if String.eqb f EmptyString then [] else [coerce f].

(** The cells read back from a column: one per item whose text is not
    empty, coerced to a float where the text reads as one. *)
Definition cells (v : value A) : list cell :=
  map coerce (filter (fun f => negb (String.eqb f EmptyString)) (map str (items v))).

(** The dict read back from the table of [d]. *)
Definition read_back : Dict.t (value cell) :=
  map (fun kv => (fst kv, packed (cells (snd kv)))) d.

Lemma cells_flat_map (l : list A) :
  flat_map (fun a => cell_of (str a)) l
  = map coerce (filter (fun f => negb (String.eqb f EmptyString)) (map str l)).
Proof.
  induction l as [|a l IH]; [reflexivity|]. cbn [flat_map map filter].
  unfold cell_of at 1. destruct (String.eqb (str a) EmptyString); cbn; now rewrite IH.
Qed.

(** Rows [s], [s+1], ... of a column hold its items from the [s]-th on,
    then empty fields. *)
Lemma column_rows (l : list A) :
  forall s n,
    (length l <= s + n)%nat ->
    flat_map (fun i => cell_of (match nth_error l i with
                                | Some a => str a
                                | None => EmptyString
                                end)) (seq s n)
    = flat_map (fun a => cell_of (str a)) (skipn s l).
Proof.
  intros s n. revert s. induction n as [|n IH]; intros s Hlen; cbn [seq flat_map].
  - rewrite skipn_all2 by lia. reflexivity.
  - rewrite IH by lia.
    destruct (nth_error l s) as [a|] eqn:Ha.
    + assert (Hs : skipn s l = a :: skipn (S s) l).
      { clear - Ha. revert s Ha. induction l as [|b l IH]; intros [|s] Ha; cbn in *;
          try discriminate.
        - now injection Ha as ->.
        - now apply IH. }
      rewrite Hs. reflexivity.
    + apply nth_error_None in Ha. rewrite !skipn_all2 by lia. reflexivity.
Qed.

Lemma longest_bound (kv : string * value A) :
  In kv d -> (length (items (snd kv)) <= longest d)%nat.
Proof.
  intros Hin. unfold longest.
  assert (Hall := proj1 (list_max_le (map (fun kv => length (items (snd kv))) d) _)
                    (Nat.le_refl _)).
  rewrite Forall_forall in Hall. apply Hall.
  now apply (in_map (fun kv => length (items (snd kv)))).
Qed.

Lemma collected_column (j : nat) (kv : string * value A) :
  nth_error d j = Some kv ->
  collected PyStr.comma (map (data_line str d) (seq 0 (longest d))) j = cells (snd kv).
Proof.
  intros Hj. unfold collected, cells.
  rewrite <- cells_flat_map.
  assert (Hrows := column_rows (items (snd kv)) 0 (longest d)
                     (longest_bound kv (nth_error_In _ _ Hj))).
  cbn [skipn] in Hrows. rewrite <- Hrows. clear Hrows.
  generalize (seq 0 (longest d)) as rows.
  induction rows as [|i rows IH]; [reflexivity|].
  cbn [map flat_map]. rewrite IH. f_equal.
  rewrite fields_of_row. unfold line_cells, row, cell_of.
  rewrite nth_error_map, Hj. cbn [option_map]. unfold cell_text. reflexivity.
Qed.

Lemma read_table_of_rows :
  read_table PyStr.comma (keys d) (map (data_line str d) (seq 0 (longest d))) = read_back.
Proof.
  unfold read_table, read_back.
  set (lines := map (data_line str d) (seq 0 (longest d))).
  assert (Hgen : forall (suffix : list (string * value A)) (s : nat),
             (forall j kv, nth_error suffix j = Some kv -> nth_error d (s + j) = Some kv) ->
             map (fun jh => (snd jh, packed (collected PyStr.comma lines (fst jh))))
               (combine (seq s (length (keys suffix))) (keys suffix))
             = map (fun kv => (fst kv, packed (cells (snd kv)))) suffix).
  { induction suffix as [|kv suffix IH]; intros s Hnth; [reflexivity|].
    cbn [keys map length seq combine fst snd]. f_equal.
    - f_equal. f_equal. subst lines. apply collected_column.
      rewrite <- (Nat.add_0_r s). now apply Hnth.
    - apply IH. intros j kv' Hj. rewrite Nat.add_succ_l, <- Nat.add_succ_r. now apply Hnth. }
  apply (Hgen d 0%nat). intros j kv Hj. exact Hj.
Qed.

End Table.

(** The lines of a file are converted as the specification words it,
    when the header names no column twice and no line is shorter than
    the header. *)
Lemma convert_reads (first : string) (lines : list string) (delimeter : ascii) :
  NoDup (fields_of delimeter first) ->
  Forall (fun line => (length (fields_of delimeter first)
                       <= length (fields_of delimeter line))%nat) lines ->
  convert (first :: lines) delimeter
  = Ok (read_table delimeter (fields_of delimeter first) lines).
Proof.
  intros Hnd Hwide. unfold convert. fold (fields_of delimeter first).
  set (headers := fields_of delimeter first) in *.
  destruct (CsvReaderFacts.read_lines_holds delimeter headers Hnd lines Hwide _ _
              (CsvReaderFacts.initial_dict headers Hnd)) as (d1 & Hread & Hd1).
  rewrite Hread. cbn [bind].
  destruct (CsvReaderFacts.unwrap_holds headers Hnd (collected delimeter lines) headers [] d1
              eq_refl) as (d2 & Hunwrap & Hd2).
  { eapply CsvReaderFacts.holds_ext; [exact Hd1|]. intros j _. reflexivity. }
  rewrite Hunwrap. f_equal. now apply CsvReaderFacts.holds_all_read_table.
Qed.

(** Reading a file that holds the table of [d]. *)
Lemma read_written_text {A : Type} (str : A -> string)
  (d : Dict.t (value A)) (csv_path : string) (files : filesystem) :
  d <> [] ->
  NoDup (keys d) ->
  Forall (fun k => plain k = true) (keys d) ->
  Forall (fun kv => Forall (fun a => plain (str a) = true) (items (snd kv))) d ->
  get files csv_path = Some (table_text str d) ->
  csv_to_dict files csv_path PyStr.comma = Ok (read_back str d).
Proof.
  intros Hne Hnd Hkeys Hitems Hfile.
  unfold csv_to_dict. rewrite Hfile. cbn [of_option bind].
  rewrite readlines_table by assumption.
  rewrite convert_reads.
  - rewrite (fields_of_header str d) by assumption.
    f_equal. now apply read_table_of_rows.
  - now rewrite (fields_of_header str d) by assumption.
  - rewrite (fields_of_header str d) by assumption.
    apply Forall_map. apply Forall_forall. intros i _.
    rewrite fields_of_row by assumption. unfold row, keys. now rewrite !length_map.
Qed.

(** Write, then read.  Take a dict with at least one key, whose keys and
    element texts hold no comma and no line break, and a path that can
    be opened for writing.  Reading the file that [dict_to_csv] wrote
    gives the same keys in the same order; under each key the elements
    whose text is not empty, each coerced to a float when its text reads
    as one and left as text when not; and a column left with exactly one
    such element holds that bare element. *)
Theorem write_then_read {A : Type} (str : A -> result string) (opens : string -> result unit)
  (shown : A -> string) (d : Dict.t (value A)) (csv_path : string) (files : filesystem) :
  d <> [] ->
  NoDup (keys d) ->
  Forall (fun k => plain k = true) (keys d) ->
  Forall (fun kv => Forall (fun a => plain (shown a) = true) (items (snd kv))) d ->
  CsvWriterFacts.printable str shown d ->
  opens csv_path = Ok tt ->
  csv_to_dict (files_after (dict_to_csv str opens d csv_path files)) csv_path PyStr.comma
  = Ok (read_back shown d).
Proof.
  intros Hne Hnd Hkeys Hitems Hstr Hopen.
  destruct (CsvWriterFacts.dict_to_csv_text str opens shown d csv_path files Hne Hnd Hstr Hopen)
    as [_ Hfile].
  now apply read_written_text.
Qed.

Lemma write_then_read_witness :
  CsvExamples.table <> [] /\
  NoDup (keys CsvExamples.table) /\
  Forall (fun k => plain k = true) (keys CsvExamples.table) /\
  Forall (fun kv => Forall (fun a => plain (PyStr.of_int a) = true) (items (snd kv)))
    CsvExamples.table /\
  CsvWriterFacts.printable str_int PyStr.of_int CsvExamples.table /\
  anywhere "t.csv" = Ok tt /\
  csv_to_dict (files_after (dict_to_csv str_int anywhere CsvExamples.table "t.csv" []))
    "t.csv" PyStr.comma
  = Ok (read_back PyStr.of_int CsvExamples.table).
Proof.
  assert (H1 : CsvExamples.table <> []) by discriminate.
  assert (H2 : NoDup (keys CsvExamples.table)).
  { repeat constructor; cbn; intuition discriminate. }
  assert (H3 : Forall (fun k => plain k = true) (keys CsvExamples.table))
    by (repeat constructor).
  assert (H4 : Forall (fun kv => Forall (fun a => plain (PyStr.of_int a) = true)
                                   (items (snd kv))) CsvExamples.table)
    by (repeat constructor).
  assert (H5 : CsvWriterFacts.printable str_int PyStr.of_int CsvExamples.table).
  { intros k v a _ _. reflexivity. }
  assert (H6 : anywhere "t.csv" = Ok tt) by reflexivity.
  repeat (split; [assumption|]).
  exact (write_then_read str_int anywhere PyStr.of_int CsvExamples.table "t.csv" []
           H1 H2 H3 H4 H5 H6).
Defined.

(** *** A second call on the same dict *)

Lemma table_text_listed {A : Type} (str : A -> string) (d : Dict.t (value A)) :
  table_text str (map (fun kv => (fst kv, CsvWriterFacts.listed (snd kv))) d)
  = table_text str d.
Proof.
  set (d' := map (fun kv => (fst kv, CsvWriterFacts.listed (snd kv))) d).
  assert (Hkeys : keys d' = keys d).
  { unfold d', keys. rewrite map_map. reflexivity. }
  assert (Hlongest : longest d' = longest d).
  { unfold d', longest. rewrite map_map. reflexivity. }
  assert (Hline : forall i, data_line str d' i = data_line str d i).
  { intros i. unfold d', data_line. rewrite map_map. reflexivity. }
  unfold table_text, header_line. rewrite Hkeys, Hlongest. f_equal. f_equal.
  apply map_ext. exact Hline.
Qed.

Lemma printable_listed {A : Type} (str : A -> result string) (shown : A -> string)
  (d : Dict.t (value A)) :
  CsvWriterFacts.printable str shown d ->
  CsvWriterFacts.printable str shown (map (fun kv => (fst kv, CsvWriterFacts.listed (snd kv))) d).
Proof.
  intros Hstr k v a Hin Ha. apply in_map_iff in Hin.
  destruct Hin as ([k0 v0] & Heq & Hin). cbn [fst snd] in Heq. injection Heq as <- <-.
  now apply (Hstr k0 v0 a Hin).
Qed.

(** [dict_to_csv] changes its dict once only.  Called again with the dict
    the first call left behind, on a path that can be opened for writing
    as the first could, it writes the text the first call wrote and
    leaves the dict as it found it. *)
Theorem dict_to_csv_again {A : Type} (str : A -> result string)
  (opens : string -> result unit) (shown : A -> string)
  (d : Dict.t (value A)) (csv_path again_path : string) (files : filesystem) :
  d <> [] ->
  NoDup (keys d) ->
  CsvWriterFacts.printable str shown d ->
  opens csv_path = Ok tt ->
  opens again_path = Ok tt ->
  let first := dict_to_csv str opens d csv_path files in
  let second := dict_to_csv str opens (dict_after first) again_path (files_after first) in
  outcome second = Ok tt /\
  dict_after second = dict_after first /\
  get (files_after second) again_path = get (files_after first) csv_path.
Proof.
  intros Hne Hnd Hstr Hopen Hagain. cbv zeta.
  pose proof (CsvWriterFacts.dict_after_listified str opens d csv_path files) as Hloop.
  pose proof (CsvWriterFacts.listified_dict d _ Hnd Hloop) as Hfirst.
  destruct (CsvWriterFacts.dict_to_csv_text str opens shown d csv_path files Hne Hnd Hstr Hopen)
    as [_ Htext].
  set (d1 := dict_after (dict_to_csv str opens d csv_path files)) in *.
  assert (Hne1 : d1 <> []).
  { rewrite Hfirst. destruct d; [contradiction | discriminate]. }
  assert (Hnd1 : NoDup (keys d1)).
  { rewrite Hfirst. unfold keys. rewrite map_map. exact Hnd. }
  assert (Hstr1 : CsvWriterFacts.printable str shown d1).
  { rewrite Hfirst. now apply printable_listed. }
  destruct (CsvWriterFacts.dict_to_csv_text str opens shown d1 again_path
              (files_after (dict_to_csv str opens d csv_path files)) Hne1 Hnd1 Hstr1 Hagain)
    as [Hout Htext1].
  split; [exact Hout|]. split.
  - pose proof (CsvWriterFacts.dict_after_listified str opens d1 again_path
                  (files_after (dict_to_csv str opens d csv_path files))) as Hloop1.
    rewrite (CsvWriterFacts.listified_dict d1 _ Hnd1 Hloop1).
    rewrite Hfirst at 1. rewrite map_map. cbn [fst snd]. rewrite Hfirst.
    apply map_ext. intros kv. now rewrite CsvWriterFacts.listed_twice.
  - rewrite Htext1, Htext. f_equal. rewrite Hfirst. apply table_text_listed.
Qed.

Lemma dict_to_csv_again_witness :
  let d := [("a"%string, Scalar 1); ("b"%string, ListOf [2; 3])] in
  d <> [] /\ NoDup (keys d) /\
  CsvWriterFacts.printable str_int PyStr.of_int d /\
  anywhere "t.csv" = Ok tt /\ anywhere "u.csv" = Ok tt /\
  outcome (dict_to_csv str_int anywhere
             (dict_after (dict_to_csv str_int anywhere d "t.csv" [])) "u.csv"
             (files_after (dict_to_csv str_int anywhere d "t.csv" []))) = Ok tt /\
  dict_after (dict_to_csv str_int anywhere
                (dict_after (dict_to_csv str_int anywhere d "t.csv" [])) "u.csv"
                (files_after (dict_to_csv str_int anywhere d "t.csv" [])))
  = dict_after (dict_to_csv str_int anywhere d "t.csv" []) /\
  get (files_after (dict_to_csv str_int anywhere
                      (dict_after (dict_to_csv str_int anywhere d "t.csv" [])) "u.csv"
                      (files_after (dict_to_csv str_int anywhere d "t.csv" [])))) "u.csv"
  = get (files_after (dict_to_csv str_int anywhere d "t.csv" [])) "t.csv".
Proof.
  cbv zeta.
  assert (H1 : [("a"%string, Scalar 1); ("b"%string, ListOf [2; 3])] <> []) by discriminate.
  assert (H2 : NoDup (keys [("a"%string, Scalar 1); ("b"%string, ListOf [2; 3])])).
  { repeat constructor; cbn; intuition discriminate. }
  assert (H3 : CsvWriterFacts.printable str_int PyStr.of_int
                 [("a"%string, Scalar 1); ("b"%string, ListOf [2; 3])]).
  { intros k v a _ _. reflexivity. }
  split; [exact H1|]. split; [exact H2|]. split; [exact H3|].
  split; [reflexivity|]. split; [reflexivity|].
  exact (dict_to_csv_again str_int anywhere PyStr.of_int _ "t.csv" "u.csv" [] H1 H2 H3
           eq_refl eq_refl).
Defined.

(** *** Files with other line ends *)

(** The text with every line feed replaced by [ending]. *)
Fixpoint with_line_ends (ending text : string) : string :=
  match text with
  | EmptyString => EmptyString
  | String c rest =>
      if Ascii.eqb c PyStr.newline then (ending ++ with_line_ends ending rest)%string
      else String c (with_line_ends ending rest)
  end.

(** A carriage return with a line feed, and a carriage return alone. *)
Definition crlf : string := String PyStr.carriage_return (String PyStr.newline EmptyString).
Definition cr : string := String PyStr.carriage_return EmptyString.

Lemma translate_crlf (text : string) :
  lacks PyStr.carriage_return text = true ->
  PyStr.translate_newlines (with_line_ends crlf text) = text.
Proof.
  induction text as [|c text IH]; [reflexivity|].
  cbn [lacks with_line_ends]. intros H. apply andb_prop in H as [Hc Htext].
  apply negb_true_iff in Hc. specialize (IH Htext).
  destruct (Ascii.eqb c PyStr.newline) eqn:Hnl.
  - apply Ascii.eqb_eq in Hnl. subst c. cbn. now rewrite IH.
  - cbn [PyStr.translate_newlines]. now rewrite Hc, IH.
Qed.

Lemma with_cr_head (text : string) (c : ascii) (rest : string) :
  with_line_ends cr text = String c rest -> Ascii.eqb c PyStr.newline = false.
Proof.
  destruct text as [|a text]; [discriminate|]. cbn [with_line_ends].
  destruct (Ascii.eqb a PyStr.newline) eqn:Ha; cbn; intros H; injection H as <- _;
    [reflexivity | exact Ha].
Qed.

Lemma translate_cr (text : string) :
  lacks PyStr.carriage_return text = true ->
  PyStr.translate_newlines (with_line_ends cr text) = text.
Proof.
  induction text as [|c text IH]; [reflexivity|].
  cbn [lacks with_line_ends]. intros H. apply andb_prop in H as [Hc Htext].
  apply negb_true_iff in Hc. specialize (IH Htext).
  destruct (Ascii.eqb c PyStr.newline) eqn:Hnl.
  - apply Ascii.eqb_eq in Hnl. subst c.
    change (cr ++ with_line_ends cr text)%string
      with (String PyStr.carriage_return (with_line_ends cr text)).
    cbn [PyStr.translate_newlines]. rewrite Ascii.eqb_refl.
    destruct (with_line_ends cr text) as [|c' rest] eqn:Hrest.
    + cbn in IH. now rewrite <- IH.
    + rewrite (with_cr_head text c' rest Hrest). now rewrite IH.
  - cbn [PyStr.translate_newlines]. now rewrite Hc, IH.
Qed.

(** A file whose lines end in a carriage return and a line feed, or in a
    carriage return alone, is read as the file whose lines end in a line
    feed: [csv_to_dict] returns the same dict, or raises the same
    exception. *)
Theorem csv_to_dict_other_line_ends
  (files : filesystem) (csv_path text : string) (delimeter : ascii) :
  lacks PyStr.carriage_return text = true ->
  let read := csv_to_dict (set files csv_path text) csv_path delimeter in
  csv_to_dict (set files csv_path (with_line_ends crlf text)) csv_path delimeter = read /\
  csv_to_dict (set files csv_path (with_line_ends cr text)) csv_path delimeter = read.
Proof.
  intros Htext. cbv zeta. unfold csv_to_dict. rewrite !get_set_same. cbn [of_option bind].
  unfold PyStr.readlines.
  rewrite translate_crlf, translate_cr, translate_lacking by exact Htext. now split.
Qed.

Lemma csv_to_dict_other_line_ends_witness :
  let rn := String PyStr.carriage_return (String PyStr.newline EmptyString) in
  let r := String PyStr.carriage_return EmptyString in
  let table := [("a"%string, ListOf [CFloat (PyFloat.lit "1.0"); CFloat (PyFloat.lit "2.0")]);
                ("b"%string, Scalar (CFloat (PyFloat.lit "3.0")))] in
  lacks PyStr.carriage_return CsvExamples.table_text = true /\
  with_line_ends crlf CsvExamples.table_text = ("a,b" ++ rn ++ "1,3" ++ rn ++ "2," ++ rn)%string /\
  with_line_ends cr CsvExamples.table_text = ("a,b" ++ r ++ "1,3" ++ r ++ "2," ++ r)%string /\
  csv_to_dict (set [] "t.csv" CsvExamples.table_text) "t.csv" PyStr.comma = Ok table /\
  csv_to_dict (set [] "t.csv" (with_line_ends crlf CsvExamples.table_text)) "t.csv" PyStr.comma
    = csv_to_dict (set [] "t.csv" CsvExamples.table_text) "t.csv" PyStr.comma /\
  csv_to_dict (set [] "t.csv" (with_line_ends cr CsvExamples.table_text)) "t.csv" PyStr.comma
    = csv_to_dict (set [] "t.csv" CsvExamples.table_text) "t.csv" PyStr.comma.
Proof.
  cbv zeta.
  split; [reflexivity|]. split; [reflexivity|]. split; [reflexivity|].
  split; [vm_compute; reflexivity|].
  exact (csv_to_dict_other_line_ends [] "t.csv" CsvExamples.table_text PyStr.comma eq_refl).
Defined.

(** A carriage return inside a line ends the line: under a header of
    two columns the text [a,b / 1 CR 2,3] has the short line [1]. *)
Example carriage_return_ends_a_line :
  PyStr.readlines ("a,b" ++ String PyStr.newline ("1" ++ String PyStr.carriage_return "2,3"))
  = [("a,b" ++ String PyStr.newline "")%string; ("1" ++ String PyStr.newline "")%string;
     "2,3"%string].
Proof. reflexivity. Qed.

(** *** A line shorter than the header *)

Lemma read_fields_short (delimeter : ascii) (headers fields : list string) :
  NoDup headers ->
  (length fields < length headers)%nat ->
  forall k s d c,
    (s + k = length headers)%nat -> (s <= length fields)%nat ->
    CsvReaderFacts.holds headers d c CsvReaderFacts.none ->
    foldM (read_field headers fields) (seq s k) d = Err IndexError.
Proof.
  intros Hnd Hshort. induction k as [|k IH]; intros s d c Hs Hle Hd; [lia|].
  cbn [seq foldM].
  destruct (nth_error fields s) as [f|] eqn:Hf.
  - destruct (nth_error headers s) as [h|] eqn:Hh;
      [|apply nth_error_None in Hh; lia].
    destruct (CsvReaderFacts.read_field_holds headers Hnd fields d c s h f Hd Hh Hf)
      as (d1 & -> & Hd1).
    cbn [bind]. eapply (IH (S s) d1); [lia | | exact Hd1].
    assert (s < length fields)%nat by (apply nth_error_Some; congruence). lia.
  - unfold read_field. now rewrite Hf.
Qed.

Lemma read_lines_short (delimeter : ascii) (headers : list string) :
  NoDup headers ->
  forall (lines : list string) d c,
    Exists (fun line => (length (fields_of delimeter line) < length headers)%nat) lines ->
    CsvReaderFacts.holds headers d c CsvReaderFacts.none ->
    foldM (read_line delimeter headers) lines d = Err IndexError.
Proof.
  intros Hnd. induction lines as [|line lines IH]; intros d c Hbad Hd; [inversion Hbad|].
  cbn [foldM].
  destruct (Nat.lt_ge_cases (length (fields_of delimeter line)) (length headers))
    as [Hshort|Hwide].
  - unfold read_line. fold (fields_of delimeter line).
    rewrite (read_fields_short delimeter headers _ Hnd Hshort (length headers) 0 d c);
      [reflexivity | lia | lia | exact Hd].
  - destruct (CsvReaderFacts.read_line_holds delimeter headers Hnd line d c Hwide Hd)
      as (d1 & -> & Hd1).
    cbn [bind]. eapply (IH d1); [|exact Hd1].
    inversion Hbad as [? ? Hhere|? ? Hlater]; subst; [lia | exact Hlater].
Qed.

(** A line with fewer fields than the header, a blank line under a header
    of two columns for one, makes [csv_to_dict] raise [IndexError],
    wherever the line stands in the file. *)
Theorem csv_to_dict_short_line
  (files : filesystem) (csv_path text first : string) (lines : list string)
  (delimeter : ascii) :
  get files csv_path = Some text ->
  PyStr.readlines text = first :: lines ->
  NoDup (fields_of delimeter first) ->
  Exists (fun line => (length (fields_of delimeter line)
                       < length (fields_of delimeter first))%nat) lines ->
  csv_to_dict files csv_path delimeter = Err IndexError.
Proof.
  intros Hfile Hlines Hnd Hbad.
  unfold csv_to_dict. rewrite Hfile. cbn [of_option bind]. rewrite Hlines.
  unfold convert. fold (fields_of delimeter first).
  rewrite (read_lines_short delimeter _ Hnd lines _ _ Hbad
             (CsvReaderFacts.initial_dict _ Hnd)).
  reflexivity.
Qed.

Lemma csv_to_dict_short_line_witness :
  let nl := String PyStr.newline EmptyString in
  let text := ("a,b" ++ nl ++ "1,2" ++ nl ++ nl ++ "3,4" ++ nl)%string in
  get [("t.csv"%string, text)] "t.csv" = Some text /\
  PyStr.readlines text = ("a,b" ++ nl)%string :: [("1,2" ++ nl)%string; nl; ("3,4" ++ nl)%string] /\
  NoDup (fields_of PyStr.comma ("a,b" ++ nl)) /\
  Exists (fun line => (length (fields_of PyStr.comma line)
                       < length (fields_of PyStr.comma ("a,b" ++ nl)))%nat)
    [("1,2" ++ nl)%string; nl; ("3,4" ++ nl)%string] /\
  csv_to_dict [("t.csv"%string, text)] "t.csv" PyStr.comma = Err IndexError.
Proof.
  cbv zeta.
  set (nl := String PyStr.newline EmptyString).
  set (text := ("a,b" ++ nl ++ "1,2" ++ nl ++ nl ++ "3,4" ++ nl)%string).
  assert (H1 : get [("t.csv"%string, text)] "t.csv" = Some text) by reflexivity.
  assert (H2 : PyStr.readlines text
               = ("a,b" ++ nl)%string :: [("1,2" ++ nl)%string; nl; ("3,4" ++ nl)%string])
    by reflexivity.
  assert (H3 : NoDup (fields_of PyStr.comma ("a,b" ++ nl))).
  { repeat constructor; cbn; intuition discriminate. }
  assert (H4 : Exists (fun line => (length (fields_of PyStr.comma line)
                                    < length (fields_of PyStr.comma ("a,b" ++ nl)))%nat)
                 [("1,2" ++ nl)%string; nl; ("3,4" ++ nl)%string]).
  { apply Exists_cons_tl. apply Exists_cons_hd. cbn. lia. }
  repeat (split; [assumption|]).
  exact (csv_to_dict_short_line _ "t.csv" text _ _ PyStr.comma H1 H2 H3 H4).
Defined.

End CsvRoundTrip.

(** ** [round_sf] and the sign of its argument *)

Module RoundSfSign.

Import PyFloat RoundSfTotal.

(** The sign of a rounded quotient is the sign asked for. *)
Lemma round_ratio_negb (neg : bool) (n d : Z) :
  round_ratio (negb neg) n d = SFopp (round_ratio neg n d).
Proof.
  unfold round_ratio. destruct n as [|n|n]; [reflexivity| |];
    destruct (SFdiv_core_binary prec emax _ 0 d 0) as [[q e] loc];
    unfold binary_round_aux;
    destruct (shr_fexp prec emax q e loc) as [mrs e'];
    destruct (shr_fexp prec emax _ e' loc_Exact) as [mrs' e''];
    destruct (shr_m mrs'); try reflexivity;
    destruct (e'' <=? emax - prec); reflexivity.
Qed.

Lemma of_decimal_negb (neg : bool) (m e10 : Z) :
  of_decimal (negb neg) m e10 = SFopp (of_decimal neg m e10).
Proof. unfold of_decimal. destruct (0 <=? e10); apply round_ratio_negb. Qed.

(** The float a number text reads as, with or without a minus sign. *)
Lemma of_string_value (ip fp body ex : list ascii) :
  mantissa ip fp body -> expo ex ->
  exists e,
    forall neg : bool,
      of_string (string_of_list_ascii ((if neg then ["-"%char] else []) ++ body ++ ex))
      = Some (of_decimal neg (digits_value (ip ++ fp)) (e - Z.of_nat (length fp))).
Proof.
  intros Hm Hex.
  destruct (body_head ip fp body Hm) as (d & rest & Hbody & Hd).
  destruct (body_last ip fp body ex Hm Hex) as (front & z & Hlast & Hz).
  destruct (dig_facts d Hd) as (Hsp & _ & _ & _ & Hminus & Hplus & _).
  destruct (dig_facts z Hz) as (Hzsp & _).
  destruct (exponent_ok ex Hex) as [e He]. exists e. intros neg.
  assert (Hstrip : strip ((if neg then ["-"%char] else []) ++ body ++ ex)
                   = (if neg then ["-"%char] else []) ++ body ++ ex).
  { rewrite Hlast. destruct neg.
    - cbn [app]. now apply strip_same.
    - cbn [app]. destruct front as [|c front].
      + cbn. now apply (strip_same z z []).
      + assert (c = d).
        { rewrite Hbody in Hlast. cbn in Hlast. now injection Hlast. }
        subst c. cbn [app]. now apply strip_same. }
  assert (Hsign : sign ((if neg then ["-"%char] else []) ++ body ++ ex) = (neg, body ++ ex)).
  { destruct neg; [reflexivity|]. rewrite Hbody. cbn. now rewrite Hminus, Hplus. }
  unfold of_string. rewrite list_ascii_of_string_of_list_ascii, Hstrip, Hsign.
  assert (Hword : forall w, (w = "inf" \/ w = "infinity" \/ w = "nan")%string ->
            String.eqb (string_of_list_ascii (map lower (body ++ ex))) w = false).
  { intros w Hw. rewrite Hbody. cbn [app]. now apply not_a_word. }
  rewrite !Hword by tauto. cbn [orb].
  rewrite (number_ok ip fp body ex Hm Hex), He. reflexivity.
Qed.

(** The text of a finite float is its sign and a text that does not
    depend on the sign; read back, the sign is all that differs. *)
Lemma format_g_finite (p : Z) (m : positive) (e : Z) :
  exists y,
    forall neg : bool, of_string (format_g p (S754_finite neg m e)) = Some (if neg then SFopp y else y).
Proof.
  unfold format_g.
  destruct (fraction m e) as [n d] eqn:Hf.
  destruct (fraction_pos m e) as [Hn Hd]. rewrite Hf in Hn, Hd. cbn [fst snd] in Hn, Hd.
  pose proof (significant_nonneg (Z.max p 1) n d Hn Hd) as HD.
  destruct (significant (Z.max p 1) n d) as [D X]. cbn [fst] in HD.
  destruct (of_int_digits D HD) as [Hds Hne].
  set (ds := PyStr.of_int D) in *.
  assert (Hgoal : forall body_text : string,
            (exists ip fp body ex, mantissa ip fp body /\ expo ex /\
                                   list_ascii_of_string body_text = body ++ ex) ->
            exists y, forall neg : bool,
              of_string ((if neg then "-" else "") ++ body_text)
              = Some (if neg then SFopp y else y)).
  { intros body_text (ip & fp & body & ex & Hm & Hex & Hl).
    destruct (of_string_value ip fp body ex Hm Hex) as [e10 Hy].
    exists (of_decimal false (digits_value (ip ++ fp)) (e10 - Z.of_nat (length fp))).
    intros neg.
    replace ((if neg then "-" else "") ++ body_text)%string
      with (string_of_list_ascii ((if neg then ["-"%char] else []) ++ body ++ ex)).
    - rewrite Hy. destruct neg; [|reflexivity].
      now rewrite <- (of_decimal_negb false).
    - rewrite <- Hl. destruct neg; cbn [app]; cbn [string_of_list_ascii];
        now rewrite string_of_list_ascii_of_string. }
  destruct ((-4 <=? X) && (X <? Z.max p 1))%bool; apply Hgoal.
  - destruct (fixed_text ds X Hds Hne) as (ip & fp & Hm).
    exists ip, fp, (list_ascii_of_string (fixed ds X)), []. rewrite app_nil_r.
    repeat split; [exact Hm | constructor].
  - exact (scientific_text ds X Hds Hne).
Qed.

(** [round_sf] is odd: rounding the negated float gives the negated
    result, for every float (zeros, infinities and NaN included) and
    every number of significant figures a format takes. *)
Theorem round_sf_of_negated (x : float) (sf : Z) :
  0 <= sf <= max_precision ->
  exists y,
    round_sf (PyFloat x) sf = Ok y /\
    round_sf (PyFloat (SFopp x)) sf = Ok (SFopp y).
Proof.
  intros [Hlo Hhi]. unfold round_sf, format_sf.
  replace ((sf <? 0) || (max_precision <? sf))%bool with false
    by (symmetry; apply orb_false_iff; split; [apply Z.ltb_ge | apply Z.ltb_ge]; lia).
  cbn [bind].
  destruct x as [neg | neg | | neg m e].
  - destruct neg; eexists; split; vm_compute; reflexivity.
  - destruct neg; eexists; split; vm_compute; reflexivity.
  - eexists; split; vm_compute; reflexivity.
  - destruct (format_g_finite sf m e) as [y Hy]. cbn [SFopp].
    rewrite (Hy neg), (Hy (negb neg)). cbn [of_option].
    exists (if neg then SFopp y else y). split; [reflexivity|].
    destruct neg; cbn [negb]; [|reflexivity].
    destruct y as [[]|[]| |[] ? ?]; reflexivity.
Qed.

Lemma round_sf_of_negated_witness :
  0 <= 2 <= max_precision /\
  exists y,
    round_sf (PyFloat (lit "0.0004567")) 2 = Ok y /\
    round_sf (PyFloat (SFopp (lit "0.0004567"))) 2 = Ok (SFopp y).
Proof.
  split; [unfold max_precision; lia|].
  apply (round_sf_of_negated (lit "0.0004567") 2). unfold max_precision. lia.
Defined.

(** [round_sf] leaves a float that has no digits to round as it is: NaN,
    the two infinities and the two zeros come back unchanged. *)
Theorem round_sf_keeps_special_values (x : float) (sf : Z) :
  0 <= sf <= max_precision ->
  match x with
  | S754_finite _ _ _ => True
  | _ => round_sf (PyFloat x) sf = Ok x
  end.
Proof.
  intros [Hlo Hhi]. unfold round_sf, format_sf.
  replace ((sf <? 0) || (max_precision <? sf))%bool with false
    by (symmetry; apply orb_false_iff; split; [apply Z.ltb_ge | apply Z.ltb_ge]; lia).
  cbn [bind].
  destruct x as [[]|[]| |]; try exact I; vm_compute; reflexivity.
Qed.

Lemma round_sf_keeps_special_values_witness :
  0 <= 3 <= max_precision /\ round_sf (PyFloat (S754_infinity true)) 3 = Ok (S754_infinity true).
Proof.
  split; [unfold max_precision; lia|].
  apply (round_sf_keeps_special_values (S754_infinity true) 3). unfold max_precision. lia.
Defined.

End RoundSfSign.

(** ** The texts of numbers hold no comma and no line break *)

Module NumberText.

Import PyFloat.
Local Open Scope string_scope.
Local Open Scope Z_scope.

(** The characters [str] writes a number with. *)
Definition number_char (c : ascii) : bool :=
  is_digit c ||
  existsb (Ascii.eqb c) ["."; "e"; "+"; "-"; "n"; "a"; "i"; "f"]%char.

Definition number_text (s : string) : Prop :=
  Forall (fun c => number_char c = true) (list_ascii_of_string s).

Lemma number_text_app (a c : string) :
  number_text a -> number_text c -> number_text (a ++ c).
Proof.
  unfold number_text. intros Ha Hc. rewrite RoundSfTotal.list_ascii_app.
  apply Forall_app. now split.
Qed.

Lemma number_text_digits (s : string) : RoundSfTotal.all_digits s -> number_text s.
Proof.
  unfold RoundSfTotal.all_digits, number_text, RoundSfTotal.dig, number_char.
  apply Forall_impl. intros c Hc. now rewrite Hc.
Qed.

Lemma number_text_substring (s : string) :
  number_text s -> forall n m, number_text (substring n m s).
Proof.
  unfold number_text. induction s as [|c s IH]; intros Hs n m.
  - destruct n, m; constructor.
  - inversion Hs as [|? ? Hc Hs']; subst.
    destruct n as [|n]; cbn.
    + destruct m as [|m]; cbn; [constructor|]. constructor; [exact Hc|]. now apply IH.
    + now apply IH.
Qed.

Lemma number_text_replicate (n : nat) : number_text (PyStr.replicate n "0").
Proof. apply number_text_digits. apply RoundSfTotal.all_digits_replicate. Qed.

Lemma number_text_strip_zeros (s : string) : number_text s -> number_text (strip_zeros s).
Proof.
  unfold number_text, strip_zeros. intros Hs.
  rewrite list_ascii_of_string_of_list_ascii.
  apply Forall_rev.
  assert (Hrev : Forall (fun c => number_char c = true) (rev (list_ascii_of_string s)))
    by (now apply Forall_rev).
  induction Hrev as [|c l Hc Hl IH]; [constructor|].
  destruct (Ascii.eqb c "0"); [exact IH | now constructor].
Qed.

Lemma number_text_point_fraction (s : string) :
  number_text s -> number_text (point_fraction s).
Proof.
  intros Hs. unfold point_fraction.
  pose proof (number_text_strip_zeros s Hs) as Hz.
  destruct (strip_zeros s) as [|c rest]; [constructor|].
  apply (number_text_app "."); [repeat constructor | exact Hz].
Qed.

(** [str] of an [int]: digits, after a minus sign when it is negative. *)
Lemma number_text_of_int (z : Z) : number_text (PyStr.of_int z).
Proof.
  destruct z as [|p|p].
  - repeat constructor.
  - apply number_text_digits. now apply RoundSfTotal.of_int_digits.
  - change (PyStr.of_int (Z.neg p)) with (String "-" (PyStr.of_int (Z.pos p))).
    constructor; [reflexivity|].
    apply number_text_digits. now apply RoundSfTotal.of_int_digits.
Qed.

Lemma number_text_zfill (width : nat) (s : string) :
  number_text s -> number_text (PyStr.zfill width s).
Proof.
  intros Hs. unfold PyStr.zfill. destruct s as [|c rest].
  - apply number_text_replicate.
  - inversion Hs as [|? ? Hc Hrest]; subst.
    destruct (Ascii.eqb c "+" || Ascii.eqb c "-").
    + constructor; [exact Hc|].
      apply number_text_app; [apply number_text_replicate | exact Hrest].
    + apply number_text_app; [apply number_text_replicate | exact Hs].
Qed.

Lemma number_text_sign (neg : bool) (s : string) :
  number_text s -> number_text ((if neg then "-" else "") ++ s).
Proof. intros Hs. destruct neg; [constructor; [reflexivity | exact Hs] | exact Hs]. Qed.

Lemma number_text_scientific (ds : string) (X : Z) :
  number_text ds -> number_text (scientific ds X).
Proof.
  intros Hds. unfold scientific.
  apply number_text_app; [now apply number_text_substring|].
  apply number_text_app;
    [apply number_text_point_fraction; now apply number_text_substring|].
  apply (number_text_app "e"); [repeat constructor|].
  apply number_text_app; [destruct (X <? 0); repeat constructor|].
  apply number_text_zfill. apply number_text_of_int.
Qed.

Lemma number_text_fixed_repr (ds : string) (X : Z) :
  number_text ds -> number_text (fixed_repr ds X).
Proof.
  intros Hds. unfold fixed_repr. destruct (0 <=? X).
  - destruct (String.length ds <=? Z.to_nat (X + 1))%nat.
    + apply number_text_app; [exact Hds|].
      apply number_text_app; [apply number_text_replicate | repeat constructor].
    + apply number_text_app; [now apply number_text_substring|].
      apply (number_text_app "."); [repeat constructor | now apply number_text_substring].
  - apply (number_text_app "0."); [repeat constructor|].
    apply number_text_app; [apply number_text_replicate | exact Hds].
Qed.

Lemma number_text_repr (x : float) : number_text (repr x).
Proof.
  destruct x as [[]|[]| |neg m e]; try (repeat constructor).
  unfold repr. destruct (fraction m e) as [n d].
  destruct (shortest (S754_finite false m e) n d 16 1) as [D X].
  apply number_text_sign.
  assert (Hds : number_text (strip_zeros (PyStr.of_int D)))
    by (apply number_text_strip_zeros; apply number_text_of_int).
  destruct ((-4 <=? X) && (X <? 16))%bool;
    [now apply number_text_fixed_repr | now apply number_text_scientific].
Qed.

Lemma number_text_lacks (c : ascii) (s : string) :
  number_char c = false -> number_text s -> CsvRoundTrip.lacks c s = true.
Proof.
  intros Hc. unfold number_text. induction s as [|a s IH]; intros Hs; [reflexivity|].
  inversion Hs as [|? ? Ha Hrest]; subst. cbn [CsvRoundTrip.lacks].
  rewrite (IH Hrest), andb_true_r. apply negb_true_iff.
  destruct (Ascii.eqb_spec a c) as [->|]; [congruence | reflexivity].
Qed.

Lemma number_text_plain (s : string) : number_text s -> CsvRoundTrip.plain s = true.
Proof.
  intros Hs. unfold CsvRoundTrip.plain.
  rewrite !number_text_lacks by (reflexivity || exact Hs). reflexivity.
Qed.

End NumberText.

(** The text of a number can stand in a CSV field as it is. *)
Lemma number_str_plain (v : number) : CsvRoundTrip.plain (number_str v) = true.
Proof.
  apply NumberText.number_text_plain.
  destruct v as [z|x]; [apply NumberText.number_text_of_int | apply NumberText.number_text_repr].
Qed.

(** ** The harvester: which files it skips and what it adds *)

Module HarvestFacts.

Import Dict DictFacts Harvest.
Local Open Scope string_scope.

Lemma for_each_length {A B : Type} (f : A -> outcome B) (l : list A) :
  forall bs, for_each f l = Done bs -> length bs = length l.
Proof.
  induction l as [|a l IH]; intros bs H; cbn in H.
  - now injection H as <-.
  - destruct (f a) as [b|r]; [|discriminate]. cbn in H.
    destruct (for_each f l) as [bs'|r]; [|discriminate]. cbn in H.
    injection H as <-. cbn. f_equal. now apply IH.
Qed.

(** *** The columns of the parameters *)

(** Looking up the five parameter columns: all of them are there, or the
    first one missing raises [KeyError]. *)
Lemma lookup_params {V : Type} (data_dict : Dict.t V) (names : list string) :
  (Forall (fun name => In name (keys data_dict)) names ->
   exists values,
     for_each (fun name => call (item data_dict name)) names = Done values /\
     length values = length names) /\
  (Exists (fun name => ~ In name (keys data_dict)) names ->
   for_each (fun name => call (item data_dict name)) names = Raise (Python KeyError)).
Proof.
  induction names as [|name names [IHok IHbad]]; split.
  - intros _. now exists [].
  - intros H. inversion H.
  - intros Hall. inversion Hall as [|? ? Hin Hrest]; subst.
    destruct (in_keys_get data_dict name Hin) as [v Hv].
    destruct (IHok Hrest) as (values & Hvalues & Hlen).
    assert (Hitem : call (item data_dict name) = Done v)
      by (unfold item; now rewrite Hv).
    exists (v :: values). cbn [for_each]. rewrite Hitem. cbn [and_then].
    rewrite Hvalues. cbn [and_then length].
    split; [reflexivity | now rewrite Hlen].
  - intros Hbad. cbn [for_each].
    destruct (get data_dict name) as [v|] eqn:Hv.
    2: { unfold item. now rewrite Hv. }
    assert (Hitem : call (item data_dict name) = Done v)
      by (unfold item; now rewrite Hv).
    rewrite Hitem. cbn [and_then]. rewrite IHbad; [reflexivity|].
    inversion Hbad as [? ? Hhere|? ? Hlater]; subst; [|exact Hlater].
    exfalso. apply Hhere. now apply get_some_in_keys with v.
Qed.

(** *** One entry more in each column *)

(** From [before] to [after], every column of [ks] has one entry more
    and the other columns are as they were. *)
Definition appended (ks : list string) (before after : Dict.t column) : Prop :=
  keys after = keys before /\
  forall k,
    (In k ks -> exists l x, get before k = Some l /\ get after k = Some (l ++ [x])%list) /\
    (~ In k ks -> get after k = get before k).

Lemma appended_nil (sd : Dict.t column) : appended [] sd sd.
Proof. split; [reflexivity|]. intros k. split; [intros [] | reflexivity]. Qed.

Lemma append_to_appended (sd sd' : Dict.t column) (key : string) (x : outcome (value Csv.cell)) :
  append_to sd key x = Done sd' -> appended [key] sd sd'.
Proof.
  unfold append_to, item. intros H.
  destruct (get sd key) as [l|] eqn:Hl; [|discriminate]. cbn in H.
  destruct x as [v|r]; [|discriminate]. cbn in H. injection H as <-.
  split.
  - apply keys_set_present. now apply get_some_in_keys with l.
  - intros k. split.
    + intros [<-|[]]. exists l, v. split; [exact Hl | apply get_set_same].
    + intros Hnot. apply get_set_other. intros ->. apply Hnot. now left.
Qed.

Lemma appended_trans (ks1 ks2 : list string) (sd sd1 sd2 : Dict.t column) :
  appended ks1 sd sd1 -> appended ks2 sd1 sd2 ->
  (forall k, In k ks1 -> ~ In k ks2) ->
  appended (ks1 ++ ks2) sd sd2.
Proof.
  intros [Hk1 H1] [Hk2 H2] Hdisjoint. split; [congruence|].
  intros k. split.
  - intros Hin. apply in_app_or in Hin. destruct Hin as [Hin|Hin].
    + destruct (proj1 (H1 k) Hin) as (l & x & Hl & Hl1).
      exists l, x. split; [exact Hl|].
      rewrite (proj2 (H2 k) (Hdisjoint k Hin)). exact Hl1.
    + destruct (proj1 (H2 k) Hin) as (l & x & Hl & Hl2).
      exists l, x. split; [|exact Hl2].
      rewrite <- (proj2 (H1 k)); [exact Hl|].
      intros Hin1. now apply (Hdisjoint k Hin1).
  - intros Hnot.
    rewrite (proj2 (H2 k)), (proj2 (H1 k)); [reflexivity | |];
      intros Hin; apply Hnot; apply in_or_app; tauto.
Qed.

(** A loop that appends to one key per pass. *)
Lemma loop_appended {A : Type} (key : A -> string)
  (x : Dict.t column -> A -> outcome (value Csv.cell)) (l : list A) :
  NoDup (map key l) ->
  forall sd sd',
    loop (fun sd a => append_to sd (key a) (x sd a)) l sd = Done sd' ->
    appended (map key l) sd sd'.
Proof.
  induction l as [|a l IH]; intros Hnd sd sd' H; cbn in H.
  - injection H as <-. apply appended_nil.
  - destruct (append_to sd (key a) (x sd a)) as [sd1|r] eqn:Hstep; [|discriminate].
    cbn [and_then] in H. cbn [map] in *. inversion Hnd as [|? ? Hnin Hnd']; subst.
    change (key a :: map key l) with ([key a] ++ map key l)%list.
    apply appended_trans with sd1.
    + now apply append_to_appended with (x sd a).
    + now apply IH.
    + intros k [<-|[]]. exact Hnin.
Qed.

(** The 35 keys of the success dict are distinct. *)
Lemma success_keys_distinct : NoDup success_keys.
Proof.
  assert (H : nodup string_dec success_keys = success_keys) by (vm_compute; reflexivity).
  rewrite <- H. apply NoDup_nodup.
Qed.

Lemma empty_success_dict_keys :
  keys empty_success_dict = success_keys /\
  forall k, In k success_keys -> get empty_success_dict k = Some [].
Proof.
  split; [vm_compute; reflexivity|].
  intros k Hin. vm_compute in Hin.
  repeat (destruct Hin as [<-|Hin]; [vm_compute; reflexivity|]). destruct Hin.
Qed.

Lemma NoDup_app_disjoint {A : Type} (l1 l2 : list A) :
  NoDup (l1 ++ l2) -> forall a, In a l1 -> ~ In a l2.
Proof.
  induction l1 as [|b l1 IH]; intros Hnd a Hin; [destruct Hin|].
  cbn in Hnd. inversion Hnd as [|? ? Hnin Hnd']; subst.
  destruct Hin as [->|Hin]; [|now apply IH].
  intros Hin2. apply Hnin. apply in_or_app. now right.
Qed.

Section Script.

Variable files : filesystem.
Variable results_dir : string.
Variable polyval : list PyFloat.float -> value Csv.cell -> outcome (value PyFloat.float).

Local Abbreviation harvest_file := (Harvest.harvest_file files results_dir polyval).

(** One trajectory adds one entry to each of its ten columns. *)
Lemma add_trajectory_appended (data_dict : Dict.t (value Csv.cell))
  (label : string) (poly : list PyFloat.float) (sd sd' : Dict.t column) :
  NoDup (get_names label) ->
  add_trajectory polyval data_dict sd (label, poly) = Done sd' ->
  appended (get_names label) sd sd'.
Proof.
  intros Hnd H. unfold add_trajectory in H. cbn [fst snd] in H.
  destruct (call (item data_dict X_HEADER)) as [x_list|r]; [|discriminate].
  cbn [and_then] in H.
  destruct (polyval poly x_list) as [y_list|r]; [|discriminate].
  cbn [and_then] in H.
  unfold get_names in *.
  exact (loop_appended (point_key label) _ (seq 0 NUM_POINTS) Hnd sd sd' H).
Qed.

Lemma skipped_file
  (success_dict : Dict.t column) (csv_file : string) (data_dict : Dict.t (value Csv.cell)) :
  failed csv_file = true ->
  Csv.csv_to_dict files (results_dir ++ "/" ++ csv_file) PyStr.comma = Ok data_dict ->
  (Forall (fun name => In name (keys data_dict)) PARAM_NAME_LIST ->
   harvest_file success_dict csv_file = Done success_dict) /\
  (Exists (fun name => ~ In name (keys data_dict)) PARAM_NAME_LIST ->
   harvest_file success_dict csv_file = Raise (Python KeyError)).
Proof.
  intros Hfailed Hread. unfold Harvest.harvest_file. rewrite Hread. cbn [call and_then].
  destruct (lookup_params data_dict PARAM_NAME_LIST) as [Hok Hbad]. split.
  - intros Hall. destruct (Hok Hall) as (values & -> & _). cbn [and_then].
    now rewrite Hfailed.
  - intros Hmiss. now rewrite (Hbad Hmiss).
Qed.

(** A file whose name holds [failed] or [timeout] adds nothing to the
    success dict.  It is read all the same, and its five parameter
    columns are looked up before the name is tested: the file is skipped
    when it has them all, and a missing one raises [KeyError]. *)
Theorem harvest_file_skips
  (success_dict : Dict.t column) (csv_file : string) (data_dict : Dict.t (value Csv.cell)) :
  failed csv_file = true ->
  Csv.csv_to_dict files (results_dir ++ "/" ++ csv_file) PyStr.comma = Ok data_dict ->
  (Forall (fun name => In name (keys data_dict)) PARAM_NAME_LIST ->
   harvest_file success_dict csv_file = Done success_dict) /\
  (Exists (fun name => ~ In name (keys data_dict)) PARAM_NAME_LIST ->
   harvest_file success_dict csv_file = Raise (Python KeyError)).
Proof. exact (skipped_file success_dict csv_file data_dict). Qed.

Lemma one_entry_more
  (success_dict after : Dict.t column) (csv_file : string) :
  harvest_file success_dict csv_file = Done after ->
  if failed csv_file then after = success_dict
  else appended success_keys success_dict after.
Proof.
  intros H. unfold Harvest.harvest_file in H.
  destruct (call (Csv.csv_to_dict files (results_dir ++ "/" ++ csv_file) PyStr.comma))
    as [data_dict|r]; [|discriminate].
  cbn [and_then] in H.
  destruct (for_each (fun name => call (item data_dict name)) PARAM_NAME_LIST)
    as [values|r] eqn:Hvalues; [|discriminate].
  cbn [and_then] in H.
  destruct (failed csv_file); [now injection H as <-|].
  apply for_each_length in Hvalues.
  pose proof success_keys_distinct as Hnd. unfold success_keys in Hnd.
  assert (Hkeys : keys (of_pairs (combine PARAM_NAME_LIST values)) = PARAM_NAME_LIST).
  { rewrite DictUpdateFacts.of_pairs_fresh;
      rewrite DictUpdateFacts.keys_combine by congruence;
      [reflexivity | now apply NoDup_app_remove_r in Hnd]. }
  rewrite Hkeys in H.
  destruct (loop _ PARAM_NAME_LIST success_dict) as [sd0|r] eqn:Hparams; [|discriminate].
  cbn [and_then] in H.
  assert (H0 : appended PARAM_NAME_LIST success_dict sd0).
  { rewrite <- (map_id PARAM_NAME_LIST) at 1.
    apply (loop_appended (fun key => key)
             (fun _ key => call (item (of_pairs (combine PARAM_NAME_LIST values)) key))).
    - rewrite map_id. now apply NoDup_app_remove_r in Hnd.
    - exact Hparams. }
  destruct (for_each _ PHI_HEADERS) as [poly_str_list|r] eqn:Hstrs; [|discriminate].
  cbn [and_then] in H.
  destruct (for_each coefficients poly_str_list) as [poly_list|r] eqn:Hpolys; [|discriminate].
  cbn [and_then] in H.
  apply for_each_length in Hstrs. apply for_each_length in Hpolys.
  rewrite Hstrs in Hpolys. cbn in Hpolys.
  destruct poly_list as [|p1 [|p2 [|p3 [|p4 poly_list]]]]; try discriminate.
  cbn [combine loop] in H.
  destruct (add_trajectory polyval data_dict sd0 ("phi_1", p1)) as [sd1|r] eqn:H1;
    [|discriminate]. cbn [and_then] in H.
  destruct (add_trajectory polyval data_dict sd1 ("Phi", p2)) as [sd2|r] eqn:H2;
    [|discriminate]. cbn [and_then] in H.
  destruct (add_trajectory polyval data_dict sd2 ("phi_2", p3)) as [sd3|r] eqn:H3;
    [|discriminate]. cbn [and_then] in H.
  injection H as <-.
  pose proof (NoDup_app_remove_l _ _ Hnd) as Hnd1.
  pose proof (NoDup_app_remove_l _ _ Hnd1) as Hnd2.
  pose proof (NoDup_app_remove_l _ _ Hnd2) as Hnd3.
  apply add_trajectory_appended in H1; [|now apply NoDup_app_remove_r in Hnd1].
  apply add_trajectory_appended in H2; [|now apply NoDup_app_remove_r in Hnd2].
  apply add_trajectory_appended in H3; [|exact Hnd3].
  unfold success_keys.
  apply appended_trans with sd0; [exact H0 | | now apply NoDup_app_disjoint].
  apply appended_trans with sd1; [exact H1 | | now apply NoDup_app_disjoint].
  apply appended_trans with sd2; [exact H2 | exact H3 | now apply NoDup_app_disjoint].
Qed.

(** A file that is harvested without an exception leaves the success
    dict as it was when its name holds [failed] or [timeout], and
    otherwise adds exactly one entry to each of the 35 columns: the
    columns stay of equal length. *)
Theorem harvest_file_adds_one_entry
  (success_dict after : Dict.t column) (csv_file : string) :
  harvest_file success_dict csv_file = Done after ->
  if failed csv_file then after = success_dict
  else appended success_keys success_dict after.
Proof. exact (one_entry_more success_dict after csv_file). Qed.

(** Every column of the success dict has [n] entries. *)
Definition rows (n : nat) (sd : Dict.t column) : Prop :=
  keys sd = success_keys /\
  forall k, In k success_keys -> exists l, get sd k = Some l /\ length l = n.

Lemma harvest_file_rows (n : nat) (sd sd' : Dict.t column) (csv_file : string) :
  rows n sd ->
  harvest_file sd csv_file = Done sd' ->
  rows (if failed csv_file then n else S n) sd'.
Proof.
  intros [Hkeys Hcols] H. apply one_entry_more in H.
  destruct (failed csv_file); [now subst|].
  destruct H as [Hk Happ]. split; [congruence|].
  intros k Hin. destruct (proj1 (Happ k) Hin) as (l & x & Hl & Hl').
  exists (l ++ [x])%list. split; [exact Hl'|].
  destruct (Hcols k Hin) as (l0 & Hl0 & Hlen).
  rewrite length_app. cbn [length]. assert (l0 = l) by congruence. subst. lia.
Qed.

(** When the harvester comes to its end without an exception, the success
    dict has its 35 columns, and every column has one entry per CSV file
    of the listing whose name holds neither [failed] nor [timeout]. *)
Theorem harvest_gives_equal_columns (listing : list string) (success_dict : Dict.t column) :
  harvest files results_dir polyval listing = Done success_dict ->
  keys success_dict = success_keys /\
  forall k, In k success_keys ->
    exists l, get success_dict k = Some l /\
              length l = length (filter (fun csv_file => negb (failed csv_file))
                                   (filter (ends_with ".csv") listing)).
Proof.
  unfold harvest. generalize (filter (ends_with ".csv") listing) as csv_file_list.
  intros csv_file_list H.
  assert (Hgen : forall (l : list string) (n : nat) (sd sd' : Dict.t column),
             rows n sd -> loop harvest_file l sd = Done sd' ->
             rows (n + length (filter (fun csv_file => negb (failed csv_file)) l)) sd').
  { induction l as [|csv_file l IH]; intros n sd sd' Hrows Hloop; cbn in Hloop.
    - injection Hloop as <-. cbn. now rewrite Nat.add_0_r.
    - destruct (harvest_file sd csv_file) as [sd1|r] eqn:Hstep; [|discriminate].
      cbn [and_then] in Hloop.
      pose proof (harvest_file_rows n sd sd1 csv_file Hrows Hstep) as Hrows1.
      specialize (IH _ sd1 sd' Hrows1 Hloop). cbn [filter].
      destruct (failed csv_file); cbn [negb length]; [exact IH|].
      now rewrite Nat.add_succ_r. }
  apply (Hgen csv_file_list 0%nat empty_success_dict success_dict); [|exact H].
  destruct empty_success_dict_keys as [Hk Hempty]. split; [exact Hk|].
  intros k Hin. exists []. split; [now apply Hempty | reflexivity].
Qed.

End Script.

End HarvestFacts.

(** ** The harvester on the files of the sweep *)

Module SweepHarvest.

Import Dict DictFacts Harvest CsvSpec.
Local Open Scope string_scope.

(** *** File names *)

Lemma contains_later (keyword a c : string) :
  contains keyword c = true -> contains keyword (a ++ c) = true.
Proof.
  intros Hc. induction a as [|x a IH]; [exact Hc|].
  cbn [append contains]. rewrite IH. apply orb_true_r.
Qed.

(** A text without the first letter of a keyword does not hold the
    keyword. *)
Lemma contains_lacking (x : ascii) (keyword s : string) :
  CsvRoundTrip.lacks x s = true -> contains (String x keyword) s = false.
Proof.
  induction s as [|c s IH]; intros H; [reflexivity|].
  cbn [CsvRoundTrip.lacks] in H. apply andb_prop in H as [Hc Hs].
  cbn [contains String.prefix]. rewrite (IH Hs), orb_false_r.
  destruct (ascii_dec x c) as [->|]; [|reflexivity].
  now rewrite Ascii.eqb_refl in Hc.
Qed.

Lemma lacks_digits (x : ascii) (s : string) :
  PyFloat.is_digit x = false -> RoundSfTotal.all_digits s -> CsvRoundTrip.lacks x s = true.
Proof.
  intros Hx. unfold RoundSfTotal.all_digits, RoundSfTotal.dig.
  induction s as [|c s IH]; intros Hs; [reflexivity|].
  inversion Hs as [|? ? Hc Hrest]; subst. cbn [CsvRoundTrip.lacks].
  rewrite (IH Hrest), andb_true_r. apply negb_true_iff.
  destruct (Ascii.eqb_spec c x) as [->|]; [congruence | reflexivity].
Qed.

Lemma lacks_of_int (x : ascii) (z : Z) :
  PyFloat.is_digit x = false -> Ascii.eqb "-" x = false ->
  CsvRoundTrip.lacks x (PyStr.of_int z) = true.
Proof.
  intros Hx Hminus. destruct z as [|p|p].
  - apply lacks_digits; [exact Hx | now apply RoundSfTotal.of_int_digits].
  - apply lacks_digits; [exact Hx | now apply RoundSfTotal.of_int_digits].
  - change (PyStr.of_int (Z.neg p)) with (String "-" (PyStr.of_int (Z.pos p))).
    cbn [CsvRoundTrip.lacks]. rewrite Hminus. cbn [negb andb].
    apply lacks_digits; [exact Hx | now apply RoundSfTotal.of_int_digits].
Qed.

Section Names.

Variable index_1 index_2 : Z.

(** The name of the file of trial [i] inside the results directory. *)
Definition stem (i : nat) : string :=
  PyStr.of_int index_1 ++ "_" ++ PyStr.of_int index_2 ++ "_" ++ Sweep.index_str i.

Definition suffix (s : seen) : string :=
  match s with
  | Alive => "_timeout.csv"
  | Dead None => "_failed.csv"
  | Dead (Some _) => ".csv"
  end.

Lemma path_seen_name (i : nat) (s : seen) :
  Sweep.path_seen index_1 index_2 i s = "results/" ++ (stem i ++ suffix s).
Proof.
  unfold stem. destruct s as [|[r|]]; cbn [Sweep.path_seen suffix];
    unfold Sweep.results_path; now rewrite !PyStrFacts.append_assoc.
Qed.

Lemma lacks_stem (x : ascii) (i : nat) :
  PyFloat.is_digit x = false -> Ascii.eqb "-" x = false -> Ascii.eqb "_" x = false ->
  CsvRoundTrip.lacks x (stem i) = true.
Proof.
  intros Hx Hminus Hunder. unfold stem.
  rewrite !CsvRoundTrip.lacks_app, !lacks_of_int by assumption.
  cbn [CsvRoundTrip.lacks]. rewrite Hunder. cbn [negb andb].
  apply lacks_digits; [exact Hx|].
  apply RoundSfTotal.all_digits_of_digits. apply PathFacts.index_str_digits.
Qed.

(** The harvester takes a file of the sweep for a failure exactly when
    the sweep recorded a timeout or a failure in it. *)
Lemma failed_name (i : nat) (s : seen) :
  failed (stem i ++ suffix s) = match s with
                                | Dead (Some _) => false
                                | _ => true
                                end.
Proof.
  unfold failed. cbn [fold_left].
  destruct s as [|[r|]]; cbn [suffix].
  - rewrite (contains_later "timeout" (stem i) "_timeout.csv") by reflexivity.
    now destruct (contains "failed" (stem i ++ "_timeout.csv")).
  - assert (Hf : contains "failed" (stem i ++ ".csv") = false).
    { apply contains_lacking. rewrite CsvRoundTrip.lacks_app, lacks_stem by reflexivity.
      reflexivity. }
    assert (Ht : contains "timeout" (stem i ++ ".csv") = false).
    { apply contains_lacking. rewrite CsvRoundTrip.lacks_app, lacks_stem by reflexivity.
      reflexivity. }
    now rewrite Hf, Ht.
  - rewrite (contains_later "failed" (stem i) "_failed.csv") by reflexivity.
    now destruct (contains "timeout" (stem i ++ "_failed.csv")).
Qed.

End Names.

(** *** File names across jobs *)

Lemma of_int_negative (p : positive) :
  PyStr.of_int (Z.neg p) = String "-" (PyStr.of_int (Z.pos p)).
Proof. reflexivity. Qed.

Lemma digits_of_int (z : Z) : 0 <= z -> PathFacts.digits (PyStr.of_int z).
Proof.
  intros Hz. pose proof (PathFacts.value_of_int z Hz) as Hv.
  unfold PathFacts.digits, PathFacts.value_of in *.
  destruct (NilEmpty.uint_of_string (PyStr.of_int z)); discriminate.
Qed.

Lemma of_int_unsigned_unique (a c : Z) (x y : ascii) (s t : string) :
  0 <= a -> 0 <= c -> PathFacts.nondigit x -> PathFacts.nondigit y ->
  PyStr.of_int a ++ String x s = PyStr.of_int c ++ String y t ->
  a = c /\ String x s = String y t.
Proof.
  intros Ha Hc Hx Hy Heq.
  assert (Hsame : PyStr.of_int a = PyStr.of_int c).
  { apply (PathFacts.digits_prefix_unique _ _ x y s t); auto using digits_of_int. }
  split.
  - apply (f_equal PathFacts.value_of) in Hsame.
    rewrite !PathFacts.value_of_int in Hsame by assumption. now injection Hsame.
  - rewrite Hsame in Heq. now apply PathFacts.append_cancel_l in Heq.
Qed.

(** An [int] written in front of a character that is neither a digit nor
    a minus sign can be read back. *)
Lemma of_int_unique (a c : Z) (x y : ascii) (s t : string) :
  PathFacts.nondigit x -> PathFacts.nondigit y ->
  PyStr.of_int a ++ String x s = PyStr.of_int c ++ String y t ->
  a = c /\ String x s = String y t.
Proof.
  intros Hx Hy Heq.
  assert (Hstart : forall (p : positive) (z : Z) (u v : string),
             0 <= z -> String "-" u <> PyStr.of_int z ++ v).
  { intros p z u v Hz Hbad.
    destruct (PathFacts.of_int_starts_with_digit z Hz) as (d & rest & Hd & _ & Hminus).
    rewrite Hd in Hbad. cbn in Hbad. injection Hbad as <- _. discriminate. }
  destruct a as [|p|p], c as [|q|q];
    try (apply of_int_unsigned_unique; [lia | lia | assumption | assumption | exact Heq]).
  - rewrite of_int_negative in Heq. cbn [append] in Heq. symmetry in Heq.
    now apply (Hstart q 0) in Heq.
  - rewrite of_int_negative in Heq. cbn [append] in Heq. symmetry in Heq.
    apply (Hstart q (Z.pos p)) in Heq; [destruct Heq | lia].
  - rewrite of_int_negative in Heq. cbn [append] in Heq.
    now apply (Hstart p 0) in Heq.
  - rewrite of_int_negative in Heq. cbn [append] in Heq.
    apply (Hstart p (Z.pos q)) in Heq; [destruct Heq | lia].
  - rewrite !of_int_negative in Heq. cbn [append] in Heq. injection Heq as Heq.
    destruct (of_int_unsigned_unique (Z.pos p) (Z.pos q) x y s t) as [Hpq Hrest];
      try lia; try assumption.
    split; [|exact Hrest]. injection Hpq as ->. reflexivity.
Qed.

(** Two files of the results directory with the same name belong to the
    same job and the same trial, with the same outcome: the name holds
    the two command-line indexes, the ordinal of the trial (also past
    999, where the zero padding ends) and the kind of record. *)
Theorem file_name_tells_the_trial
  (index_1 index_2 other_1 other_2 : Z) (i j : nat) (s t : seen) :
  Sweep.path_seen index_1 index_2 i s = Sweep.path_seen other_1 other_2 j t ->
  index_1 = other_1 /\ index_2 = other_2 /\ i = j /\ suffix s = suffix t.
Proof.
  intros Heq.
  assert (Hunder : PathFacts.nondigit "_") by (intros [d|]; reflexivity).
  pose proof Heq as Hnames. rewrite !path_seen_name in Hnames.
  apply PathFacts.append_cancel_l in Hnames. unfold stem in Hnames.
  rewrite !PyStrFacts.append_assoc in Hnames. cbn [append] in Hnames.
  destruct (of_int_unique index_1 other_1 "_" "_" _ _ Hunder Hunder Hnames) as [-> Hrest].
  injection Hrest as Hrest.
  destruct (of_int_unique index_2 other_2 "_" "_" _ _ Hunder Hunder Hrest) as [-> _].
  assert (Hij : i = j) by (now apply PathFacts.path_seen_inj in Heq).
  subst j. repeat split.
  rewrite !path_seen_name in Heq. apply PathFacts.append_cancel_l in Heq.
  now apply PathFacts.append_cancel_l in Heq.
Qed.

Lemma file_name_tells_the_trial_witness :
  Sweep.path_seen 1 2 6 Alive = Sweep.path_seen 1 2 6 Alive /\
  1 = 1 /\ 2 = 2 /\ 6%nat = 6%nat /\ suffix Alive = suffix Alive.
Proof.
  split; [reflexivity|].
  exact (file_name_tells_the_trial 1 2 1 2 6 6 Alive Alive eq_refl).
Defined.

(** *** A file without a [phi_1] column *)

Lemma params_loop_raises (param_dict : Dict.t (value Csv.cell)) (ks : list string) :
  Forall (fun k => In k (keys param_dict)) ks ->
  forall (sd : Dict.t column) (r : raised),
    loop (fun sd key => append_to sd key (call (item param_dict key))) ks sd = Raise r ->
    r = Python KeyError.
Proof.
  induction 1 as [|k ks Hk _ IH]; intros sd r H; cbn in H; [discriminate|].
  destruct (in_keys_get param_dict k Hk) as [v Hv].
  unfold append_to in H at 1. unfold item in H at 1 2. rewrite Hv in H.
  destruct (get sd k) as [l|]; cbn in H; [|now injection H as <-].
  now apply IH with (set sd k (l ++ [v])%list).
Qed.

Section Script.

Variable files : filesystem.
Variable results_dir : string.
Variable polyval : list PyFloat.float -> value Csv.cell -> outcome (value PyFloat.float).

Lemma missing_phi_1
  (success_dict : Dict.t column) (csv_file : string) (data_dict : Dict.t (value Csv.cell)) :
  failed csv_file = false ->
  Csv.csv_to_dict files (results_dir ++ "/" ++ csv_file) PyStr.comma = Ok data_dict ->
  ~ In "phi_1" (keys data_dict) ->
  harvest_file files results_dir polyval success_dict csv_file = Raise (Python KeyError).
Proof.
  intros Hfailed Hread Hmissing. unfold harvest_file. rewrite Hread. cbn [call and_then].
  destruct (HarvestFacts.lookup_params data_dict PARAM_NAME_LIST) as [Hok Hbad].
  destruct (Forall_Exists_dec (fun name => In name (keys data_dict))
              (fun name => in_dec string_dec name (keys data_dict)) PARAM_NAME_LIST)
    as [Hall|Hsome].
  - destruct (Hok Hall) as (values & Hvalues & Hlen). rewrite Hvalues. cbn [and_then].
    rewrite Hfailed.
    assert (Hkeys : keys (of_pairs (combine PARAM_NAME_LIST values)) = PARAM_NAME_LIST).
    { rewrite DictUpdateFacts.of_pairs_fresh;
        rewrite DictUpdateFacts.keys_combine by congruence; [reflexivity|].
      pose proof HarvestFacts.success_keys_distinct as Hnd.
      now apply NoDup_app_remove_r in Hnd. }
    rewrite Hkeys.
    destruct (loop _ PARAM_NAME_LIST success_dict) as [sd0|r] eqn:Hloop.
    + cbn [and_then for_each PHI_HEADERS]. unfold item at 1.
      rewrite (proj2 (get_none_not_in_keys data_dict "phi_1") Hmissing). reflexivity.
    + cbn [and_then]. f_equal.
      apply (params_loop_raises (of_pairs (combine PARAM_NAME_LIST values)) PARAM_NAME_LIST)
        with success_dict; [|exact Hloop].
      rewrite Hkeys. apply Forall_forall. auto.
  - now rewrite (Hbad Hsome).
Qed.

(** A file that is not skipped and has no [phi_1] column makes the
    harvester raise [KeyError], whatever else the file holds. *)
Theorem harvest_file_needs_phi_1
  (success_dict : Dict.t column) (csv_file : string) (data_dict : Dict.t (value Csv.cell)) :
  failed csv_file = false ->
  Csv.csv_to_dict files (results_dir ++ "/" ++ csv_file) PyStr.comma = Ok data_dict ->
  ~ In "phi_1" (keys data_dict) ->
  harvest_file files results_dir polyval success_dict csv_file = Raise (Python KeyError).
Proof. exact (missing_phi_1 success_dict csv_file data_dict). Qed.

End Script.

(** *** The files the sweep wrote *)

Section Sweep.

Variable index_1 index_2 : Z.
Variable weights : list PyFloat.float.
Variable param_names : list string.
Hypothesis names_match : Permutation param_names Model.param_names.

Lemma trial_dict_keys (combination : list number) (s : seen) (d : Dict.t (value number)) :
  length combination = length param_names ->
  (forall results, s = Dead (Some results) -> Sweep.harvestable weights results) ->
  Sweep.trial_dict weights param_names combination s = Ok d ->
  d <> [] /\ NoDup (keys d) /\
  keys d = (param_names ++ match s with
                           | Dead (Some _) => SweepFacts.data_keys
                           | _ => []
                           end)%list.
Proof.
  intros Hlen Hgood Hd.
  destruct (SweepFacts.trial_dict_ok weights param_names names_match combination s Hlen Hgood)
    as (d' & Hd' & Hne & Hnd & _).
  rewrite Hd in Hd'. injection Hd' as <-.
  split; [exact Hne|]. split; [exact Hnd|].
  destruct (SweepFacts.make_param_dict_combine param_names names_match combination Hlen)
    as [Hpd Hk].
  unfold Sweep.trial_dict in Hd.
  destruct s as [|[results|]].
  - injection Hd as <-. rewrite SweepFacts.keys_scalars, Hk. now rewrite app_nil_r.
  - destruct (SweepFacts.combined_dict_ok weights
                (Sweep.make_param_dict param_names combination) results) as (extra & Hc & Hek).
    + now apply Hgood.
    + rewrite Hk. exact (SweepFacts.names_distinct param_names names_match).
    + rewrite Hc in Hd. injection Hd as <-.
      unfold keys. rewrite map_app.
      fold (keys (Sweep.scalars (Sweep.make_param_dict param_names combination))) (keys extra).
      now rewrite SweepFacts.keys_scalars, Hk, Hek.
  - injection Hd as <-. rewrite SweepFacts.keys_scalars, Hk. now rewrite app_nil_r.
Qed.

(** The harvester on a file of the sweep, kept under the name the sweep
    gave it: the file of a trial that timed out or failed is read and
    skipped, and the file of a trial that returned makes the harvester
    raise [KeyError], because the sweep writes no [phi_1] column. *)
Theorem harvest_of_sweep_file
  (files : filesystem) (results_dir : string)
  (polyval : list PyFloat.float -> value Csv.cell -> outcome (value PyFloat.float))
  (combination : list number) (i : nat) (s : seen) (d : Dict.t (value number))
  (csv_file : string) (success_dict : Dict.t column) :
  length combination = length param_names ->
  (forall results, s = Dead (Some results) -> Sweep.harvestable weights results) ->
  Sweep.trial_dict weights param_names combination s = Ok d ->
  Sweep.path_seen index_1 index_2 i s = "results/" ++ csv_file ->
  get files (results_dir ++ "/" ++ csv_file) = Some (table_text number_str d) ->
  harvest_file files results_dir polyval success_dict csv_file
  = match s with
    | Dead (Some _) => Raise (Python KeyError)
    | _ => Done success_dict
    end.
Proof.
  intros Hlen Hgood Hd Hpath Hfile.
  destruct (trial_dict_keys combination s d Hlen Hgood Hd) as (Hne & Hnd & Hkeys).
  assert (Hname : csv_file = stem index_1 index_2 i ++ suffix s).
  { rewrite path_seen_name in Hpath. symmetry.
    now apply PathFacts.append_cancel_l with "results/". }
  assert (Hplain_names : Forall (fun k => CsvRoundTrip.plain k = true) param_names).
  { apply Permutation_Forall with Model.param_names;
      [now apply Permutation_sym | repeat constructor]. }
  assert (Hplain : Forall (fun k => CsvRoundTrip.plain k = true) (keys d)).
  { rewrite Hkeys. apply Forall_app. split; [exact Hplain_names|].
    destruct s as [|[r|]]; repeat constructor. }
  assert (Hitems : Forall (fun kv => Forall (fun a => CsvRoundTrip.plain (number_str a) = true)
                                       (items (snd kv))) d).
  { apply Forall_forall. intros kv _. apply Forall_forall. intros a _.
    apply number_str_plain. }
  pose proof (CsvRoundTrip.read_written_text number_str d _ files Hne Hnd Hplain Hitems Hfile)
    as Hread.
  assert (Hread_keys : keys (CsvRoundTrip.read_back number_str d) = keys d).
  { unfold CsvRoundTrip.read_back, keys. rewrite map_map. reflexivity. }
  pose proof (failed_name index_1 index_2 i s) as Hfailed. rewrite <- Hname in Hfailed.
  destruct s as [|[results|]].
  - apply (proj1 (HarvestFacts.skipped_file files results_dir polyval
                    success_dict csv_file _ Hfailed Hread)).
    rewrite Hread_keys, Hkeys, app_nil_r. apply Forall_forall. intros name Hin.
    apply Permutation_in with Model.param_names; [now apply Permutation_sym | exact Hin].
  - apply (missing_phi_1 files results_dir polyval success_dict csv_file _
             Hfailed Hread).
    rewrite Hread_keys, Hkeys. intros Hin. apply in_app_or in Hin. destruct Hin as [Hin|Hin].
    + apply (Permutation_in _ names_match) in Hin. cbn in Hin. intuition discriminate.
    + cbn in Hin. intuition discriminate.
  - apply (proj1 (HarvestFacts.skipped_file files results_dir polyval
                    success_dict csv_file _ Hfailed Hread)).
    rewrite Hread_keys, Hkeys, app_nil_r. apply Forall_forall. intros name Hin.
    apply Permutation_in with Model.param_names; [now apply Permutation_sym | exact Hin].
Qed.

End Sweep.

End SweepHarvest.

(** ** The harvester on example files *)

Module HarvestExample.

Import Dict Harvest CsvSpec.
Local Open Scope string_scope.

Definition nl : string := String PyStr.newline "".

Definition text_of (lines : list string) : string :=
  PyStr.concat_all (map (fun line => line ++ nl) lines).

(** A result file with two trajectories per angle, as space-separated
    polynomial coefficients, and eleven strain samples. *)
Definition polynomial_text : string :=
  text_of ["tau_sat,b,tau_0,gamma_0,n,strain,phi_1,Phi,phi_2";
           "50,0.1,100,3.333e-05,2,0.0,1.0 0.5,2.0 0.25,0.5 0.5";
           ",,,,,0.01,0.5 1.0,1.0 1.0,2.0 2.0";
           ",,,,,0.02,,,"; ",,,,,0.03,,,"; ",,,,,0.04,,,"; ",,,,,0.05,,,";
           ",,,,,0.06,,,"; ",,,,,0.07,,,"; ",,,,,0.08,,,"; ",,,,,0.09,,,";
           ",,,,,0.1,,,"].

(** The file of a trial that timed out. *)
Definition timeout_text : string :=
  text_of ["tau_sat,b,tau_0,gamma_0,n"; "50,0.1,100,3.333e-05,2"].

(** The file of a trial that failed, with a column lost. *)
Definition damaged_text : string :=
  text_of ["tau_sat,b,tau_0,gamma_0"; "50,0.1,100,3.333e-05"].

Definition results_dir : string := "r".

Definition files : filesystem :=
  [("r/old_001.csv", polynomial_text); ("r/1_2_001_timeout.csv", timeout_text);
   ("r/1_2_002_failed.csv", damaged_text)].

(** Horner's rule on each sample, as [np.polyval] evaluates a polynomial
    on an array of floats. *)
Definition horner (p : list PyFloat.float) (x : PyFloat.float) : PyFloat.float :=
  fold_left (fun y pv => SFadd PyFloat.prec PyFloat.emax (SFmul PyFloat.prec PyFloat.emax y x) pv)
    p (S754_zero false).

Definition sample (c : Csv.cell) : outcome PyFloat.float :=
  match c with
  | Csv.CFloat x => Done x
  | Csv.CStr _ => Raise (Library "UFuncTypeError")
  end.

Definition polyval (p : list PyFloat.float) (x_list : value Csv.cell)
  : outcome (value PyFloat.float) :=
  match x_list with
  | ListOf cells => xs <~ for_each sample cells ;; Done (ListOf (map (horner p) xs))
  | Scalar c => x <~ sample c ;; Done (Scalar (horner p x))
  end.

Definition harvest_file := Harvest.harvest_file files results_dir polyval.

(** The success dict after the first file. *)
Definition harvested : Dict.t column :=
  match harvest_file empty_success_dict "old_001.csv" with
  | Done success_dict => success_dict
  | Raise _ => []
  end.

Example harvest_old_file : harvest_file empty_success_dict "old_001.csv" = Done harvested.
Proof. vm_compute. reflexivity. Qed.

Example harvested_columns :
  get harvested "tau_0" = Some [Scalar (Csv.CFloat (PyFloat.lit "100.0"))] /\
  get harvested "phi_1_1" = Some [Scalar (Csv.CFloat (PyFloat.lit "0.5"))] /\
  get harvested "phi_1_10" = Some [Scalar (Csv.CFloat (PyFloat.lit "0.59"))] /\
  get harvested "Phi_3" = Some [Scalar (Csv.CFloat (PyFloat.lit "0.29"))].
Proof. vm_compute. repeat split; reflexivity. Qed.

Definition timeout_dict : Dict.t (value Csv.cell) :=
  match Csv.csv_to_dict files "r/1_2_001_timeout.csv" PyStr.comma with
  | Ok data_dict => data_dict
  | Err _ => []
  end.

Lemma harvest_file_skips_witness :
  failed "1_2_001_timeout.csv" = true /\
  Csv.csv_to_dict files (results_dir ++ "/" ++ "1_2_001_timeout.csv") PyStr.comma
  = Ok timeout_dict /\
  (Forall (fun name => In name (keys timeout_dict)) PARAM_NAME_LIST ->
   harvest_file harvested "1_2_001_timeout.csv" = Done harvested) /\
  (Exists (fun name => ~ In name (keys timeout_dict)) PARAM_NAME_LIST ->
   harvest_file harvested "1_2_001_timeout.csv" = Raise (Python KeyError)).
Proof.
  assert (H1 : failed "1_2_001_timeout.csv" = true) by reflexivity.
  assert (H2 : Csv.csv_to_dict files (results_dir ++ "/" ++ "1_2_001_timeout.csv") PyStr.comma
               = Ok timeout_dict) by (vm_compute; reflexivity).
  split; [exact H1|]. split; [exact H2|].
  exact (HarvestFacts.harvest_file_skips files results_dir polyval harvested
           "1_2_001_timeout.csv" timeout_dict H1 H2).
Defined.

(** A failed file that lost a parameter column stops the harvest, though
    its name would have it skipped. *)
Example damaged_file_raises :
  harvest_file harvested "1_2_002_failed.csv" = Raise (Python KeyError).
Proof. vm_compute. reflexivity. Qed.

Lemma harvest_file_adds_one_entry_witness :
  harvest_file empty_success_dict "old_001.csv" = Done harvested /\
  (if failed "old_001.csv" then harvested = empty_success_dict
   else HarvestFacts.appended success_keys empty_success_dict harvested).
Proof.
  assert (H : harvest_file empty_success_dict "old_001.csv" = Done harvested)
    by (vm_compute; reflexivity).
  split; [exact H|].
  exact (HarvestFacts.harvest_file_adds_one_entry files results_dir polyval
           empty_success_dict harvested "old_001.csv" H).
Defined.

(** The listing of the directory, without the damaged file. *)
Definition listing : list string :=
  ["notes.txt"; "1_2_001_timeout.csv"; "old_001.csv"].

Lemma harvest_gives_equal_columns_witness :
  harvest files results_dir polyval listing = Done harvested /\
  keys harvested = success_keys /\
  forall k, In k success_keys ->
    exists l, get harvested k = Some l /\
              length l = length (filter (fun csv_file => negb (failed csv_file))
                                   (filter (ends_with ".csv") listing)).
Proof.
  assert (H : harvest files results_dir polyval listing = Done harvested)
    by (vm_compute; reflexivity).
  split; [exact H|].
  exact (HarvestFacts.harvest_gives_equal_columns files results_dir polyval listing
           harvested H).
Defined.

(** *** A file of the sweep *)

Definition names : list string := Model.param_names.
Definition combination : list number :=
  [PyInt 50; PyFloat (SweepExample.f "0.1"); PyInt 100;
   PyFloat (SweepExample.f "3.333e-05"); PyInt 2].

(** The dict of a trial that returned, and the text the sweep writes. *)
Definition returned : seen := Dead (Some SweepExample.output).

Definition trial : Dict.t (value number) :=
  match Sweep.trial_dict SweepExample.weights names combination returned with
  | Ok d => d
  | Err _ => []
  end.

Definition sweep_files : filesystem := [("r/1_2_003.csv", table_text number_str trial)].

Definition sweep_dict : Dict.t (value Csv.cell) :=
  match Csv.csv_to_dict sweep_files "r/1_2_003.csv" PyStr.comma with
  | Ok data_dict => data_dict
  | Err _ => []
  end.

Lemma harvest_file_needs_phi_1_witness :
  failed "1_2_003.csv" = false /\
  Csv.csv_to_dict sweep_files (results_dir ++ "/" ++ "1_2_003.csv") PyStr.comma
  = Ok sweep_dict /\
  ~ In "phi_1" (keys sweep_dict) /\
  Harvest.harvest_file sweep_files results_dir polyval harvested "1_2_003.csv"
  = Raise (Python KeyError).
Proof.
  assert (H1 : failed "1_2_003.csv" = false) by reflexivity.
  assert (H2 : Csv.csv_to_dict sweep_files (results_dir ++ "/" ++ "1_2_003.csv") PyStr.comma
               = Ok sweep_dict) by (vm_compute; reflexivity).
  assert (H3 : ~ In "phi_1" (keys sweep_dict)).
  { vm_compute. intuition discriminate. }
  split; [exact H1|]. split; [exact H2|]. split; [exact H3|].
  exact (SweepHarvest.harvest_file_needs_phi_1 sweep_files results_dir polyval harvested
           "1_2_003.csv" sweep_dict H1 H2 H3).
Defined.

Lemma harvest_of_sweep_file_witness :
  Permutation names Model.param_names /\
  length combination = length names /\
  (forall results, returned = Dead (Some results) ->
                   Sweep.harvestable SweepExample.weights results) /\
  Sweep.trial_dict SweepExample.weights names combination returned = Ok trial /\
  Sweep.path_seen 1 2 2 returned = "results/" ++ "1_2_003.csv" /\
  get sweep_files (results_dir ++ "/" ++ "1_2_003.csv") = Some (table_text number_str trial) /\
  Harvest.harvest_file sweep_files results_dir polyval harvested "1_2_003.csv"
  = Raise (Python KeyError).
Proof.
  assert (H1 : Permutation names Model.param_names) by apply Permutation_refl.
  assert (H2 : length combination = length names) by reflexivity.
  assert (H3 : forall results, returned = Dead (Some results) ->
                               Sweep.harvestable SweepExample.weights results).
  { intros results H. injection H as <-. split; [discriminate | repeat constructor]. }
  assert (H4 : Sweep.trial_dict SweepExample.weights names combination returned = Ok trial)
    by (vm_compute; reflexivity).
  assert (H5 : Sweep.path_seen 1 2 2 returned = "results/" ++ "1_2_003.csv")
    by (vm_compute; reflexivity).
  assert (H6 : get sweep_files (results_dir ++ "/" ++ "1_2_003.csv")
               = Some (table_text number_str trial)) by reflexivity.
  repeat (split; [assumption|]).
  exact (SweepHarvest.harvest_of_sweep_file 1 2 SweepExample.weights names H1
           sweep_files results_dir polyval combination 2 returned trial "1_2_003.csv"
           harvested H2 H3 H4 H5 H6).
Defined.

End HarvestExample.

(** ** The command-line indexes of the sweep *)

Module ScriptIndexes.

Lemma py_index_outside {A : Type} (l : list A) (i : Z) :
  ~ (- Z.of_nat (length l) <= i < Z.of_nat (length l)) -> py_index l i = Err IndexError.
Proof.
  intros Hout. unfold py_index.
  destruct ((0 <=? i) && (i <? Z.of_nat (length l))) eqn:Hpos.
  - apply andb_prop in Hpos as [H0 H1]. apply Z.leb_le in H0. apply Z.ltb_lt in H1. lia.
  - destruct ((- Z.of_nat (length l) <=? i) && (i <? 0)) eqn:Hneg; [|reflexivity].
    apply andb_prop in Hneg as [H0 H1]. apply Z.leb_le in H0. apply Z.ltb_lt in H1. lia.
Qed.

(** A command-line index outside its table (six values of [tau_sat] for
    the second index, four values of [n] for the first, counted from the
    end when negative) stops the script with [IndexError] before any
    trial is run. *)
Theorem script_rejects_other_indexes (index_1 index_2 : Z) :
  ~ (-4 <= index_1 < 4) \/ ~ (-6 <= index_2 < 6) ->
  Sweep.all_params_dict index_1 index_2 = Err IndexError.
Proof.
  intros Hout. unfold Sweep.all_params_dict.
  destruct (Z_le_dec (-6) index_2) as [Hlo|Hlo], (Z_lt_dec index_2 6) as [Hhi|Hhi];
    try (rewrite py_index_outside by (cbn; lia); reflexivity).
  destruct (SweepFacts.py_index_ok (map PyInt [50; 100; 200; 400; 800; 1600]) index_2)
    as [tau_sat ->]; [cbn; lia|].
  cbn [bind].
  assert (Hg : exists g,
             round_sf (PyFloat (SFdiv PyFloat.prec PyFloat.emax Sweep.STRAIN_RATE
                                  (PyFloat.lit "3"))) 4 = Ok g)
    by (vm_compute; eexists; reflexivity).
  destruct Hg as [gamma_0 ->]. cbn [bind].
  rewrite py_index_outside by (cbn; lia). reflexivity.
Qed.

Lemma script_rejects_other_indexes_witness :
  (~ (-4 <= 4 < 4) \/ ~ (-6 <= 0 < 6)) /\ Sweep.all_params_dict 4 0 = Err IndexError.
Proof.
  assert (H : ~ (-4 <= 4 < 4) \/ ~ (-6 <= 0 < 6)) by (left; lia).
  split; [exact H|]. exact (script_rejects_other_indexes 4 0 H).
Defined.

End ScriptIndexes.
